(** * ElasticTreeMessage: the Elastic Tree protocol messages and their codecs

    A shallow embedding of [backend/protocol/ElasticTreeMessage.py]: the
    message classes, their constructors, [length], [pack] and [unpack], over
    a small model of the pieces of the Python runtime they use (exceptions,
    slicing, the [struct] module, IEEE doubles). *)

From Stdlib Require Import ZArith List Bool Lia String.
From Stdlib.Strings Require Import Byte.
From Stdlib Require Import Floats.
Import ListNotations.

Open Scope Z_scope.

(** ** Python exceptions and fallible computations *)

Module Py.

(** The exceptions the module can raise.  [struct_error] is [struct.error];
    [Exception_] is a plain [Exception] with its message template. *)
Inductive exn : Type :=
| struct_error
| OverflowError
| TypeError
| NameError
| Exception_ (msg : string).

Inductive result (A : Type) : Type :=
| OK (a : A)
| Raise (e : exn).

Arguments OK {A} a.
Arguments Raise {A} e.

Definition bind {A B : Type} (r : result A) (k : A -> result B) : result B :=
  match r with
  | OK a => k a
  | Raise e => Raise e
  end.

Definition raises {A : Type} (r : result A) : Prop :=
  exists e, r = Raise e.

Definition returns {A : Type} (r : result A) : Prop :=
  exists a, r = OK a.

(** [bool(x)] on an integer. *)
Definition bool_ (x : Z) : bool := negb (x =? 0).

(** A Python [bool] used where an integer is expected. *)
Definition int_of_bool (b : bool) : Z := if b then 1 else 0.

(** Byte strings, [s[:n]], [s[n:]] and [len(s)]. *)
Definition bytes : Type := list byte.

Definition upto (n : nat) (s : bytes) : bytes := firstn n s.
Definition from (n : nat) (s : bytes) : bytes := skipn n s.

(** The values an arithmetic expression of the module can meet: integers and
    lists.  [*] repeats a list and [+] concatenates two lists; an integer
    and a list cannot be added. *)
Inductive value (A : Type) : Type :=
| Int (z : Z)
| List_ (l : list A).

Arguments Int {A} z.
Arguments List_ {A} l.

Fixpoint repeat_list {A : Type} (l : list A) (n : nat) : list A :=
  match n with
  | O => []
  | S n' => l ++ repeat_list l n'
  end.

Definition mul {A : Type} (a b : value A) : result (value A) :=
  match a, b with
  | Int x, Int y => OK (Int (x * y))
  | List_ l, Int n => OK (List_ (repeat_list l (Z.to_nat n)))
  | Int n, List_ l => OK (List_ (repeat_list l (Z.to_nat n)))
  | List_ _, List_ _ => Raise TypeError
  end.

Definition add {A : Type} (a b : value A) : result (value A) :=
  match a, b with
  | Int x, Int y => OK (Int (x + y))
  | List_ l1, List_ l2 => OK (List_ (l1 ++ l2))
  | _, _ => Raise TypeError
  end.

End Py.

Export Py.

Declare Scope py_scope.
Delimit Scope py_scope with py.
Notation "x <- e ;; k" := (bind e (fun x => k))
  (at level 61, e at next level, right associativity) : py_scope.
Open Scope py_scope.

(** ** The [struct] module, big-endian standard sizes (the ['>'] prefix) *)

Module Struct.

Definition byte_of_Z (z : Z) : byte :=
  match Byte.of_N (Z.to_N (z mod 256)) with
  | Some b => b
  | None => x00
  end.

Definition Z_of_byte (b : byte) : Z := Z.of_N (Byte.to_N b).

(** The [n] low-order bytes of [v], most significant first. *)
Fixpoint be_bytes (n : nat) (v : Z) : bytes :=
  match n with
  | O => []
  | S n' => byte_of_Z (v / 256 ^ Z.of_nat n') :: be_bytes n' v
  end.

Definition be_int (s : bytes) : Z :=
  fold_left (fun acc b => acc * 256 + Z_of_byte b) s 0.

(** [struct.pack] of one unsigned field of [n] bytes (['B'], ['H'], ['I'],
    ['Q'] for 1, 2, 4, 8): a value outside the field's range is a
    [struct.error]. *)
Definition pack_uint (n : nat) (v : Z) : result bytes :=
  if (0 <=? v) && (v <? 256 ^ Z.of_nat n)
  then OK (be_bytes n v)
  else Raise struct_error.

(** [struct.unpack] of one unsigned field of [n] bytes: the string must have
    exactly the size of the format. *)
Definition unpack_uint (n : nat) (s : bytes) : result Z :=
  if Nat.eqb (List.length s) n then OK (be_int s) else Raise struct_error.

(** *** The ['f'] field: IEEE binary32 *)

Definition prec32 : Z := 24.
Definition emax32 : Z := 128.

(** The C conversion [(float)x] of a double, to nearest even. *)
Definition to_single (x : spec_float) : spec_float :=
  match x with
  | S754_finite s m e => binary_round prec32 emax32 s m e
  | _ => x
  end.

Definition sign_bit (s : bool) : Z := if s then 2 ^ 31 else 0.

(** The 32-bit pattern of a binary32 value. *)
Definition bits_of_single (x : spec_float) : Z :=
  match x with
  | S754_zero s => sign_bit s
  | S754_infinity s => sign_bit s + 255 * 2 ^ 23
  | S754_nan => 255 * 2 ^ 23 + 2 ^ 22
  | S754_finite s m e =>
      sign_bit s +
      (if Z.pos m <? 2 ^ 23 then Z.pos m
       else (e + 150) * 2 ^ 23 + (Z.pos m - 2 ^ 23))
  end.

Definition single_of_bits (w : Z) : spec_float :=
  let s := Z.testbit w 31 in
  let e := (w / 2 ^ 23) mod 256 in
  let m := w mod 2 ^ 23 in
  if e =? 255 then (if m =? 0 then S754_infinity s else S754_nan)
  else if e =? 0 then
    match m with
    | Z.pos p => S754_finite s p (-149)
    | _ => S754_zero s
    end
  else
    match m + 2 ^ 23 with
    | Z.pos p => S754_finite s p (e - 150)
    | _ => S754_nan
    end.

Definition is_inf (x : spec_float) : bool :=
  match x with
  | S754_infinity _ => true
  | _ => false
  end.

(** [struct.pack('> f', x)]: a finite double that rounds to an infinite
    single is an [OverflowError]. *)
Definition pack_f (x : float) : result bytes :=
  let d := Prim2SF x in
  let y := to_single d in
  if is_inf y && negb (is_inf d) then Raise OverflowError
  else OK (be_bytes 4 (bits_of_single y)).

Definition unpack_f (s : bytes) : result float :=
  if Nat.eqb (List.length s) 4
  then OK (SF2Prim (single_of_bits (be_int s)))
  else Raise struct_error.

End Struct.

(** ** The base layer, [OFGMessage.py]

    The Elastic Tree module imports [OFGMessage] and [Link] from the base
    layer and builds on them. *)

Module OFGMessage.

(** Modelled from the spec: [OFGMessage.SIZE], the size of the part of the
    envelope that a message's own codec owns, the four-byte transaction id
    (the length and type prefix belongs to the framing layer). *)
Definition SIZE : Z := 4.

(** Modelled from the spec: [OFGMessage.pack], which encodes the
    transaction id as a big-endian [u32]; every [unpack] of this module reads
    it back with [struct.unpack('> I', body[:4])]. *)
Definition pack (xid : Z) : result bytes := Struct.pack_uint 4 xid.

End OFGMessage.

(** The base layer's [Link]: a fixed-size record with its own codec.  The
    Elastic Tree module uses [Link.SIZE], [Link.pack] and [Link.unpack] and
    nothing else of it, so the development is parametric in them. *)
Class LinkClass : Type := {
  Link : Type;
  Link_SIZE : nat;
  Link_pack : Link -> result bytes;
  Link_unpack : bytes -> result Link
}.

(** ** ETTrafficMatrix (type 0xF0) *)

#[local] Set Warnings "-inexact-float".

Module ETTrafficMatrix.

Definition get_type : Z := 0xF0.

Definition SOLVER_SPREAD : Z := 1.
Definition SOLVER_SQUISH : Z := 2.
Definition SOLVER_MODEL_GLPK : Z := 3.
Definition SOLVER_MODEL_GAMS : Z := 4.
Definition SOLVER_HASH : Z := 5.

Record t : Type := mk {
  xid : Z;
  use_hw : bool;
  solver : Z;
  may_split_flows : bool;
  k : Z;
  demand : float;
  edge : float;
  agg : float;
  plen : Z
}.

(** Python's [a > b] on floats. *)
Definition gtb (a b : float) : bool := PrimFloat.ltb b a.

Definition range_msg : string :=
  "demand (%f), edge (%f) and agg (%f) must be between 0.0 and 1.0 inclusive".
Definition sum_msg : string := "agg + edge > 1.0 (%f)".

Definition init (use_hw solver may_split_flows k : Z) (demand edge agg : float)
    (plen xid : Z) : result t :=
  if PrimFloat.ltb demand 0 || gtb demand 1 || PrimFloat.ltb edge 0 || gtb edge 1
     || PrimFloat.ltb agg 0 || gtb edge 1
  then Raise (Exception_ range_msg)
  else if gtb (agg + edge)%float 1 then
    if gtb (agg + edge)%float 1.01
    then Raise (Exception_ sum_msg)
    else OK (mk xid (bool_ use_hw) solver (bool_ may_split_flows) k
               demand edge (1 - edge)%float plen)
  else OK (mk xid (bool_ use_hw) solver (bool_ may_split_flows) k
             demand edge agg plen).

Definition length (self : t) : Z := OFGMessage.SIZE + 23.

(** [struct.pack('> 3B I 3f I', ...)]. *)
Definition pack_body (self : t) : result bytes :=
  b0 <- Struct.pack_uint 1 (int_of_bool (use_hw self));;
  b1 <- Struct.pack_uint 1 (solver self);;
  b2 <- Struct.pack_uint 1 (int_of_bool (may_split_flows self));;
  b3 <- Struct.pack_uint 4 (k self);;
  b4 <- Struct.pack_f (demand self);;
  b5 <- Struct.pack_f (edge self);;
  b6 <- Struct.pack_f (agg self);;
  b7 <- Struct.pack_uint 4 (plen self);;
  OK (b0 ++ b1 ++ b2 ++ b3 ++ b4 ++ b5 ++ b6 ++ b7).

Definition pack (self : t) : result bytes :=
  hdr <- OFGMessage.pack (xid self);;
  body <- pack_body self;;
  OK (hdr ++ body).

Definition field (off n : nat) (s : bytes) : bytes := upto n (from off s).

(** [struct.unpack('> 3B I 3f I', s)]: 23 bytes exactly. *)
Definition unpack_body (s : bytes) : result (Z * Z * Z * Z * float * float * float * Z) :=
  if Nat.eqb (List.length s) 23 then
    t4 <- Struct.unpack_f (field 7 4 s);;
    t5 <- Struct.unpack_f (field 11 4 s);;
    t6 <- Struct.unpack_f (field 15 4 s);;
    OK (Struct.be_int (field 0 1 s), Struct.be_int (field 1 1 s),
        Struct.be_int (field 2 1 s), Struct.be_int (field 3 4 s),
        t4, t5, t6, Struct.be_int (field 19 4 s))
  else Raise struct_error.

Definition unpack (body : bytes) : result t :=
  xid <- Struct.unpack_uint 4 (upto 4 body);;
  let body := from 4 body in
  r <- unpack_body (upto 23 body);;
  let '(t0, t1, t2, t3, t4, t5, t6, t7) := r in
  init t0 t1 t2 t3 t4 t5 t6 t7 xid.

End ETTrafficMatrix.

(** ** ETPowerUsage (type 0xF2) *)

Module ETPowerUsage.

Definition get_type : Z := 0xF2.

Record t : Type := mk {
  xid : Z;
  watts_current : Z;
  watts_traditional : Z;
  watts_max : Z
}.

(** [watts_max=None] and [xid=0] are the defaults of the constructor. *)
Definition init (watts_current watts_traditional : Z) (watts_max : option Z)
    (xid : Z) : t :=
  mk xid watts_current watts_traditional
     (match watts_max with
      | Some m => m
      | None => watts_traditional
      end).

Definition length (self : t) : Z := OFGMessage.SIZE + 12.

Definition pack (self : t) : result bytes :=
  b0 <- Struct.pack_uint 4 (watts_current self);;
  b1 <- Struct.pack_uint 4 (watts_traditional self);;
  b2 <- Struct.pack_uint 4 (watts_max self);;
  let body := b0 ++ b1 ++ b2 in
  hdr <- OFGMessage.pack (xid self);;
  OK (hdr ++ body).

Definition unpack (body : bytes) : result t :=
  xid <- Struct.unpack_uint 4 (upto 4 body);;
  let body := from 4 body in
  watts_current <- Struct.unpack_uint 4 (upto 4 body);;
  let body := from 4 body in
  watts_traditional <- Struct.unpack_uint 4 (upto 4 body);;
  let body := from 4 body in
  watts_max <- Struct.unpack_uint 4 (upto 4 body);;
  OK (init watts_current watts_traditional (Some watts_max) xid).

End ETPowerUsage.

(** ** ETBandwidth (type 0xF4) *)

Module ETBandwidth.

Definition get_type : Z := 0xF4.

Record t : Type := mk {
  xid : Z;
  bandwidth_achieved_mbps : Z
}.

Definition init (bandwidth_achieved_mbps xid : Z) : t :=
  mk xid bandwidth_achieved_mbps.

Definition length (self : t) : Z := OFGMessage.SIZE + 4.

Definition pack (self : t) : result bytes :=
  body <- Struct.pack_uint 4 (bandwidth_achieved_mbps self);;
  hdr <- OFGMessage.pack (xid self);;
  OK (hdr ++ body).

(** The last line is [return ETPowerUsage(bandwidth_achieved_mbps, xid)]:
    the two positional arguments are [watts_current] and
    [watts_traditional], and [watts_max] and [xid] take their defaults. *)
Definition unpack (body : bytes) : result ETPowerUsage.t :=
  xid <- Struct.unpack_uint 4 (upto 4 body);;
  let body := from 4 body in
  bandwidth_achieved_mbps <- Struct.unpack_uint 4 (upto 4 body);;
  OK (ETPowerUsage.init bandwidth_achieved_mbps xid None 0).

End ETBandwidth.

(** ** ETLatency (type 0xF5) *)

Module ETLatency.

Definition get_type : Z := 0xF5.

Record t : Type := mk {
  xid : Z;
  latency_ms_edge : Z;
  latency_ms_agg : Z;
  latency_ms_core : Z
}.

Definition init (latency_ms_edge latency_ms_agg latency_ms_core xid : Z) : t :=
  mk xid latency_ms_edge latency_ms_agg latency_ms_core.

Definition length (self : t) : Z := OFGMessage.SIZE + 12.

Definition pack (self : t) : result bytes :=
  b0 <- Struct.pack_uint 4 (latency_ms_edge self);;
  b1 <- Struct.pack_uint 4 (latency_ms_agg self);;
  b2 <- Struct.pack_uint 4 (latency_ms_core self);;
  let body := b0 ++ b1 ++ b2 in
  hdr <- OFGMessage.pack (xid self);;
  OK (hdr ++ body).

Definition unpack (body : bytes) : result t :=
  xid <- Struct.unpack_uint 4 (upto 4 body);;
  let body := from 4 body in
  latency_ms_edge <- Struct.unpack_uint 4 (upto 4 body);;
  let body := from 4 body in
  latency_ms_agg <- Struct.unpack_uint 4 (upto 4 body);;
  let body := from 4 body in
  latency_ms_core <- Struct.unpack_uint 4 (upto 4 body);;
  OK (init latency_ms_edge latency_ms_agg latency_ms_core xid).

End ETLatency.

(** ** ETSwitchesRequest (type 0xF6) *)

Module ETSwitchesRequest.

Definition get_type : Z := 0xF6.

Record t : Type := mk {
  xid : Z;
  k : Z
}.

Definition init (k xid : Z) : t := mk xid k.

Definition length (self : t) : Z := OFGMessage.SIZE + 4.

Definition pack (self : t) : result bytes :=
  hdr <- OFGMessage.pack (xid self);;
  body <- Struct.pack_uint 4 (k self);;
  OK (hdr ++ body).

Definition unpack (body : bytes) : result t :=
  xid <- Struct.unpack_uint 4 (upto 4 body);;
  let body := from 4 body in
  k <- Struct.unpack_uint 4 (upto 4 body);;
  OK (init k xid).

End ETSwitchesRequest.

(** ** ETSwitchFailureChange (type 0xF7) *)

Module ETSwitchFailureChange.

Definition get_type : Z := 0xF7.

Record t : Type := mk {
  xid : Z;
  dpid : Z;
  failed : bool
}.

Definition init (dpid : Z) (failed : bool) (xid : Z) : t := mk xid dpid failed.

Definition length (self : t) : Z := OFGMessage.SIZE + 8 + 1.

(** [struct.pack('> QB', self.dpid, (1 if self.failed else 0))]. *)
Definition pack (self : t) : result bytes :=
  hdr <- OFGMessage.pack (xid self);;
  b0 <- Struct.pack_uint 8 (dpid self);;
  b1 <- Struct.pack_uint 1 (if failed self then 1 else 0);;
  OK (hdr ++ b0 ++ b1).

Definition unpack (body : bytes) : result t :=
  xid <- Struct.unpack_uint 4 (upto 4 body);;
  let body := from 4 body in
  dpid <- Struct.unpack_uint 8 (upto 8 body);;
  let body := from 8 body in
  failed <- Struct.unpack_uint 1 (upto 1 body);;
  OK (init dpid (if failed =? 1 then true else false) xid).

End ETSwitchFailureChange.

(** ** ETComputationDone (type 0xFF) *)

Module ETComputationDone.

Definition get_type : Z := 0xFF.

Record t : Type := mk {
  xid : Z;
  num_unplaced_flows : Z
}.

Definition init (num_unplaced_flows xid : Z) : t := mk xid num_unplaced_flows.

Definition length (self : t) : Z := OFGMessage.SIZE + 4.

Definition pack (self : t) : result bytes :=
  body <- Struct.pack_uint 4 (num_unplaced_flows self);;
  hdr <- OFGMessage.pack (xid self);;
  OK (hdr ++ body).

(** The last line is [return ETPowerUsage(num_unplaced_flows, xid)]. *)
Definition unpack (body : bytes) : result ETPowerUsage.t :=
  xid <- Struct.unpack_uint 4 (upto 4 body);;
  let body := from 4 body in
  num_unplaced_flows <- Struct.unpack_uint 4 (upto 4 body);;
  OK (ETPowerUsage.init num_unplaced_flows xid None 0).

End ETComputationDone.

(** ** ETLinkUtil: a [Link] with a utilization *)

Module ETLinkUtil.
Section WithLink.
Context {L : LinkClass}.

Definition SIZE : nat := Link_SIZE + 4.

(** An [ETLinkUtil] is a [Link] (the part [Link.__init__] fills from
    [link_type], [src_node], [src_port], [dst_node], [dst_port]) with one
    more attribute. *)
Record t : Type := mk {
  link : Link;
  util : float
}.

Definition init (link : Link) (util : float) : t := mk link util.

Definition pack (self : t) : result bytes :=
  l <- Link_pack (link self);;
  f <- Struct.pack_f (util self);;
  OK (l ++ f).

(** [unpack] reads the link type and then calls [Node.unpack]; the module
    imports [dpidstr], [OFGMessage], [OFG_MESSAGES], [Link], [NodesList] and
    [run_ofg_server] from the base layer and never binds [Node]. *)
Definition unpack (buf : bytes) : result t :=
  link_type <- Struct.unpack_uint 2 (upto 2 buf);;
  Raise NameError.

End WithLink.
End ETLinkUtil.

(** ** ETLinkUtils (type 0xF1) *)

Module ETLinkUtils.
Section WithLink.
Context {L : LinkClass}.

Definition get_type : Z := 0xF1.

(** [utils] is an untyped Python list: a sender fills it with [ETLinkUtil]
    objects, [unpack] with what [Link.unpack] returns. *)
Inductive item : Type :=
| a_Link (l : Link)
| a_ETLinkUtil (u : ETLinkUtil.t).

Record t : Type := mk {
  xid : Z;
  utils : list item
}.

Definition init (utils : list item) (xid : Z) : t := mk xid utils.

(** [OFGMessage.SIZE + self.utils * ETLinkUtil.SIZE], with [self.utils] the
    list itself. *)
Definition length (self : t) : result (value item) :=
  p <- mul (List_ (utils self)) (Int (Z.of_nat ETLinkUtil.SIZE));;
  add (Int OFGMessage.SIZE) p.

(** [util.pack()], by the class of the item. *)
Definition item_pack (u : item) : result bytes :=
  match u with
  | a_Link l => Link_pack l
  | a_ETLinkUtil u => ETLinkUtil.pack u
  end.

(** [''.join([util.pack() for util in self.utils])]. *)
Fixpoint join_packed (us : list item) : result bytes :=
  match us with
  | [] => OK []
  | u :: us' =>
      b <- item_pack u;;
      r <- join_packed us';;
      OK (b ++ r)
  end.

Definition pack (self : t) : result bytes :=
  hdr <- OFGMessage.pack (xid self);;
  body <- join_packed (utils self);;
  OK (hdr ++ body).

(** The [for _ in range(num_utils)] loop. *)
Fixpoint unpack_loop (num_utils : nat) (body : bytes) (utils : list item)
    : result (list item) :=
  match num_utils with
  | O => OK utils
  | S n =>
      l <- Link_unpack (upto ETLinkUtil.SIZE body);;
      unpack_loop n (from ETLinkUtil.SIZE body) (utils ++ [a_Link l])
  end.

Definition unpack (body : bytes) : result t :=
  xid <- Struct.unpack_uint 4 (upto 4 body);;
  let body := from 4 body in
  let num_utils := Nat.div (List.length body) ETLinkUtil.SIZE in
  utils <- unpack_loop num_utils body [];;
  OK (init utils xid).

End WithLink.
End ETLinkUtils.

(** ** ETLinkFailureChange (type 0xF8) *)

Module ETLinkFailureChange.
Section WithLink.
Context {L : LinkClass}.

Definition get_type : Z := 0xF8.

Record t : Type := mk {
  xid : Z;
  link : Link;
  failed : bool
}.

Definition init (link : Link) (failed : bool) (xid : Z) : t := mk xid link failed.

Definition length (self : t) : Z := OFGMessage.SIZE + Z.of_nat Link_SIZE + 1.

Definition pack (self : t) : result bytes :=
  hdr <- OFGMessage.pack (xid self);;
  l <- Link_pack (link self);;
  b <- Struct.pack_uint 1 (if failed self then 1 else 0);;
  OK (hdr ++ l ++ b).

Definition unpack (body : bytes) : result t :=
  xid <- Struct.unpack_uint 4 (upto 4 body);;
  let body := from 4 body in
  link <- Link_unpack (upto Link_SIZE body);;
  let body := from Link_SIZE body in
  failed <- Struct.unpack_uint 1 (upto 1 body);;
  OK (init link (if failed =? 1 then true else false) xid).

End WithLink.
End ETLinkFailureChange.

(** ** The message classes together: [ET_MESSAGES] and decoding by type *)

Section Protocol.
Context {L : LinkClass}.

(** An instance of one of the classes of the module. *)
Inductive message : Type :=
| TrafficMatrix (m : ETTrafficMatrix.t)
| LinkUtils (m : ETLinkUtils.t)
| PowerUsage (m : ETPowerUsage.t)
| Bandwidth (m : ETBandwidth.t)
| Latency (m : ETLatency.t)
| SwitchesRequest (m : ETSwitchesRequest.t)
| SwitchFailureChange (m : ETSwitchFailureChange.t)
| LinkFailureChange (m : ETLinkFailureChange.t)
| ComputationDone (m : ETComputationDone.t).

(** The classes appended to [ET_MESSAGES] whose codec is defined in this
    module ([ETSwitchesOff] inherits the whole codec of the base layer's
    [NodesList]). *)
Inductive class : Type :=
| ETTrafficMatrix_
| ETLinkUtils_
| ETPowerUsage_
| ETBandwidth_
| ETLatency_
| ETSwitchesRequest_
| ETSwitchFailureChange_
| ETLinkFailureChange_
| ETComputationDone_.

Definition ET_MESSAGES : list class :=
  [ETTrafficMatrix_; ETLinkUtils_; ETPowerUsage_; ETBandwidth_; ETLatency_;
   ETSwitchesRequest_; ETSwitchFailureChange_; ETLinkFailureChange_;
   ETComputationDone_].

Definition get_type (c : class) : Z :=
  match c with
  | ETTrafficMatrix_ => ETTrafficMatrix.get_type
  | ETLinkUtils_ => ETLinkUtils.get_type
  | ETPowerUsage_ => ETPowerUsage.get_type
  | ETBandwidth_ => ETBandwidth.get_type
  | ETLatency_ => ETLatency.get_type
  | ETSwitchesRequest_ => ETSwitchesRequest.get_type
  | ETSwitchFailureChange_ => ETSwitchFailureChange.get_type
  | ETLinkFailureChange_ => ETLinkFailureChange.get_type
  | ETComputationDone_ => ETComputationDone.get_type
  end.

(** The class an object is an instance of. *)
Definition class_of (m : message) : class :=
  match m with
  | TrafficMatrix _ => ETTrafficMatrix_
  | LinkUtils _ => ETLinkUtils_
  | PowerUsage _ => ETPowerUsage_
  | Bandwidth _ => ETBandwidth_
  | Latency _ => ETLatency_
  | SwitchesRequest _ => ETSwitchesRequest_
  | SwitchFailureChange _ => ETSwitchFailureChange_
  | LinkFailureChange _ => ETLinkFailureChange_
  | ComputationDone _ => ETComputationDone_
  end.

Definition fmap {A B : Type} (f : A -> B) (r : result A) : result B :=
  x <- r;; OK (f x).

(** [c.unpack(body)], the static method of class [c]. *)
Definition unpack (c : class) (body : bytes) : result message :=
  match c with
  | ETTrafficMatrix_ => fmap TrafficMatrix (ETTrafficMatrix.unpack body)
  | ETLinkUtils_ => fmap LinkUtils (ETLinkUtils.unpack body)
  | ETPowerUsage_ => fmap PowerUsage (ETPowerUsage.unpack body)
  | ETBandwidth_ => fmap PowerUsage (ETBandwidth.unpack body)
  | ETLatency_ => fmap Latency (ETLatency.unpack body)
  | ETSwitchesRequest_ => fmap SwitchesRequest (ETSwitchesRequest.unpack body)
  | ETSwitchFailureChange_ =>
      fmap SwitchFailureChange (ETSwitchFailureChange.unpack body)
  | ETLinkFailureChange_ =>
      fmap LinkFailureChange (ETLinkFailureChange.unpack body)
  | ETComputationDone_ => fmap PowerUsage (ETComputationDone.unpack body)
  end.

(** [m.pack()]. *)
Definition pack (m : message) : result bytes :=
  match m with
  | TrafficMatrix m => ETTrafficMatrix.pack m
  | LinkUtils m => ETLinkUtils.pack m
  | PowerUsage m => ETPowerUsage.pack m
  | Bandwidth m => ETBandwidth.pack m
  | Latency m => ETLatency.pack m
  | SwitchesRequest m => ETSwitchesRequest.pack m
  | SwitchFailureChange m => ETSwitchFailureChange.pack m
  | LinkFailureChange m => ETLinkFailureChange.pack m
  | ComputationDone m => ETComputationDone.pack m
  end.

(** [m.length()]. *)
Definition length (m : message) : result (value ETLinkUtils.item) :=
  match m with
  | TrafficMatrix m => OK (Int (ETTrafficMatrix.length m))
  | LinkUtils m => ETLinkUtils.length m
  | PowerUsage m => OK (Int (ETPowerUsage.length m))
  | Bandwidth m => OK (Int (ETBandwidth.length m))
  | Latency m => OK (Int (ETLatency.length m))
  | SwitchesRequest m => OK (Int (ETSwitchesRequest.length m))
  | SwitchFailureChange m => OK (Int (ETSwitchFailureChange.length m))
  | LinkFailureChange m => OK (Int (ETLinkFailureChange.length m))
  | ComputationDone m => OK (Int (ETComputationDone.length m))
  end.

(** Modelled from the spec: the registry of the framing layer
    ([LTProtocol], outside this module), which finds the codec of a frame by
    its type code among the registered classes. *)
Definition lookup (type_code : Z) : option class :=
  find (fun c => get_type c =? type_code) ET_MESSAGES.

(** Modelled from the spec: the dispatch of the framing layer, which hands
    the body of a frame to the [unpack] of the class found for its type
    code; [None] is an unknown type code. *)
Definition decode (type_code : Z) (body : bytes) : option (result message) :=
  option_map (fun c => unpack c body) (lookup type_code).

End Protocol.

(** ** A base layer to run the codecs on *)

Module BaseLink.

(** Modelled from the spec: the base layer's topology node, which is not
    part of this module: a fixed-size binary record identifying a switch,
    taken here as a 2-byte node type followed by an 8-byte id. *)
Record Node : Type := mkNode {
  node_type : Z;
  id : Z
}.

(** Modelled from the spec: [Node.SIZE], the fixed size of that record. *)
Definition Node_SIZE : nat := 10.

(** Modelled from the spec: [Node.pack], the two fields in order. *)
Definition Node_pack (n : Node) : result bytes :=
  b0 <- Struct.pack_uint 2 (node_type n);;
  b1 <- Struct.pack_uint 8 (id n);;
  OK (b0 ++ b1).

(** Modelled from the spec: [Node.unpack], which reads them back. *)
Definition Node_unpack (buf : bytes) : result Node :=
  t <- Struct.unpack_uint 2 (upto 2 buf);;
  i <- Struct.unpack_uint 8 (upto 8 (from 2 buf));;
  OK (mkNode t i).

(** Modelled from the spec: the base layer's point-to-point link, which is
    not part of this module: a fixed-size record of a link type, a source
    node and port and a destination node and port, in the order in which
    [ETLinkUtil.unpack] reads them. *)
Record t : Type := mk {
  link_type : Z;
  src_node : Node;
  src_port : Z;
  dst_node : Node;
  dst_port : Z
}.

(** Modelled from the spec: [Link.SIZE], a 2-byte link type and, for each
    end, a node and a 2-byte port. *)
Definition SIZE : nat := 2 + 2 * (Node_SIZE + 2).

(** Modelled from the spec: [Link.pack], the five fields in order. *)
Definition pack (self : t) : result bytes :=
  b0 <- Struct.pack_uint 2 (link_type self);;
  b1 <- Node_pack (src_node self);;
  b2 <- Struct.pack_uint 2 (src_port self);;
  b3 <- Node_pack (dst_node self);;
  b4 <- Struct.pack_uint 2 (dst_port self);;
  OK (b0 ++ b1 ++ b2 ++ b3 ++ b4).

(** Modelled from the spec: [Link.unpack], which reads the five fields the
    way [ETLinkUtil.unpack] does and ignores what follows them. *)
Definition unpack (buf : bytes) : result t :=
  link_type <- Struct.unpack_uint 2 (upto 2 buf);;
  let buf := from 2 buf in
  src_node <- Node_unpack (upto Node_SIZE buf);;
  let buf := from Node_SIZE buf in
  src_port <- Struct.unpack_uint 2 (upto 2 buf);;
  let buf := from 2 buf in
  dst_node <- Node_unpack (upto Node_SIZE buf);;
  let buf := from Node_SIZE buf in
  dst_port <- Struct.unpack_uint 2 (upto 2 buf);;
  OK (mk link_type src_node src_port dst_node dst_port).

#[export] Instance link_class : LinkClass := {
  Link := t;
  Link_SIZE := SIZE;
  Link_pack := pack;
  Link_unpack := unpack
}.

End BaseLink.

(** ** Properties the claims are stated with *)

(** [x] lies in the closed interval from 0.0 to 1.0. *)
Definition in_unit (x : float) : bool :=
  PrimFloat.leb 0 x && PrimFloat.leb x 1.

(** [x] is below 0.0 or above 1.0. *)
Definition outside_unit (x : float) : bool :=
  PrimFloat.ltb x 0 || PrimFloat.ltb 1 x.

(** The number of bytes a class with a fixed layout writes after the length
    and type prefix: the value its [length] method returns. *)
Definition fixed_layout {L : LinkClass} (c : class) : option Z :=
  match c with
  | ETTrafficMatrix_ => Some (OFGMessage.SIZE + 23)
  | ETLinkUtils_ => None
  | ETPowerUsage_ => Some (OFGMessage.SIZE + 12)
  | ETBandwidth_ => Some (OFGMessage.SIZE + 4)
  | ETLatency_ => Some (OFGMessage.SIZE + 12)
  | ETSwitchesRequest_ => Some (OFGMessage.SIZE + 4)
  | ETSwitchFailureChange_ => Some (OFGMessage.SIZE + 8 + 1)
  | ETLinkFailureChange_ => Some (OFGMessage.SIZE + Z.of_nat Link_SIZE + 1)
  | ETComputationDone_ => Some (OFGMessage.SIZE + 4)
  end.

(** What the decoders need of the base layer: [Link.unpack] raises on a
    buffer that is shorter than a link record. *)
Definition Link_unpack_needs_SIZE {L : LinkClass} : Prop :=
  forall buf : bytes, (List.length buf < Link_SIZE)%nat -> raises (Link_unpack buf).

(** The fields of a message fit their wire types, so that [pack] can write
    them. *)
Definition u8 (z : Z) : Prop := 0 <= z < 2 ^ 8.
Definition u32 (z : Z) : Prop := 0 <= z < 2 ^ 32.
Definition u64 (z : Z) : Prop := 0 <= z < 2 ^ 64.

(** ** Doubles as numbers

    The float specification gives a finite double as a sign, a mantissa and
    an exponent.  To follow a sum or a difference through its rounding, the
    proofs read a non-negative double as a whole number of units of
    2^-1074, the smallest positive double. *)

Module Binary64.

(** The exponent of the last place of a binary64 number with [x] bits before
    the binary point. *)
Definition fexp64 (x : Z) : Z := Z.max (x - 53) (-1074).

(** The value of the non-negative double with mantissa [m] and exponent
    [e], in units of 2^-1074. *)
Definition V (m : positive) (e : Z) : Z := Z.pos m * 2 ^ (e + 1074).

(** Where a remainder [rho] lies in an interval of width [2 ^ n]. *)
Definition loc_of (rho n : Z) : location :=
  if rho =? 0 then loc_Exact else loc_Inexact (2 * rho ?= 2 ^ n).

(** What the record of a right shift holds after [k] bits of [N] have been
    shifted out. *)
Record shr_inv (N k : Z) (r : shr_record) : Prop := {
  inv_m : shr_m r = N / 2 ^ k;
  inv_loc : loc_of_shr_record r = loc_of (N mod 2 ^ k) k;
  inv_s : (shr_r r || shr_s r) = negb (N mod 2 ^ k =? 0)
}.

(** The double with mantissa [m] and exponent [e], or infinity when the
    exponent is too large. *)
Definition fin_or_inf (m e : Z) : spec_float :=
  if e <=? 971 then S754_finite false (Z.to_pos m) e else S754_infinity false.

(** The same after a carry out of the 53 bits of the mantissa. *)
Definition renorm (m e : Z) : spec_float :=
  if m =? 2 ^ 53 then fin_or_inf (2 ^ 52) (e + 1) else fin_or_inf m e.

(** A zero, or a finite positive double that is 1.0 at most. *)
Definition unit_interval (X : spec_float) : Prop :=
  (exists s, X = S754_zero s)
  \/ exists m e, X = S754_finite false m e
                 /\ bounded prec emax m e = true /\ V m e <= 2 ^ 1074.

End Binary64.

(** ** What the further properties are stated with *)

(** The classes whose fields are all unsigned integers. *)
Definition int_only (c : class) : bool :=
  match c with
  | ETPowerUsage_ | ETBandwidth_ | ETLatency_ | ETSwitchesRequest_
  | ETSwitchFailureChange_ | ETComputationDone_ => true
  | ETTrafficMatrix_ | ETLinkUtils_ | ETLinkFailureChange_ => false
  end.

(** Every integer field of a message fits the wire field [pack] writes it
    to. *)
Definition ints_fit {L : LinkClass} (m : message) : Prop :=
  match m with
  | TrafficMatrix m =>
      u32 (ETTrafficMatrix.xid m) /\ u8 (ETTrafficMatrix.solver m)
      /\ u32 (ETTrafficMatrix.k m) /\ u32 (ETTrafficMatrix.plen m)
  | LinkUtils m => u32 (ETLinkUtils.xid m)
  | PowerUsage m =>
      u32 (ETPowerUsage.xid m) /\ u32 (ETPowerUsage.watts_current m)
      /\ u32 (ETPowerUsage.watts_traditional m) /\ u32 (ETPowerUsage.watts_max m)
  | Bandwidth m =>
      u32 (ETBandwidth.xid m) /\ u32 (ETBandwidth.bandwidth_achieved_mbps m)
  | Latency m =>
      u32 (ETLatency.xid m) /\ u32 (ETLatency.latency_ms_edge m)
      /\ u32 (ETLatency.latency_ms_agg m) /\ u32 (ETLatency.latency_ms_core m)
  | SwitchesRequest m =>
      u32 (ETSwitchesRequest.xid m) /\ u32 (ETSwitchesRequest.k m)
  | SwitchFailureChange m =>
      u32 (ETSwitchFailureChange.xid m) /\ u64 (ETSwitchFailureChange.dpid m)
  | LinkFailureChange m => u32 (ETLinkFailureChange.xid m)
  | ComputationDone m =>
      u32 (ETComputationDone.xid m) /\ u32 (ETComputationDone.num_unplaced_flows m)
  end.

(** What the codecs that carry a link need of the base layer: [Link.pack]
    writes [Link.SIZE] bytes, and [Link.unpack] reads a link back from the
    bytes [Link.pack] wrote, whatever follows them. *)
Definition Link_pack_has_SIZE {L : LinkClass} : Prop :=
  forall (l : Link) (s : bytes), Link_pack l = OK s -> List.length s = Link_SIZE.

Definition Link_unpack_inverts_pack {L : LinkClass} : Prop :=
  forall (l : Link) (s rest : bytes),
    Link_pack l = OK s -> Link_unpack (s ++ rest) = OK l.

(** The link an item of a link utilization list is about. *)
Definition link_of {L : LinkClass} (u : ETLinkUtils.item) : Link :=
  match u with
  | ETLinkUtils.a_Link l => l
  | ETLinkUtils.a_ETLinkUtil u => ETLinkUtil.link u
  end.

Definition is_ETLinkUtil {L : LinkClass} (u : ETLinkUtils.item) : Prop :=
  match u with
  | ETLinkUtils.a_Link _ => False
  | ETLinkUtils.a_ETLinkUtil _ => True
  end.

(** [x == x]: [x] is a number, not a NaN. *)
Definition number (x : float) : bool := PrimFloat.eqb x x.

(** [x] goes through the ['f'] field unchanged: it is a binary32 value. *)
Definition single_exact (x : float) : Prop :=
  exists s, Struct.pack_f x = OK s /\ Struct.unpack_f s = OK x.

(** [ETTrafficMatrix(m.use_hw, m.solver, ..., m.plen, m.xid)]: the
    constructor run again on the fields of a message, as [unpack] runs it on
    the fields it read. *)
Definition reconstruct (m : ETTrafficMatrix.t) : result ETTrafficMatrix.t :=
  ETTrafficMatrix.init
    (int_of_bool (ETTrafficMatrix.use_hw m)) (ETTrafficMatrix.solver m)
    (int_of_bool (ETTrafficMatrix.may_split_flows m)) (ETTrafficMatrix.k m)
    (ETTrafficMatrix.demand m) (ETTrafficMatrix.edge m) (ETTrafficMatrix.agg m)
    (ETTrafficMatrix.plen m) (ETTrafficMatrix.xid m).

(** ** The [struct] codec: sizes and round trips *)

Module StructFacts.
Import Struct.

Lemma Z_of_byte_range (b : byte) : 0 <= Z_of_byte b < 256.
Proof.
  unfold Z_of_byte. pose proof (Byte.to_N_bounded b). lia.
Qed.

Lemma Z_of_byte_of_Z (z : Z) : Z_of_byte (byte_of_Z z) = z mod 256.
Proof.
  unfold Z_of_byte, byte_of_Z.
  assert (Hr : 0 <= z mod 256 < 256) by (apply Z.mod_pos_bound; lia).
  destruct (Byte.of_N (Z.to_N (z mod 256))) as [b|] eqn:E.
  - apply Byte.to_of_N in E. rewrite E. rewrite Z2N.id; lia.
  - apply Byte.of_N_None_iff in E. lia.
Qed.

Lemma byte_of_Z_of_byte (b : byte) : byte_of_Z (Z_of_byte b) = b.
Proof.
  unfold byte_of_Z. rewrite Z.mod_small by apply Z_of_byte_range.
  unfold Z_of_byte. rewrite N2Z.id, Byte.of_to_N. reflexivity.
Qed.

Lemma be_bytes_length (n : nat) (v : Z) : List.length (be_bytes n v) = n.
Proof.
  induction n as [|n IH]; simpl; [reflexivity | now rewrite IH].
Qed.

Lemma fold_be_bytes (n : nat) (v acc : Z) :
  fold_left (fun a b => a * 256 + Z_of_byte b) (be_bytes n v) acc
  = acc * 256 ^ Z.of_nat n + v mod 256 ^ Z.of_nat n.
Proof.
  revert acc. induction n as [|n IH]; intro acc.
  - simpl. rewrite Z.mod_1_r. lia.
  - cbn [be_bytes fold_left]. rewrite IH, Z_of_byte_of_Z.
    rewrite Nat2Z.inj_succ, Z.pow_succ_r by lia.
    assert (Hp : 0 < 256 ^ Z.of_nat n) by (apply Z.pow_pos_nonneg; lia).
    rewrite (Z.mul_comm 256 (256 ^ Z.of_nat n)).
    rewrite (Z.rem_mul_r v (256 ^ Z.of_nat n) 256) by lia.
    lia.
Qed.

Lemma be_int_be_bytes (n : nat) (v : Z) :
  0 <= v < 256 ^ Z.of_nat n -> be_int (be_bytes n v) = v.
Proof.
  intro H. unfold be_int. rewrite fold_be_bytes, Z.mod_small by assumption. lia.
Qed.

Lemma pack_uint_ok (n : nat) (v : Z) :
  0 <= v < 256 ^ Z.of_nat n -> pack_uint n v = OK (be_bytes n v).
Proof.
  intro H. unfold pack_uint.
  replace (0 <=? v) with true by (symmetry; apply Z.leb_le; lia).
  replace (v <? 256 ^ Z.of_nat n) with true by (symmetry; apply Z.ltb_lt; lia).
  reflexivity.
Qed.

Lemma pack_uint_length (n : nat) (v : Z) (s : bytes) :
  pack_uint n v = OK s -> List.length s = n.
Proof.
  unfold pack_uint. destruct (_ && _); [|discriminate].
  intro H. injection H as <-. apply be_bytes_length.
Qed.

Lemma pack_f_length (x : float) (s : bytes) :
  pack_f x = OK s -> List.length s = 4%nat.
Proof.
  unfold pack_f. destruct (_ && _); [discriminate|].
  intro H. assert (E : s = be_bytes 4 (bits_of_single (to_single (Prim2SF x))))
    by congruence.
  rewrite E. apply be_bytes_length.
Qed.

Lemma unpack_uint_exact (n : nat) (s : bytes) :
  List.length s = n -> unpack_uint n s = OK (be_int s).
Proof.
  intro H. unfold unpack_uint. now rewrite H, Nat.eqb_refl.
Qed.

Lemma unpack_uint_be_bytes (n : nat) (v : Z) :
  0 <= v < 256 ^ Z.of_nat n -> unpack_uint n (be_bytes n v) = OK v.
Proof.
  intro H. rewrite unpack_uint_exact by apply be_bytes_length.
  now rewrite be_int_be_bytes.
Qed.

(** A slice of a string that is too short is shorter than the field, and
    [struct.unpack] refuses it. *)
Lemma unpack_uint_short (n : nat) (s : bytes) :
  (List.length s < n)%nat -> unpack_uint n (upto n s) = Raise struct_error.
Proof.
  intro H. unfold unpack_uint, upto.
  rewrite length_firstn, Nat.min_r by lia.
  destruct (Nat.eqb_spec (List.length s) n); [lia | reflexivity].
Qed.

Lemma upto_app (n : nat) (a b : bytes) :
  List.length a = n -> upto n (a ++ b) = a.
Proof.
  intros <-. unfold upto. rewrite firstn_app, Nat.sub_diag, firstn_all. simpl.
  apply app_nil_r.
Qed.

Lemma from_app (n : nat) (a b : bytes) :
  List.length a = n -> from n (a ++ b) = b.
Proof.
  intros <-. unfold from. rewrite skipn_app, Nat.sub_diag, skipn_all. reflexivity.
Qed.

Lemma upto_all (n : nat) (a : bytes) :
  List.length a = n -> upto n a = a.
Proof.
  intros <-. apply firstn_all.
Qed.

End StructFacts.

(** ** Integer fields and fixed layouts *)

Module IntFacts.
Import Struct StructFacts.

Lemma pack_u8 (v : Z) : u8 v -> pack_uint 1 v = OK (be_bytes 1 v).
Proof. intro H. apply pack_uint_ok. exact H. Qed.

Lemma pack_u32 (v : Z) : u32 v -> pack_uint 4 v = OK (be_bytes 4 v).
Proof. intro H. apply pack_uint_ok. exact H. Qed.

Lemma pack_u64 (v : Z) : u64 v -> pack_uint 8 v = OK (be_bytes 8 v).
Proof. intro H. apply pack_uint_ok. exact H. Qed.

Lemma unpack_u8 (v : Z) : u8 v -> unpack_uint 1 (be_bytes 1 v) = OK v.
Proof. intro H. apply unpack_uint_be_bytes. exact H. Qed.

Lemma unpack_u32 (v : Z) : u32 v -> unpack_uint 4 (be_bytes 4 v) = OK v.
Proof. intro H. apply unpack_uint_be_bytes. exact H. Qed.

Lemma unpack_u64 (v : Z) : u64 v -> unpack_uint 8 (be_bytes 8 v) = OK v.
Proof. intro H. apply unpack_uint_be_bytes. exact H. Qed.

Lemma u8_flag (b : bool) : u8 (if b then 1 else 0).
Proof. destruct b; unfold u8; lia. Qed.

(** Reading the next field off the front of a string made of packed
    fields. *)
Lemma upto_field (n : nat) (v : Z) (rest : bytes) :
  upto n (be_bytes n v ++ rest) = be_bytes n v.
Proof. apply upto_app, be_bytes_length. Qed.

Lemma from_field (n : nat) (v : Z) (rest : bytes) :
  from n (be_bytes n v ++ rest) = rest.
Proof. apply from_app, be_bytes_length. Qed.

Lemma upto_last_field (n : nat) (v : Z) :
  upto n (be_bytes n v) = be_bytes n v.
Proof. apply upto_all, be_bytes_length. Qed.

End IntFacts.

Create Rewrite HintDb fields.
#[local] Hint Rewrite IntFacts.upto_field IntFacts.from_field
  IntFacts.upto_last_field : fields.

(** [pack] then [unpack], class by class, for the classes whose [unpack]
    builds an instance of its own class. *)
Module RoundTrip.
Import Struct StructFacts IntFacts.

(** Simplify record projections and binds, leaving the packed fields
    folded. *)
Ltac keep_fields := cbn -[be_bytes pack_uint unpack_uint Z.pow].

Lemma ETPowerUsage_pack (m : ETPowerUsage.t) :
  u32 (ETPowerUsage.xid m) -> u32 (ETPowerUsage.watts_current m) ->
  u32 (ETPowerUsage.watts_traditional m) -> u32 (ETPowerUsage.watts_max m) ->
  ETPowerUsage.pack m
  = OK (be_bytes 4 (ETPowerUsage.xid m) ++ be_bytes 4 (ETPowerUsage.watts_current m)
        ++ be_bytes 4 (ETPowerUsage.watts_traditional m)
        ++ be_bytes 4 (ETPowerUsage.watts_max m)).
Proof.
  intros Hx Hc Ht Hm. unfold ETPowerUsage.pack, OFGMessage.pack.
  rewrite (pack_u32 _ Hx), (pack_u32 _ Hc), (pack_u32 _ Ht), (pack_u32 _ Hm).
  reflexivity.
Qed.

Lemma ETPowerUsage_unpack (x c t m : Z) :
  u32 x -> u32 c -> u32 t -> u32 m ->
  ETPowerUsage.unpack (be_bytes 4 x ++ be_bytes 4 c ++ be_bytes 4 t ++ be_bytes 4 m)
  = OK (ETPowerUsage.mk x c t m).
Proof.
  intros Hx Hc Ht Hm. unfold ETPowerUsage.unpack.
  autorewrite with fields.
  rewrite (unpack_u32 _ Hx), (unpack_u32 _ Hc), (unpack_u32 _ Ht), (unpack_u32 _ Hm).
  reflexivity.
Qed.

(** X2: an [ETLatency] whose xid and three latencies fit 32 bits packs, and
    unpacking the bytes returns the same message. *)
Lemma ETLatency_roundtrip (m : ETLatency.t) :
  u32 (ETLatency.xid m) -> u32 (ETLatency.latency_ms_edge m) ->
  u32 (ETLatency.latency_ms_agg m) -> u32 (ETLatency.latency_ms_core m) ->
  exists s, ETLatency.pack m = OK s /\ ETLatency.unpack s = OK m.
Proof.
  destruct m as [x e a c]; keep_fields. intros Hx He Ha Hc.
  unfold ETLatency.pack, OFGMessage.pack; keep_fields.
  rewrite (pack_u32 _ Hx), (pack_u32 _ He), (pack_u32 _ Ha), (pack_u32 _ Hc).
  keep_fields. eexists; split; [reflexivity|].
  unfold ETLatency.unpack. autorewrite with fields.
  rewrite (unpack_u32 _ Hx), (unpack_u32 _ He), (unpack_u32 _ Ha), (unpack_u32 _ Hc).
  reflexivity.
Qed.

(** X3: an [ETSwitchesRequest] whose xid and [k] fit 32 bits packs, and
    unpacking the bytes returns the same message. *)
Lemma ETSwitchesRequest_roundtrip (m : ETSwitchesRequest.t) :
  u32 (ETSwitchesRequest.xid m) -> u32 (ETSwitchesRequest.k m) ->
  exists s, ETSwitchesRequest.pack m = OK s /\ ETSwitchesRequest.unpack s = OK m.
Proof.
  destruct m as [x k]; keep_fields. intros Hx Hk.
  unfold ETSwitchesRequest.pack, OFGMessage.pack; keep_fields.
  rewrite (pack_u32 _ Hx), (pack_u32 _ Hk). keep_fields.
  eexists; split; [reflexivity|].
  unfold ETSwitchesRequest.unpack. autorewrite with fields.
  rewrite (unpack_u32 _ Hx), (unpack_u32 _ Hk). reflexivity.
Qed.

Lemma ETSwitchFailureChange_pack (m : ETSwitchFailureChange.t) :
  u32 (ETSwitchFailureChange.xid m) -> u64 (ETSwitchFailureChange.dpid m) ->
  ETSwitchFailureChange.pack m
  = OK (be_bytes 4 (ETSwitchFailureChange.xid m)
        ++ be_bytes 8 (ETSwitchFailureChange.dpid m)
        ++ be_bytes 1 (if ETSwitchFailureChange.failed m then 1 else 0)).
Proof.
  intros Hx Hd. unfold ETSwitchFailureChange.pack, OFGMessage.pack.
  rewrite (pack_u32 _ Hx), (pack_u64 _ Hd), (pack_u8 _ (u8_flag _)).
  reflexivity.
Qed.

Lemma ETSwitchFailureChange_unpack (x d f : Z) :
  u32 x -> u64 d -> u8 f ->
  ETSwitchFailureChange.unpack (be_bytes 4 x ++ be_bytes 8 d ++ be_bytes 1 f)
  = OK (ETSwitchFailureChange.mk x d (f =? 1)).
Proof.
  intros Hx Hd Hf. unfold ETSwitchFailureChange.unpack.
  autorewrite with fields.
  rewrite (unpack_u32 _ Hx), (unpack_u64 _ Hd), (unpack_u8 _ Hf). keep_fields.
  unfold ETSwitchFailureChange.init. now destruct (f =? 1).
Qed.

Lemma ETSwitchFailureChange_roundtrip (m : ETSwitchFailureChange.t) :
  u32 (ETSwitchFailureChange.xid m) -> u64 (ETSwitchFailureChange.dpid m) ->
  exists s, ETSwitchFailureChange.pack m = OK s
            /\ ETSwitchFailureChange.unpack s = OK m.
Proof.
  intros Hx Hd. rewrite (ETSwitchFailureChange_pack m Hx Hd).
  eexists; split; [reflexivity|].
  rewrite (ETSwitchFailureChange_unpack _ _ _ Hx Hd (u8_flag _)).
  destruct m as [x d f]; keep_fields. now destruct f.
Qed.

End RoundTrip.

(** ** ETSwitchFailureChange: the datapath id *)

(** C7: for every unsigned 64-bit integer [d], from 0 to 2^64 - 1, packing
    an [ETSwitchFailureChange] whose [dpid] is [d] succeeds, and unpacking
    the bytes it wrote yields a message whose [dpid] is [d] exactly. *)
Theorem dpid_roundtrip (d : Z) (failed : bool) (xid : Z) :
  u64 d -> u32 xid ->
  exists s m,
    ETSwitchFailureChange.pack (ETSwitchFailureChange.init d failed xid) = OK s
    /\ ETSwitchFailureChange.unpack s = OK m
    /\ ETSwitchFailureChange.dpid m = d.
Proof.
  intros Hd Hx.
  destruct (RoundTrip.ETSwitchFailureChange_roundtrip
              (ETSwitchFailureChange.init d failed xid) Hx Hd) as [s [Hp Hu]].
  exists s, (ETSwitchFailureChange.init d failed xid).
  repeat split; assumption.
Qed.

Lemma dpid_roundtrip_witness :
  u64 (2 ^ 64 - 1) /\ u32 0 /\
  exists s m,
    ETSwitchFailureChange.pack
      (ETSwitchFailureChange.init (2 ^ 64 - 1) true 0) = OK s
    /\ ETSwitchFailureChange.unpack s = OK m
    /\ ETSwitchFailureChange.dpid m = 2 ^ 64 - 1.
Proof.
  assert (Hd : u64 (2 ^ 64 - 1)) by (unfold u64; lia).
  assert (Hx : u32 0) by (unfold u32; lia).
  split; [exact Hd | split; [exact Hx |]].
  exact (dpid_roundtrip (2 ^ 64 - 1) true 0 Hd Hx).
Defined.

(** ** ETPowerUsage: the default of [watts_max] *)

(** C8: an [ETPowerUsage] built without an explicit [watts_max] has
    [watts_max] equal to [watts_traditional]; when its fields fit their
    32-bit wire fields, packing it succeeds and unpacking the bytes yields
    that message again, so the equality still holds after the round trip. *)
Theorem watts_max_defaults_to_traditional (watts_current watts_traditional xid : Z) :
  let m := ETPowerUsage.init watts_current watts_traditional None xid in
  ETPowerUsage.watts_max m = ETPowerUsage.watts_traditional m
  /\ (u32 watts_current -> u32 watts_traditional -> u32 xid ->
      exists s m',
        ETPowerUsage.pack m = OK s
        /\ ETPowerUsage.unpack s = OK m'
        /\ m' = m
        /\ ETPowerUsage.watts_max m' = ETPowerUsage.watts_traditional m').
Proof.
  intro m. split; [reflexivity|].
  intros Hc Ht Hx.
  exists (Struct.be_bytes 4 xid ++ Struct.be_bytes 4 watts_current
          ++ Struct.be_bytes 4 watts_traditional ++ Struct.be_bytes 4 watts_traditional), m.
  split; [exact (RoundTrip.ETPowerUsage_pack m Hx Hc Ht Ht)|].
  split; [exact (RoundTrip.ETPowerUsage_unpack _ _ _ _ Hx Hc Ht Ht)|].
  split; reflexivity.
Qed.

Lemma watts_max_defaults_to_traditional_witness :
  let m := ETPowerUsage.init 120 300 None 9 in
  ETPowerUsage.watts_max m = 300
  /\ u32 120 /\ u32 300 /\ u32 9
  /\ exists s m',
       ETPowerUsage.pack m = OK s
       /\ ETPowerUsage.unpack s = OK m'
       /\ m' = m
       /\ ETPowerUsage.watts_max m' = ETPowerUsage.watts_traditional m'.
Proof.
  assert (Hc : u32 120) by (unfold u32; lia).
  assert (Ht : u32 300) by (unfold u32; lia).
  assert (Hx : u32 9) by (unfold u32; lia).
  split; [exact (proj1 (watts_max_defaults_to_traditional 120 300 9)) |].
  split; [exact Hc | split; [exact Ht | split; [exact Hx |]]].
  exact (proj2 (watts_max_defaults_to_traditional 120 300 9) Hc Ht Hx).
Defined.

(** ** Truncated bodies *)

Module Truncation.
Import Struct StructFacts.

Lemma length_from (n : nat) (s : bytes) :
  List.length (from n s) = (List.length s - n)%nat.
Proof. apply length_skipn. Qed.

Lemma length_upto (n : nat) (s : bytes) :
  List.length (upto n s) = Nat.min n (List.length s).
Proof. apply length_firstn. Qed.

(** Reading an [n]-byte field from the front of [s] succeeds exactly when
    [s] has [n] bytes or more. *)
Lemma unpack_uint_upto (n : nat) (s : bytes) :
  unpack_uint n (upto n s)
  = if Nat.leb n (List.length s) then OK (be_int (upto n s)) else Raise struct_error.
Proof.
  unfold unpack_uint. rewrite length_upto.
  destruct (Nat.leb_spec n (List.length s)).
  - rewrite Nat.min_l by lia. now rewrite Nat.eqb_refl.
  - rewrite Nat.min_r by lia.
    destruct (Nat.eqb_spec (List.length s) n); [lia | reflexivity].
Qed.

Lemma raises_Raise {A : Type} (e : exn) : raises (@Raise A e).
Proof. now exists e. Qed.

Lemma raises_bind {A B : Type} (r : result A) (k : A -> result B) :
  raises r -> raises (bind r k).
Proof. intros [e ->]. now exists e. Qed.

Lemma raises_fmap {A B : Type} (f : A -> B) (r : result A) :
  raises r -> raises (fmap f r).
Proof. apply raises_bind. Qed.

(** Walk down a chain of field reads until the one that runs out of
    bytes. *)
Ltac run_out :=
  repeat (rewrite unpack_uint_upto || rewrite length_from);
  repeat match goal with
         | |- context [Nat.leb ?a ?b] =>
             destruct (Nat.leb_spec a b); [| cbn [bind]; try apply raises_Raise];
             cbn [bind]; try lia
         end.

Lemma ETTrafficMatrix_short (body : bytes) :
  (List.length body < 27)%nat -> raises (ETTrafficMatrix.unpack body).
Proof.
  intro H. unfold ETTrafficMatrix.unpack. rewrite unpack_uint_upto.
  destruct (Nat.leb_spec 4 (List.length body)); [| apply raises_Raise].
  cbn [bind]. apply raises_bind.
  unfold ETTrafficMatrix.unpack_body. rewrite length_upto, length_from.
  destruct (Nat.eqb_spec (Nat.min 23 (List.length body - 4)) 23); [lia |].
  apply raises_Raise.
Qed.

Lemma ETPowerUsage_short (body : bytes) :
  (List.length body < 16)%nat -> raises (ETPowerUsage.unpack body).
Proof. intro H. unfold ETPowerUsage.unpack. run_out. Qed.

Lemma ETBandwidth_short (body : bytes) :
  (List.length body < 8)%nat -> raises (ETBandwidth.unpack body).
Proof. intro H. unfold ETBandwidth.unpack. run_out. Qed.

Lemma ETLatency_short (body : bytes) :
  (List.length body < 16)%nat -> raises (ETLatency.unpack body).
Proof. intro H. unfold ETLatency.unpack. run_out. Qed.

Lemma ETSwitchesRequest_short (body : bytes) :
  (List.length body < 8)%nat -> raises (ETSwitchesRequest.unpack body).
Proof. intro H. unfold ETSwitchesRequest.unpack. run_out. Qed.

Lemma ETSwitchFailureChange_short (body : bytes) :
  (List.length body < 13)%nat -> raises (ETSwitchFailureChange.unpack body).
Proof. intro H. unfold ETSwitchFailureChange.unpack. run_out. Qed.

Lemma ETComputationDone_short (body : bytes) :
  (List.length body < 8)%nat -> raises (ETComputationDone.unpack body).
Proof. intro H. unfold ETComputationDone.unpack. run_out. Qed.

End Truncation.

Section TruncatedLink.
Context {L : LinkClass}.
Import Struct StructFacts Truncation.

Lemma ETLinkFailureChange_short (body : bytes) :
  Link_unpack_needs_SIZE ->
  (List.length body < 4 + Link_SIZE + 1)%nat ->
  raises (ETLinkFailureChange.unpack body).
Proof.
  intros HL H. unfold ETLinkFailureChange.unpack. rewrite unpack_uint_upto.
  destruct (Nat.leb_spec 4 (List.length body)); [| apply raises_Raise].
  cbn [bind].
  destruct (Nat.ltb_spec (List.length (from 4 body)) Link_SIZE) as [Hs | Hs].
  - apply raises_bind, HL. rewrite length_upto. lia.
  - destruct (Link_unpack (upto Link_SIZE (from 4 body))) as [l | e];
      [| apply raises_Raise].
    cbn [bind]. rewrite unpack_uint_upto, !length_from.
    rewrite length_from in Hs.
    destruct (Nat.leb_spec 1 (List.length body - 4 - Link_SIZE)); [lia |].
    apply raises_Raise.
Qed.

Lemma fixed_layout_is_length (m : message) (n : Z) :
  fixed_layout (class_of m) = Some n -> length m = OK (Int n).
Proof.
  destruct m; cbn; intro H; inversion H; reflexivity.
Qed.

(** C9: for every class with a fixed layout (traffic matrix, power usage,
    bandwidth, latency, switches request, switch failure change, link
    failure change, computation done), unpacking a body with fewer bytes
    than the layout has, also fewer than the four bytes of the xid, raises
    instead of returning a message.  The link failure change reads its link
    through the base layer's [Link.unpack], which is taken to raise on a
    buffer shorter than a link record. *)
Theorem truncated_body_raises (c : class) (n : Z) (body : bytes) :
  Link_unpack_needs_SIZE ->
  fixed_layout c = Some n ->
  Z.of_nat (List.length body) < n ->
  raises (unpack c body).
Proof.
  intros HL Hc Hn.
  destruct c; unfold fixed_layout, OFGMessage.SIZE in Hc; try discriminate;
    match type of Hc with
    | Some ?v = Some _ => assert (E : n = v) by congruence
    end; subst n; cbn [unpack]; apply raises_fmap.
  - apply ETTrafficMatrix_short; lia.
  - apply ETPowerUsage_short; lia.
  - apply ETBandwidth_short; lia.
  - apply ETLatency_short; lia.
  - apply ETSwitchesRequest_short; lia.
  - apply ETSwitchFailureChange_short; lia.
  - apply ETLinkFailureChange_short; [exact HL | lia].
  - apply ETComputationDone_short; lia.
Qed.

End TruncatedLink.

Lemma BaseLink_unpack_needs_SIZE : @Link_unpack_needs_SIZE BaseLink.link_class.
Proof.
  intros buf H. cbn in *. unfold BaseLink.SIZE, BaseLink.Node_SIZE in H.
  unfold BaseLink.unpack, BaseLink.Node_unpack, BaseLink.Node_SIZE.
  rewrite !Truncation.unpack_uint_upto.
  destruct (Nat.leb_spec 2 (List.length buf)); [| apply Truncation.raises_Raise].
  cbn [bind].
  repeat (rewrite ?Truncation.unpack_uint_upto, ?Truncation.length_upto,
            ?Truncation.length_from;
          match goal with
          | |- context [Nat.leb ?a ?b] =>
              destruct (Nat.leb_spec a b);
              [| cbn [bind]; try apply Truncation.raises_Raise]; cbn [bind]
          end); try lia.
Qed.

Lemma truncated_body_raises_witness :
  @Link_unpack_needs_SIZE BaseLink.link_class
  /\ @fixed_layout BaseLink.link_class ETLinkFailureChange_ = Some 31
  /\ Z.of_nat (List.length [x00; x00; x00; x07; x00; x01]) < 31
  /\ raises (@unpack BaseLink.link_class ETLinkFailureChange_
               [x00; x00; x00; x07; x00; x01]).
Proof.
  assert (Hc : @fixed_layout BaseLink.link_class ETLinkFailureChange_ = Some 31)
    by reflexivity.
  assert (Hn : Z.of_nat (List.length [x00; x00; x00; x07; x00; x01]) < 31)
    by (simpl; lia).
  split; [exact BaseLink_unpack_needs_SIZE | split; [exact Hc | split; [exact Hn |]]].
  exact (@truncated_body_raises BaseLink.link_class ETLinkFailureChange_ 31
           [x00; x00; x00; x07; x00; x01] BaseLink_unpack_needs_SIZE Hc Hn).
Defined.

(** ** The [failed] byte of the failure-change messages *)

Section FailedByte.
Context {L : LinkClass}.
Import Struct StructFacts Truncation.

Lemma be_int_single (b : byte) : be_int [b] = Z_of_byte b.
Proof. reflexivity. Qed.

Lemma ETSwitchFailureChange_unpack_bytes (p : bytes) (b : byte) :
  List.length p = 12%nat ->
  ETSwitchFailureChange.unpack (p ++ [b])
  = OK (ETSwitchFailureChange.mk (be_int (upto 4 p)) (be_int (from 4 p))
          (Z_of_byte b =? 1)).
Proof.
  intro Hp. unfold ETSwitchFailureChange.unpack.
  assert (E4 : upto 4 (p ++ [b]) = upto 4 p).
  { unfold upto. rewrite firstn_app. replace (4 - List.length p)%nat with 0%nat by lia.
    simpl. apply app_nil_r. }
  assert (F4 : from 4 (p ++ [b]) = from 4 p ++ [b]).
  { unfold from. rewrite skipn_app. replace (4 - List.length p)%nat with 0%nat by lia.
    reflexivity. }
  rewrite E4, F4.
  rewrite (unpack_uint_exact 4 (upto 4 p)) by (rewrite length_upto; lia).
  cbn [bind].
  rewrite (upto_app 8 (from 4 p) [b]) by (rewrite length_from; lia).
  rewrite (from_app 8 (from 4 p) [b]) by (rewrite length_from; lia).
  rewrite (unpack_uint_exact 8 (from 4 p)) by (rewrite length_from; lia).
  cbn [bind].
  rewrite (unpack_uint_exact 1 (upto 1 [b])) by reflexivity.
  cbn [bind]. unfold ETSwitchFailureChange.init.
  change (upto 1 [b]) with [b]. rewrite be_int_single.
  now destruct (Z_of_byte b =? 1).
Qed.

Lemma ETLinkFailureChange_unpack_bytes (p lb : bytes) (l : Link) (b : byte) :
  List.length p = 4%nat ->
  List.length lb = Link_SIZE ->
  Link_unpack lb = OK l ->
  ETLinkFailureChange.unpack (p ++ lb ++ [b])
  = OK (ETLinkFailureChange.mk (be_int p) l (Z_of_byte b =? 1)).
Proof.
  intros Hp Hl Hu. unfold ETLinkFailureChange.unpack.
  rewrite (upto_app 4 p) by exact Hp. rewrite (from_app 4 p) by exact Hp.
  rewrite (unpack_uint_exact 4 p) by exact Hp. cbn [bind].
  rewrite (upto_app Link_SIZE lb) by exact Hl.
  rewrite (from_app Link_SIZE lb) by exact Hl.
  rewrite Hu. cbn [bind].
  rewrite (unpack_uint_exact 1 (upto 1 [b])) by reflexivity.
  cbn [bind]. unfold ETLinkFailureChange.init.
  change (upto 1 [b]) with [b]. rewrite be_int_single.
  now destruct (Z_of_byte b =? 1).
Qed.

(** C5, as the code has it: for every byte value [b], unpacking a switch
    failure change whose [failed] byte is [b] succeeds, and so does
    unpacking a link failure change whose link record [Link.unpack]
    accepts; the message has [failed] true if and only if [b] is 1.  No
    byte value is rejected. *)
Theorem failed_iff_byte_is_one (b : byte) :
  (forall p : bytes,
      List.length p = 12%nat ->
      exists m, ETSwitchFailureChange.unpack (p ++ [b]) = OK m
                /\ (ETSwitchFailureChange.failed m = true <-> Z_of_byte b = 1))
  /\ (forall (p lb : bytes) (l : Link),
         List.length p = 4%nat ->
         List.length lb = Link_SIZE ->
         Link_unpack lb = OK l ->
         exists m, ETLinkFailureChange.unpack (p ++ lb ++ [b]) = OK m
                   /\ (ETLinkFailureChange.failed m = true <-> Z_of_byte b = 1)).
Proof.
  split.
  - intros p Hp. eexists. split; [apply ETSwitchFailureChange_unpack_bytes, Hp |].
    cbn. apply Z.eqb_eq.
  - intros p lb l Hp Hl Hu. eexists.
    split; [apply (ETLinkFailureChange_unpack_bytes p lb l b Hp Hl Hu) |].
    cbn. apply Z.eqb_eq.
Qed.

End FailedByte.

(** C5 as stated fails: a [failed] byte of 2 is not zero, and the switch
    failure change it arrives in unpacks to a message that has not
    failed. *)
Lemma failed_byte_two_decodes_false :
  exists m,
    ETSwitchFailureChange.unpack
      [x00; x00; x00; x07;
       x00; x00; x00; x00; x00; x00; x00; x2a;
       x02] = OK m
    /\ ~ (ETSwitchFailureChange.failed m = true <-> Struct.Z_of_byte x02 <> 0).
Proof.
  exists (ETSwitchFailureChange.mk 7 42 false).
  split; [reflexivity |].
  cbn. intros [_ H]. assert (F : false = true) by (apply H; discriminate).
  discriminate F.
Qed.

Lemma failed_iff_byte_is_one_witness :
  let p12 := [x00; x00; x00; x07; x00; x00; x00; x00; x00; x00; x00; x2a] in
  let p4 := [x00; x00; x00; x07] in
  let lb := repeat x00 26 in
  let l := BaseLink.mk 0 (BaseLink.mkNode 0 0) 0 (BaseLink.mkNode 0 0) 0 in
  List.length p12 = 12%nat
  /\ List.length p4 = 4%nat
  /\ List.length lb = @Link_SIZE BaseLink.link_class
  /\ @Link_unpack BaseLink.link_class lb = OK l
  /\ (exists m, ETSwitchFailureChange.unpack (p12 ++ [x01]) = OK m
                /\ (ETSwitchFailureChange.failed m = true <-> Struct.Z_of_byte x01 = 1))
  /\ (exists m, @ETLinkFailureChange.unpack BaseLink.link_class (p4 ++ lb ++ [x01]) = OK m
                /\ (ETLinkFailureChange.failed m = true <-> Struct.Z_of_byte x01 = 1)).
Proof.
  intros p12 p4 lb l.
  assert (H12 : List.length p12 = 12%nat) by reflexivity.
  assert (H4 : List.length p4 = 4%nat) by reflexivity.
  assert (Hl : List.length lb = @Link_SIZE BaseLink.link_class) by reflexivity.
  assert (Hu : @Link_unpack BaseLink.link_class lb = OK l) by reflexivity.
  split; [exact H12 | split; [exact H4 | split; [exact Hl | split; [exact Hu |]]]].
  split.
  - exact (proj1 (@failed_iff_byte_is_one BaseLink.link_class x01) p12 H12).
  - exact (proj2 (@failed_iff_byte_is_one BaseLink.link_class x01) p4 lb l H4 Hl Hu).
Defined.

(** ** [length] against [pack] *)

Section Lengths.
Context {L : LinkClass}.
Import Struct StructFacts.

(** For the classes with a fixed layout, [length] is the number of bytes
    [pack] writes. *)
Lemma ETPowerUsage_length_is_size (m : ETPowerUsage.t) (s : bytes) :
  ETPowerUsage.pack m = OK s ->
  ETPowerUsage.length m = Z.of_nat (List.length s).
Proof.
  unfold ETPowerUsage.pack, OFGMessage.pack.
  destruct (pack_uint 4 (ETPowerUsage.watts_current m)) as [b0|] eqn:E0; [|discriminate].
  destruct (pack_uint 4 (ETPowerUsage.watts_traditional m)) as [b1|] eqn:E1; [|discriminate].
  destruct (pack_uint 4 (ETPowerUsage.watts_max m)) as [b2|] eqn:E2; [|discriminate].
  destruct (pack_uint 4 (ETPowerUsage.xid m)) as [h|] eqn:E3; [|discriminate].
  cbn [bind]. intro H. assert (E : s = h ++ b0 ++ b1 ++ b2) by congruence.
  rewrite E, !length_app.
  rewrite (pack_uint_length _ _ _ E0), (pack_uint_length _ _ _ E1),
    (pack_uint_length _ _ _ E2), (pack_uint_length _ _ _ E3).
  reflexivity.
Qed.

Lemma ETTrafficMatrix_length_is_size (m : ETTrafficMatrix.t) (s : bytes) :
  ETTrafficMatrix.pack m = OK s ->
  ETTrafficMatrix.length m = Z.of_nat (List.length s).
Proof.
  unfold ETTrafficMatrix.pack, ETTrafficMatrix.pack_body, OFGMessage.pack.
  destruct (pack_uint 4 (ETTrafficMatrix.xid m)) as [h|] eqn:Eh; [|discriminate].
  destruct (pack_uint 1 (int_of_bool (ETTrafficMatrix.use_hw m))) as [b0|] eqn:E0;
    [|discriminate].
  destruct (pack_uint 1 (ETTrafficMatrix.solver m)) as [b1|] eqn:E1; [|discriminate].
  destruct (pack_uint 1 (int_of_bool (ETTrafficMatrix.may_split_flows m))) as [b2|] eqn:E2;
    [|discriminate].
  destruct (pack_uint 4 (ETTrafficMatrix.k m)) as [b3|] eqn:E3; [|discriminate].
  destruct (pack_f (ETTrafficMatrix.demand m)) as [b4|] eqn:E4; [|discriminate].
  destruct (pack_f (ETTrafficMatrix.edge m)) as [b5|] eqn:E5; [|discriminate].
  destruct (pack_f (ETTrafficMatrix.agg m)) as [b6|] eqn:E6; [|discriminate].
  destruct (pack_uint 4 (ETTrafficMatrix.plen m)) as [b7|] eqn:E7; [|discriminate].
  cbn [bind]. intro H.
  assert (E : s = h ++ b0 ++ b1 ++ b2 ++ b3 ++ b4 ++ b5 ++ b6 ++ b7) by congruence.
  rewrite E, !length_app.
  rewrite (pack_uint_length _ _ _ Eh), (pack_uint_length _ _ _ E0),
    (pack_uint_length _ _ _ E1), (pack_uint_length _ _ _ E2),
    (pack_uint_length _ _ _ E3), (pack_f_length _ _ E4), (pack_f_length _ _ E5),
    (pack_f_length _ _ E6), (pack_uint_length _ _ _ E7).
  reflexivity.
Qed.

(** C6 fails on the link utilization message: whatever the list of items,
    [length] multiplies the list itself by the item size and adds the result
    to an integer, which raises a [TypeError]; [pack] meanwhile writes the
    four bytes of the xid for the empty list. *)
Theorem ETLinkUtils_length_raises (utils : list ETLinkUtils.item) (xid : Z) :
  length (LinkUtils (ETLinkUtils.init utils xid)) = Raise TypeError
  /\ pack (LinkUtils (ETLinkUtils.init [] 0)) = OK [x00; x00; x00; x00].
Proof.
  split; reflexivity.
Qed.

End Lengths.

(** ** Decoding into the wrong class *)

(** C1 fails on the bandwidth and computation-done messages: the bytes
    [pack] writes for [ETBandwidth(5, xid=7)] unpack, by the [unpack] of its
    own class, to an [ETPowerUsage] with [watts_current] 5,
    [watts_traditional] and [watts_max] 7 and [xid] 0, and likewise for
    [ETComputationDone(5, xid=7)]. *)
Theorem roundtrip_returns_ETPowerUsage {L : LinkClass} :
  let wire := [x00; x00; x00; x07; x00; x00; x00; x05] in
  let got := PowerUsage (ETPowerUsage.mk 0 5 7 7) in
  let b := Bandwidth (ETBandwidth.init 5 7) in
  let c := ComputationDone (ETComputationDone.init 5 7) in
  (pack b = OK wire /\ unpack (class_of b) wire = OK got /\ got <> b)
  /\ (pack c = OK wire /\ unpack (class_of c) wire = OK got /\ got <> c).
Proof.
  cbv zeta. repeat split; try reflexivity; discriminate.
Qed.

(** C2 fails for three type codes: the codec registered for 0xF4 and the one
    registered for 0xFF both return an [ETPowerUsage] (with the xid read
    from the wire stored as [watts_traditional] and [watts_max]), and the
    one registered for 0xF1 returns plain links: the four utilization bytes
    of the record, here those of 0.5, are in none of its fields. *)
Theorem decode_by_type_code_wrong_class :
  let wire := [x00; x00; x00; x07; x00; x00; x00; x05] in
  let record := repeat x00 26 ++ [x3f; x00; x00; x00] in
  let l := BaseLink.mk 0 (BaseLink.mkNode 0 0) 0 (BaseLink.mkNode 0 0) 0 in
  @decode BaseLink.link_class 0xF4 wire
    = Some (OK (PowerUsage (ETPowerUsage.mk 0 5 7 7)))
  /\ @decode BaseLink.link_class 0xFF wire
    = Some (OK (PowerUsage (ETPowerUsage.mk 0 5 7 7)))
  /\ Struct.unpack_f [x3f; x00; x00; x00] = OK 0.5%float
  /\ @decode BaseLink.link_class 0xF1 ([x00; x00; x00; x07] ++ record)
    = Some (OK (LinkUtils (ETLinkUtils.mk 7
                             [@ETLinkUtils.a_Link BaseLink.link_class l]))).
Proof.
  cbv zeta. repeat split; vm_compute; reflexivity.
Qed.

(** ** ETLinkUtils: how many records [unpack] reads *)

Section PartialRecord.
Context {L : LinkClass}.
Import Struct StructFacts Truncation.

Lemma SIZE_positive : (0 < ETLinkUtil.SIZE)%nat.
Proof. unfold ETLinkUtil.SIZE. lia. Qed.

(** The loop looks at the first [num_utils] records only: bytes after them
    do not change what it returns. *)
Lemma unpack_loop_ignores_tail (n : nat) :
  forall (recs extra : bytes) (acc : list ETLinkUtils.item),
    List.length recs = (n * ETLinkUtil.SIZE)%nat ->
    ETLinkUtils.unpack_loop n (recs ++ extra) acc
    = ETLinkUtils.unpack_loop n recs acc.
Proof.
  induction n as [|n IH]; intros recs extra acc Hlen; [reflexivity |].
  cbn [ETLinkUtils.unpack_loop].
  assert (Hge : (ETLinkUtil.SIZE <= List.length recs)%nat) by (rewrite Hlen; lia).
  assert (E1 : upto ETLinkUtil.SIZE (recs ++ extra) = upto ETLinkUtil.SIZE recs).
  { unfold upto. rewrite firstn_app.
    replace (ETLinkUtil.SIZE - List.length recs)%nat with 0%nat by lia.
    simpl. apply app_nil_r. }
  assert (E2 : from ETLinkUtil.SIZE (recs ++ extra)
               = from ETLinkUtil.SIZE recs ++ extra).
  { unfold from. rewrite skipn_app.
    replace (ETLinkUtil.SIZE - List.length recs)%nat with 0%nat by lia.
    reflexivity. }
  rewrite E1, E2.
  destruct (Link_unpack (upto ETLinkUtil.SIZE recs)) as [l | e]; [| reflexivity].
  cbn [bind]. apply IH. rewrite length_from, Hlen. simpl. lia.
Qed.

(** When the loop returns, it has appended one item per round. *)
Lemma unpack_loop_count (n : nat) :
  forall (body : bytes) (acc us : list ETLinkUtils.item),
    ETLinkUtils.unpack_loop n body acc = OK us ->
    List.length us = (List.length acc + n)%nat.
Proof.
  induction n as [|n IH]; intros body acc us H.
  - cbn in H. injection H as <-. lia.
  - cbn [ETLinkUtils.unpack_loop] in H.
    destruct (Link_unpack (upto ETLinkUtil.SIZE body)) as [l | e]; [| discriminate].
    cbn [bind] in H. apply IH in H. rewrite H, length_app. simpl. lia.
Qed.

Lemma whole_records (n : nat) (extra : bytes) :
  (List.length extra < ETLinkUtil.SIZE)%nat ->
  ((n * ETLinkUtil.SIZE + List.length extra) / ETLinkUtil.SIZE)%nat = n.
Proof.
  intro H. pose proof SIZE_positive as Hp.
  rewrite Nat.add_comm, Nat.div_add by lia.
  rewrite Nat.div_small by exact H. reflexivity.
Qed.

(** C4, as the code has it: [unpack] reads the whole records that follow
    the xid, as many as the integer quotient of the remaining length by the
    item size, and ignores a trailing partial record.  A body made of [n]
    whole records followed by fewer bytes than one record unpacks to what
    the body without those bytes unpacks to, and a message it returns has
    exactly [n] items; with no whole record at all it returns the message
    with an empty list. *)
Theorem trailing_partial_record_ignored (xb recs extra : bytes) (n : nat) :
  List.length xb = 4%nat ->
  List.length recs = (n * ETLinkUtil.SIZE)%nat ->
  (List.length extra < ETLinkUtil.SIZE)%nat ->
  ETLinkUtils.unpack (xb ++ recs ++ extra) = ETLinkUtils.unpack (xb ++ recs)
  /\ (forall m, ETLinkUtils.unpack (xb ++ recs ++ extra) = OK m ->
                List.length (ETLinkUtils.utils m) = n)
  /\ (n = 0%nat ->
      ETLinkUtils.unpack (xb ++ recs ++ extra)
      = OK (ETLinkUtils.mk (be_int xb) [])).
Proof.
  intros Hx Hr He.
  assert (Hu : forall tail, ETLinkUtils.unpack (xb ++ recs ++ tail)
             = (utils <- ETLinkUtils.unpack_loop
                          ((n * ETLinkUtil.SIZE + List.length tail) / ETLinkUtil.SIZE)
                          (recs ++ tail) [];;
                OK (ETLinkUtils.init utils (be_int xb)))).
  { intro tail. unfold ETLinkUtils.unpack.
    rewrite (upto_app 4 xb) by exact Hx. rewrite (from_app 4 xb) by exact Hx.
    rewrite (unpack_uint_exact 4 xb) by exact Hx. cbn [bind].
    rewrite length_app, Hr. reflexivity. }
  assert (E : ETLinkUtils.unpack (xb ++ recs ++ extra)
              = ETLinkUtils.unpack (xb ++ recs)).
  { rewrite <- (app_nil_r recs) at 2. rewrite !Hu.
    rewrite (whole_records n extra He).
    rewrite (whole_records n []) by (simpl; apply SIZE_positive).
    rewrite !unpack_loop_ignores_tail by exact Hr. reflexivity. }
  split; [exact E |]. split.
  - intros m Hm. rewrite Hu, (whole_records n extra He) in Hm.
    destruct (ETLinkUtils.unpack_loop n (recs ++ extra) []) as [us |] eqn:El;
      [| discriminate].
    cbn [bind] in Hm. injection Hm as <-.
    apply unpack_loop_count in El. cbn in *. exact El.
  - intros ->. rewrite Hu, (whole_records 0 extra He). reflexivity.
Qed.

End PartialRecord.

(** C4 as stated fails: a body whose length after the xid is 29, one byte
    short of the 30 bytes of an item, is not a multiple of the item size,
    and it unpacks to a message with no items. *)
Lemma partial_record_is_dropped :
  let body := [x00; x00; x00; x07] ++ repeat x00 29 in
  Nat.modulo (List.length (from 4 body)) (@ETLinkUtil.SIZE BaseLink.link_class)
    = 29%nat
  /\ @ETLinkUtils.unpack BaseLink.link_class body
     = OK (@ETLinkUtils.mk BaseLink.link_class 7 [])
  /\ ~ raises (@ETLinkUtils.unpack BaseLink.link_class body).
Proof.
  cbv zeta.
  assert (E : @ETLinkUtils.unpack BaseLink.link_class
                ([x00; x00; x00; x07] ++ repeat x00 29)
              = OK (@ETLinkUtils.mk BaseLink.link_class 7 [])) by reflexivity.
  split; [reflexivity |]. split; [exact E |].
  intros [e H]. rewrite E in H. discriminate H.
Qed.

Lemma trailing_partial_record_ignored_witness :
  let xb := [x00; x00; x00; x07] in
  let recs := repeat x00 30 in
  let extra := repeat x01 29 in
  List.length xb = 4%nat
  /\ List.length recs = (1 * @ETLinkUtil.SIZE BaseLink.link_class)%nat
  /\ (List.length extra < @ETLinkUtil.SIZE BaseLink.link_class)%nat
  /\ @ETLinkUtils.unpack BaseLink.link_class (xb ++ recs ++ extra)
     = @ETLinkUtils.unpack BaseLink.link_class (xb ++ recs)
  /\ forall m, @ETLinkUtils.unpack BaseLink.link_class (xb ++ recs ++ extra) = OK m ->
               List.length (ETLinkUtils.utils m) = 1%nat.
Proof.
  intros xb recs extra.
  assert (Hx : List.length xb = 4%nat) by reflexivity.
  assert (Hr : List.length recs = (1 * @ETLinkUtil.SIZE BaseLink.link_class)%nat)
    by reflexivity.
  assert (He : (List.length extra < @ETLinkUtil.SIZE BaseLink.link_class)%nat)
    by (vm_compute; lia).
  split; [exact Hx | split; [exact Hr | split; [exact He |]]].
  destruct (@trailing_partial_record_ignored BaseLink.link_class xb recs extra 1 Hx Hr He)
    as [Hsame [Hcount _]].
  split; [exact Hsame | exact Hcount].
Defined.

(** ** Comparisons of doubles *)

Module FloatOrder.

Lemma SFcompare_swap (x y : spec_float) :
  SFcompare y x = option_map CompOpp (SFcompare x y).
Proof.
  destruct x as [sx | sx | | sx mx ex], y as [sy | sy | | sy my ey];
    try reflexivity;
    try (destruct sx; reflexivity); try (destruct sy; reflexivity);
    try (destruct sx, sy; reflexivity).
  pose proof (Pos.compare_cont_antisym mx my Eq) as Hm. cbn [CompOpp] in Hm.
  destruct sx, sy; cbn [SFcompare option_map]; try reflexivity;
    rewrite (Z.compare_antisym ex ey);
    destruct (ex ?= ey); cbn [CompOpp]; try reflexivity;
    rewrite <- Hm; now destruct (Pos.compare_cont Eq mx my).
Qed.

(** [x <= y] rules out [y < x]. *)
Lemma leb_not_ltb (x y : float) :
  PrimFloat.leb x y = true -> PrimFloat.ltb y x = false.
Proof.
  rewrite leb_spec, ltb_spec. unfold SFleb, SFltb.
  rewrite (SFcompare_swap (Prim2SF x) (Prim2SF y)).
  destruct (SFcompare (Prim2SF x) (Prim2SF y)) as [[ | | ] |];
    cbn; congruence.
Qed.

(** A double that equals itself is a number, and two numbers compare. *)
Lemma number_compares (x y : float) :
  PrimFloat.eqb x x = true -> PrimFloat.eqb y y = true ->
  SFcompare (Prim2SF x) (Prim2SF y) <> None.
Proof.
  rewrite !eqb_spec. unfold SFeqb.
  destruct (Prim2SF x) as [sx | sx | | sx mx ex], (Prim2SF y) as [sy | sy | | sy my ey];
    cbn; congruence.
Qed.

(** For numbers, [not (x < y)] is [y <= x]. *)
Lemma not_ltb_leb (x y : float) :
  PrimFloat.eqb x x = true -> PrimFloat.eqb y y = true ->
  PrimFloat.ltb x y = false -> PrimFloat.leb y x = true.
Proof.
  intros Hx Hy. pose proof (number_compares x y Hx Hy) as Hc.
  rewrite leb_spec, ltb_spec. unfold SFleb, SFltb.
  rewrite (SFcompare_swap (Prim2SF x) (Prim2SF y)).
  destruct (SFcompare (Prim2SF x) (Prim2SF y)) as [[ | | ] |];
    cbn; congruence.
Qed.

Lemma in_unit_passes (x : float) :
  in_unit x = true ->
  PrimFloat.ltb x 0 = false /\ ETTrafficMatrix.gtb x 1 = false.
Proof.
  unfold in_unit, ETTrafficMatrix.gtb. intro H.
  apply andb_true_iff in H. destruct H as [H0 H1].
  split; apply leb_not_ltb; assumption.
Qed.

End FloatOrder.

(** ** Rounding of sums and differences of doubles *)

Module Rounding.
Import Binary64.

Lemma digits2_pos_bounds (p : positive) :
  2 ^ (Z.pos (digits2_pos p) - 1) <= Z.pos p < 2 ^ Z.pos (digits2_pos p).
Proof.
  induction p as [p IH | p IH |]; cbn [digits2_pos].
  - rewrite Pos2Z.inj_succ. replace (Z.succ (Z.pos (digits2_pos p)) - 1) with (Z.succ (Z.pos (digits2_pos p) - 1)) by lia.
    rewrite !Z.pow_succ_r by lia. lia.
  - rewrite Pos2Z.inj_succ. replace (Z.succ (Z.pos (digits2_pos p)) - 1) with (Z.succ (Z.pos (digits2_pos p) - 1)) by lia.
    rewrite !Z.pow_succ_r by lia. lia.
  - simpl. lia.
Qed.

Lemma iter_xO (d : positive) (m : positive) :
  Z.pos (Pos.iter xO m d) = Z.pos m * 2 ^ Z.pos d.
Proof.
  revert m. induction d as [| d IH] using Pos.peano_ind; intro m.
  - simpl. lia.
  - rewrite Pos.iter_succ. rewrite Pos2Z.inj_succ, Z.pow_succ_r by lia.
    rewrite Pos2Z.inj_xO, IH. lia.
Qed.

Lemma shr_1_inv (N k : Z) (r : shr_record) :
  0 <= N -> 0 <= k -> shr_inv N k r -> shr_inv N (k + 1) (shr_1 r).
Proof.
  intros HN Hk [Hm Hl Hs].
  assert (Hp : 0 < 2 ^ k) by (apply Z.pow_pos_nonneg; lia).
  assert (Hdiv : N / 2 ^ (k + 1) = (N / 2 ^ k) / 2).
  { rewrite Z.pow_add_r, Z.pow_1_r by lia. rewrite Z.div_div by lia. reflexivity. }
  assert (Hmod : N mod 2 ^ (k + 1) = N mod 2 ^ k + 2 ^ k * ((N / 2 ^ k) mod 2)).
  { rewrite Z.pow_add_r, Z.pow_1_r by lia. apply Z.rem_mul_r; lia. }
  assert (Hr : 0 <= N mod 2 ^ k < 2 ^ k) by (apply Z.mod_pos_bound; lia).
  assert (Hq : 0 <= N / 2 ^ k) by (apply Z.div_pos; lia).
  destruct r as [m r s]. cbn [shr_m shr_r shr_s] in *.
  assert (Hpow : 2 ^ (k + 1) = 2 * 2 ^ k) by (rewrite Z.pow_add_r, Z.pow_1_r by lia; lia).
  rewrite <- Hm in *.
  destruct m as [| [p | p |] | p]; cbn [shr_1 shr_m shr_r shr_s]; try lia.
  - (* 0 *)
    split; cbn [shr_m shr_r shr_s loc_of_shr_record].
    + rewrite Hdiv. reflexivity.
    + rewrite Hmod. change (0 mod 2) with 0. rewrite Z.mul_0_r, Z.add_0_r.
      unfold loc_of. rewrite Hpow.
      destruct (r || s) eqn:E; symmetry in Hs.
      * apply negb_true_iff in Hs. rewrite Hs.
        replace (2 * (N mod 2 ^ k) ?= 2 * 2 ^ k) with Lt by (symmetry; apply Z.compare_lt_iff; lia).
        reflexivity.
      * apply negb_false_iff in Hs. rewrite Hs. reflexivity.
    + rewrite Hmod. change (0 mod 2) with 0. rewrite Z.mul_0_r, Z.add_0_r. cbn [orb]. exact Hs.
  - (* xI p *)
    assert (E2 : Z.pos p~1 mod 2 = 1) by (rewrite Pos2Z.inj_xI, Z.add_comm, Z.mul_comm, Z.mod_add by lia; reflexivity).
    assert (D2 : Z.pos p~1 / 2 = Z.pos p) by (rewrite Pos2Z.inj_xI, Z.add_comm, Z.mul_comm, Z.div_add by lia; reflexivity).
    split; cbn [shr_m shr_r shr_s loc_of_shr_record].
    + rewrite Hdiv, D2. reflexivity.
    + rewrite Hmod, E2, Z.mul_1_r. unfold loc_of. rewrite Hpow.
      replace (N mod 2 ^ k + 2 ^ k =? 0) with false by (symmetry; apply Z.eqb_neq; lia).
      destruct (r || s) eqn:E; symmetry in Hs.
      * apply negb_true_iff in Hs. apply Z.eqb_neq in Hs.
        replace (2 * (N mod 2 ^ k + 2 ^ k) ?= 2 * 2 ^ k) with Gt by (symmetry; apply Z.compare_gt_iff; lia).
        reflexivity.
      * apply negb_false_iff in Hs. apply Z.eqb_eq in Hs. rewrite Hs.
        replace (2 * (0 + 2 ^ k) ?= 2 * 2 ^ k) with Eq by (symmetry; apply Z.compare_eq_iff; lia).
        reflexivity.
    + rewrite Hmod, E2, Z.mul_1_r. cbn [orb].
      symmetry. apply negb_true_iff. apply Z.eqb_neq. lia.
  - (* xO p *)
    assert (E2 : Z.pos p~0 mod 2 = 0) by (rewrite Pos2Z.inj_xO, Z.mul_comm, Z.mod_mul by lia; reflexivity).
    assert (D2 : Z.pos p~0 / 2 = Z.pos p) by (rewrite Pos2Z.inj_xO, Z.mul_comm, Z.div_mul by lia; reflexivity).
    split; cbn [shr_m shr_r shr_s loc_of_shr_record].
    + rewrite Hdiv, D2. reflexivity.
    + rewrite Hmod, E2, Z.mul_0_r, Z.add_0_r. unfold loc_of. rewrite Hpow.
      destruct (r || s) eqn:E; symmetry in Hs.
      * apply negb_true_iff in Hs. rewrite Hs.
        replace (2 * (N mod 2 ^ k) ?= 2 * 2 ^ k) with Lt by (symmetry; apply Z.compare_lt_iff; lia).
        reflexivity.
      * apply negb_false_iff in Hs. rewrite Hs. reflexivity.
    + rewrite Hmod, E2, Z.mul_0_r, Z.add_0_r. cbn [orb]. exact Hs.
  - (* xH *)
    split; cbn [shr_m shr_r shr_s loc_of_shr_record].
    + rewrite Hdiv. reflexivity.
    + rewrite Hmod. change (1 mod 2) with 1. rewrite Z.mul_1_r. unfold loc_of. rewrite Hpow.
      replace (N mod 2 ^ k + 2 ^ k =? 0) with false by (symmetry; apply Z.eqb_neq; lia).
      destruct (r || s) eqn:E; symmetry in Hs.
      * apply negb_true_iff in Hs. apply Z.eqb_neq in Hs.
        replace (2 * (N mod 2 ^ k + 2 ^ k) ?= 2 * 2 ^ k) with Gt by (symmetry; apply Z.compare_gt_iff; lia).
        reflexivity.
      * apply negb_false_iff in Hs. apply Z.eqb_eq in Hs. rewrite Hs.
        replace (2 * (0 + 2 ^ k) ?= 2 * 2 ^ k) with Eq by (symmetry; apply Z.compare_eq_iff; lia).
        reflexivity.
    + rewrite Hmod. change (1 mod 2) with 1. rewrite Z.mul_1_r. cbn [orb].
      symmetry. apply negb_true_iff. apply Z.eqb_neq. lia.
Qed.

Lemma iter_pos_shr_inv (p : positive) :
  forall (N k : Z) (r : shr_record),
    0 <= N -> 0 <= k -> shr_inv N k r ->
    shr_inv N (k + Z.pos p) (iter_pos shr_1 p r).
Proof.
  induction p as [p IH | p IH |]; intros N k r HN Hk H; cbn [iter_pos].
  - replace (k + Z.pos p~1) with (((k + 1) + Z.pos p) + Z.pos p) by lia.
    apply IH; try lia. apply IH; try lia. now apply shr_1_inv.
  - replace (k + Z.pos p~0) with ((k + Z.pos p) + Z.pos p) by lia.
    apply IH; try lia. apply IH; try lia. exact H.
  - now apply shr_1_inv.
Qed.

Lemma shr_inv_start (N : Z) : shr_inv N 0 (Build_shr_record N false false).
Proof.
  split; cbn; rewrite ?Z.div_1_r, ?Z.mod_1_r; reflexivity.
Qed.

Lemma pow2_digits_unique (x k1 k2 : Z) :
  2 ^ (k1 - 1) <= x < 2 ^ k1 -> 2 ^ (k2 - 1) <= x < 2 ^ k2 ->
  0 < k1 -> 0 < k2 -> k1 = k2.
Proof.
  intros H1 H2 P1 P2.
  destruct (Z.lt_trichotomy k1 k2) as [L | [E | L]]; [| exact E |].
  - assert (2 ^ k1 <= 2 ^ (k2 - 1)) by (apply Z.pow_le_mono_r; lia). lia.
  - assert (2 ^ k2 <= 2 ^ (k1 - 1)) by (apply Z.pow_le_mono_r; lia). lia.
Qed.

Lemma Zdigits2_char (x k : Z) :
  0 < k -> 2 ^ (k - 1) <= x < 2 ^ k -> Zdigits2 x = k.
Proof.
  intros Hk H.
  assert (0 < 2 ^ (k - 1)) by (apply Z.pow_pos_nonneg; lia).
  destruct x as [| p | p]; try lia.
  cbn [Zdigits2]. apply (pow2_digits_unique (Z.pos p)); try lia.
  apply digits2_pos_bounds.
Qed.

Lemma fexp_is (x : Z) : SpecFloat.fexp prec emax x = fexp64 x.
Proof. reflexivity. Qed.

Lemma round_aux_exact (m : positive) (e : Z) :
  fexp64 (Z.pos (digits2_pos m) + e) = e ->
  binary_round_aux prec emax false (Z.pos m) e loc_Exact = fin_or_inf (Z.pos m) e.
Proof.
  intro H. unfold binary_round_aux, shr_fexp.
  cbn [Zdigits2 shr_record_of_loc]. rewrite fexp_is, H, Z.sub_diag.
  cbn [shr shr_m loc_of_shr_record round_nearest_even Zdigits2 shr_record_of_loc].
  rewrite fexp_is, H, Z.sub_diag.
  cbn [shr shr_m]. reflexivity.
Qed.

Lemma round_nearest_cases (q rho n : Z) :
  exists r, round_nearest_even q (loc_of rho n) = q + r
            /\ (r = 0 \/ r = 1)
            /\ (r = 1 -> 2 ^ n <= 2 * rho /\ rho <> 0)
            /\ (r = 0 -> 2 * rho <= 2 ^ n \/ rho = 0).
Proof.
  unfold loc_of. destruct (Z.eqb_spec rho 0) as [-> | Hn].
  - exists 0. cbn. split; [lia |]. split; [lia |]. split; [lia |]. intros _. now right.
  - destruct (Z.compare_spec (2 * rho) (2 ^ n)) as [E | L | G]; cbn [round_nearest_even].
    + destruct (Z.even q).
      * exists 0. repeat split; try lia.
      * exists 1. repeat split; try lia.
    + exists 0. repeat split; try lia.
    + exists 1. repeat split; try lia.
Qed.

Lemma quotient_has_53_digits (M : positive) (n : Z) :
  0 < n -> Z.pos (digits2_pos M) = n + 53 ->
  2 ^ 52 <= Z.pos M / 2 ^ n < 2 ^ 53.
Proof.
  intros Hn Hd. pose proof (digits2_pos_bounds M) as B. rewrite Hd in B.
  assert (Hp : 0 < 2 ^ n) by (apply Z.pow_pos_nonneg; lia).
  replace (n + 53 - 1) with (52 + n) in B by lia.
  replace (n + 53) with (53 + n) in B by lia.
  rewrite !Z.pow_add_r in B by lia.
  split.
  - apply Z.div_le_lower_bound; lia.
  - apply Z.div_lt_upper_bound; lia.
Qed.

Lemma round_aux_shift (M : positive) (ez n : Z) :
  0 < n -> Z.pos (digits2_pos M) = n + 53 -> -1074 <= ez ->
  exists r,
    binary_round_aux prec emax false (Z.pos M) ez loc_Exact
    = renorm (Z.pos M / 2 ^ n + r) (ez + n)
    /\ (r = 0 \/ r = 1)
    /\ (r = 1 -> 2 ^ n <= 2 * (Z.pos M mod 2 ^ n) /\ Z.pos M mod 2 ^ n <> 0)
    /\ (r = 0 -> 2 * (Z.pos M mod 2 ^ n) <= 2 ^ n \/ Z.pos M mod 2 ^ n = 0).
Proof.
  intros Hn Hd He.
  pose proof (quotient_has_53_digits M n Hn Hd) as Hq.
  unfold binary_round_aux, shr_fexp.
  cbn [Zdigits2 shr_record_of_loc]. rewrite fexp_is, Hd.
  unfold fexp64 at 1. rewrite Z.max_l by lia.
  replace (n + 53 + ez - 53 - ez) with n by lia.
  destruct n as [| pn |]; try lia.
  cbn [shr].
  destruct (iter_pos_shr_inv pn (Z.pos M) 0 _ ltac:(lia) ltac:(lia) (shr_inv_start (Z.pos M)))
    as [Hm Hl _].
  rewrite Z.add_0_l in Hm, Hl.
  rewrite Hm, Hl.
  destruct (round_nearest_cases (Z.pos M / 2 ^ Z.pos pn) (Z.pos M mod 2 ^ Z.pos pn) (Z.pos pn))
    as [r [Hr [Hr01 [Hr1 Hr0]]]].
  rewrite Hr. exists r. split; [| repeat split; assumption || tauto].
  unfold renorm.
  destruct (Z.eqb_spec (Z.pos M / 2 ^ Z.pos pn + r) (2 ^ 53)) as [E | NE].
  - rewrite E.
    rewrite (Zdigits2_char (2 ^ 53) 54) by (cbn; lia).
    rewrite fexp_is. unfold fexp64. rewrite Z.max_l by lia.
    replace (54 + (ez + Z.pos pn) - 53 - (ez + Z.pos pn)) with 1 by lia.
    cbn [shr iter_pos shr_record_of_loc]. cbn [shr_1 shr_m].
    unfold fin_or_inf. reflexivity.
  - rewrite (Zdigits2_char (Z.pos M / 2 ^ Z.pos pn + r) 53) by (cbn; lia).
    rewrite fexp_is. unfold fexp64. rewrite Z.max_l by lia.
    replace (53 + (ez + Z.pos pn) - 53 - (ez + Z.pos pn)) with 0 by lia.
    cbn [shr shr_record_of_loc shr_m].
    unfold fin_or_inf.
    destruct (Z.pos M / 2 ^ Z.pos pn + r) as [| q |] eqn:Eq; try lia.
    reflexivity.
Qed.

Lemma digits_shifted (M k : positive) :
  Z.pos (digits2_pos (Pos.iter xO M k)) = Z.pos (digits2_pos M) + Z.pos k.
Proof.
  change (Z.pos (digits2_pos (Pos.iter xO M k))) with (Zdigits2 (Z.pos (Pos.iter xO M k))).
  apply Zdigits2_char; [lia |].
  rewrite iter_xO. pose proof (digits2_pos_bounds M) as B.
  replace (Z.pos (digits2_pos M) + Z.pos k - 1) with ((Z.pos (digits2_pos M) - 1) + Z.pos k) by lia.
  rewrite !Z.pow_add_r by lia.
  assert (0 < 2 ^ Z.pos k) by (apply Z.pow_pos_nonneg; lia).
  nia.
Qed.

(** What [binary_round] returns for a positive mantissa, in units of
    2^-1074. *)
Lemma binary_round_spec (M : positive) (ez : Z) :
  -1074 <= ez ->
  let e' := fexp64 (Z.pos (digits2_pos M) + ez) in
  let Xs := Z.pos M * 2 ^ (ez + 1074) in
  let u := 2 ^ (e' + 1074) in
  exists q r : Z,
    binary_round prec emax false M ez = renorm (q + r) e'
    /\ (r = 0 \/ r = 1)
    /\ 0 < q < 2 ^ 53
    /\ (-1074 < e' -> 2 ^ 52 <= q)
    /\ q * u <= Xs < (q + 1) * u
    /\ (r = 1 -> u <= 2 * (Xs - q * u) /\ Xs <> q * u)
    /\ (r = 0 -> 2 * (Xs - q * u) <= u).
Proof.
  intros He e' Xs u.
  pose proof (digits2_pos_bounds M) as B.
  set (d := Z.pos (digits2_pos M)) in *.
  assert (Hd : 0 < d) by (unfold d; lia).
  assert (Hs : 0 < 2 ^ (ez + 1074)) by (apply Z.pow_pos_nonneg; lia).
  unfold binary_round, shl_align. rewrite fexp_is. fold d. fold e'.
  destruct (Z_lt_le_dec ez e') as [Hlt | Hle].
  - (* some bits are shifted out *)
    assert (He' : e' = d + ez - 53) by (unfold e', fexp64 in *; lia).
    set (n := e' - ez).
    assert (Hn : 0 < n) by (unfold n; lia).
    destruct (e' - ez) as [| pn | pn] eqn:En; try lia.
    destruct (round_aux_shift M ez n Hn ltac:(unfold n; fold d; lia) He)
      as [r [Hr [Hr01 [Hr1 Hr0]]]].
    pose proof (quotient_has_53_digits M n Hn ltac:(unfold n; fold d; lia)) as Hq.
    exists (Z.pos M / 2 ^ n), r.
    replace (ez + n) with e' in Hr by (unfold n; lia).
    assert (Hpn : 0 < 2 ^ n) by (apply Z.pow_pos_nonneg; lia).
    assert (Hu : u = 2 ^ n * 2 ^ (ez + 1074)).
    { unfold u. rewrite <- Z.pow_add_r by lia. f_equal. unfold n. lia. }
    pose proof (Z.div_mod (Z.pos M) (2 ^ n) ltac:(lia)) as Hdm.
    pose proof (Z.mod_pos_bound (Z.pos M) (2 ^ n) Hpn) as Hmod.
    split; [exact Hr |]. split; [exact Hr01 |]. split; [lia |]. split; [lia |].
    split; [rewrite Hu; unfold Xs; nia |].
    split.
    + intro H1. destruct (Hr1 H1) as [Ha Hb]. rewrite Hu. unfold Xs. split; nia.
    + intro H0. rewrite Hu. unfold Xs. destruct (Hr0 H0); nia.
  - (* the mantissa fits *)
    assert (Hfit : d + ez - 53 <= ez \/ e' = -1074) by (unfold e', fexp64 in *; lia).
    assert (Hd53 : d <= 53) by (unfold e', fexp64 in *; lia).
    assert (Hel : -1074 <= e') by (unfold e', fexp64; lia).
    destruct (e' - ez) as [| pn | pn] eqn:En; try lia.
    + (* no shift *)
      assert (Ee : e' = ez) by lia.
      rewrite round_aux_exact by (fold d; fold e'; lia).
      exists (Z.pos M), 0. rewrite Z.add_0_r.
      assert (Hlt53 : Z.pos M < 2 ^ 53).
      { assert (2 ^ d <= 2 ^ 53) by (apply Z.pow_le_mono_r; lia). lia. }
      split.
      { unfold renorm. destruct (Z.eqb_spec (Z.pos M) (2 ^ 53)); [lia |]. now rewrite Ee. }
      split; [now left |]. split; [lia |].
      split.
      { intro Hn. assert (d = 53) by (unfold e', fexp64 in *; lia).
        subst d. rewrite H in B. simpl in B. lia. }
      unfold u, Xs. rewrite Ee. split; [lia |]. split; [lia | intros _; lia].
    + (* shift left *)
      assert (Ee : ez = e' + Z.pos pn) by lia.
      rewrite round_aux_exact
        by (rewrite digits_shifted; fold d; replace (d + Z.pos pn + e') with (d + ez) by lia;
            reflexivity).
      rewrite iter_xO.
      exists (Z.pos M * 2 ^ Z.pos pn), 0. rewrite Z.add_0_r.
      assert (Hp : 0 < 2 ^ Z.pos pn) by (apply Z.pow_pos_nonneg; lia).
      assert (Hdd : d + Z.pos pn <= 53) by (unfold e', fexp64 in *; lia).
      assert (Hlt53 : Z.pos M * 2 ^ Z.pos pn < 2 ^ 53).
      { assert (2 ^ (d + Z.pos pn) <= 2 ^ 53) by (apply Z.pow_le_mono_r; lia).
        rewrite Z.pow_add_r in H by lia. nia. }
      split.
      { unfold renorm. destruct (Z.eqb_spec (Z.pos M * 2 ^ Z.pos pn) (2 ^ 53)); [lia |].
        reflexivity. }
      split; [now left |]. split; [nia |].
      split.
      { intro Hn. assert (Hx : d + Z.pos pn = 53) by (unfold e', fexp64 in *; lia).
        replace 52 with ((d - 1) + Z.pos pn) by lia.
        rewrite Z.pow_add_r by lia. nia. }
      assert (Hxu : Xs = Z.pos M * 2 ^ Z.pos pn * u).
      { unfold Xs, u. rewrite Ee.
        replace (e' + Z.pos pn + 1074) with (Z.pos pn + (e' + 1074)) by lia.
        rewrite Z.pow_add_r by lia. ring. }
      assert (Hup : 0 < u) by (apply Z.pow_pos_nonneg; lia).
      rewrite Hxu. split; [nia |]. split; [lia | intros _; lia].
Qed.

Lemma bounded_facts (m : positive) (e : Z) :
  bounded prec emax m e = true ->
  -1074 <= e <= 971 /\ Z.pos m < 2 ^ 53 /\ (-1074 < e -> 2 ^ 52 <= Z.pos m).
Proof.
  unfold bounded, canonical_mantissa. rewrite fexp_is. intro H.
  apply andb_true_iff in H. destruct H as [Hc Hb].
  apply Z.eqb_eq in Hc. apply Z.leb_le in Hb. change (emax - prec) with 971 in Hb.
  pose proof (digits2_pos_bounds m) as B.
  set (d := Z.pos (digits2_pos m)) in *. unfold fexp64 in Hc.
  assert (Hd : d <= 53) by lia.
  split; [lia |]. split.
  - assert (2 ^ d <= 2 ^ 53) by (apply Z.pow_le_mono_r; lia). lia.
  - intro Hn. assert (d = 53) by lia. subst d. rewrite H in B. simpl in B. lia.
Qed.

Lemma V_pos (m : positive) (e : Z) : -1074 <= e -> 0 < V m e.
Proof.
  intro H. unfold V. assert (0 < 2 ^ (e + 1074)) by (apply Z.pow_pos_nonneg; lia). lia.
Qed.

Lemma V_lt_of_exp (m1 m2 : positive) (e1 e2 : Z) :
  bounded prec emax m1 e1 = true -> bounded prec emax m2 e2 = true ->
  e1 < e2 -> V m1 e1 < V m2 e2.
Proof.
  intros B1 B2 L.
  destruct (bounded_facts m1 e1 B1) as [R1 [U1 _]].
  destruct (bounded_facts m2 e2 B2) as [R2 [_ N2]].
  specialize (N2 ltac:(lia)). unfold V.
  assert (P1 : 0 < 2 ^ (e1 + 1074)) by (apply Z.pow_pos_nonneg; lia).
  assert (M : 2 * 2 ^ (e1 + 1074) <= 2 ^ (e2 + 1074)).
  { rewrite <- Z.pow_succ_r by lia. apply Z.pow_le_mono_r; lia. }
  change (2 ^ 53) with (2 * 2 ^ 52) in U1.
  nia.
Qed.

(** On valid non-negative doubles the comparison of the specification is
    the comparison of the values. *)
Lemma SFcompare_V (m1 m2 : positive) (e1 e2 : Z) :
  bounded prec emax m1 e1 = true -> bounded prec emax m2 e2 = true ->
  SFcompare (S754_finite false m1 e1) (S754_finite false m2 e2)
  = Some (V m1 e1 ?= V m2 e2).
Proof.
  intros B1 B2. cbn [SFcompare]. f_equal.
  destruct (Z.compare_spec e1 e2) as [E | L | G].
  - subst e2. unfold V.
    destruct (bounded_facts m1 e1 B1) as [R1 _].
    assert (P : 0 < 2 ^ (e1 + 1074)) by (apply Z.pow_pos_nonneg; lia).
    change (Pos.compare_cont Eq m1 m2) with (Pos.compare m1 m2).
    destruct (Pos.compare_spec m1 m2) as [E | L | G]; symmetry.
    + subst m2. apply Z.compare_refl.
    + apply Z.compare_lt_iff. apply Z.mul_lt_mono_pos_r; [exact P | lia].
    + apply Z.compare_gt_iff. apply Z.mul_lt_mono_pos_r; [exact P | lia].
  - symmetry. apply Z.compare_lt_iff. now apply V_lt_of_exp.
  - symmetry. apply Z.compare_gt_iff. now apply V_lt_of_exp.
Qed.

Lemma V_upper (m : positive) (e : Z) :
  bounded prec emax m e = true -> V m e < 2 ^ 53 * 2 ^ 2045.
Proof.
  intro B. destruct (bounded_facts m e B) as [R [U _]]. unfold V.
  assert (P : 0 < 2 ^ (e + 1074)) by (apply Z.pow_pos_nonneg; lia).
  assert (M : 2 ^ (e + 1074) <= 2 ^ 2045) by (apply Z.pow_le_mono_r; lia).
  nia.
Qed.

(** [renorm] either overflows, on a value of 2^1024 or more, or returns the
    double with the value it is given. *)
Lemma renorm_cases (x e : Z) :
  0 < x <= 2 ^ 53 -> -1074 <= e -> (-1074 < e -> 2 ^ 52 <= x) ->
  (renorm x e = S754_infinity false /\ 2 ^ 53 * 2 ^ 2045 <= x * 2 ^ (e + 1074))
  \/ (exists m e2, renorm x e = S754_finite false m e2
                   /\ V m e2 = x * 2 ^ (e + 1074)).
Proof.
  intros Hx He Hn. unfold renorm, fin_or_inf.
  assert (P : 0 < 2 ^ (e + 1074)) by (apply Z.pow_pos_nonneg; lia).
  destruct (Z.eqb_spec x (2 ^ 53)) as [E | NE].
  - destruct (Z.leb_spec (e + 1) 971) as [L | G].
    + right. exists (Z.to_pos (2 ^ 52)), (e + 1). split; [reflexivity |].
      unfold V. rewrite Z2Pos.id by (cbn; lia). rewrite E.
      replace (e + 1 + 1074) with (Z.succ (e + 1074)) by lia.
      rewrite Z.pow_succ_r by lia. change (2 ^ 53) with (2 * 2 ^ 52). ring.
    + left. split; [reflexivity |]. rewrite E.
      assert (2 ^ 2045 <= 2 ^ (e + 1074)) by (apply Z.pow_le_mono_r; lia).
      apply Z.mul_le_mono_nonneg_l; [cbn; lia | assumption].
  - destruct (Z.leb_spec e 971) as [L | G].
    + right. exists (Z.to_pos x), e. split; [reflexivity |].
      unfold V. rewrite Z2Pos.id by lia. reflexivity.
    + left. split; [reflexivity |]. specialize (Hn ltac:(lia)).
      assert (M : 2 * 2 ^ 2045 <= 2 ^ (e + 1074)).
      { rewrite <- Z.pow_succ_r by lia. apply Z.pow_le_mono_r; lia. }
      change (2 ^ 53) with (2 * 2 ^ 52).
      assert (0 < 2 ^ 2045) by (apply Z.pow_pos_nonneg; lia).
      nia.
Qed.

Section RoundBounds.
Variables (M : positive) (ez : Z).
Hypothesis Hez : -1074 <= ez.

#[local] Abbreviation Xs := (Z.pos M * 2 ^ (ez + 1074)).

(** Rounding does not cross a double: a double that bounds the exact value
    from above bounds the rounded value too. *)
Lemma round_below (mb : positive) (eb : Z) :
  bounded prec emax mb eb = true ->
  Xs <= V mb eb ->
  exists m e, binary_round prec emax false M ez = S754_finite false m e
              /\ V m e <= V mb eb.
Proof.
  intros Bb Hle.
  destruct (binary_round_spec M ez Hez) as [q [r [Hres [Hr01 [Hq [Hn [Hfl [Hr1 Hr0]]]]]]]].
  set (e' := fexp64 (Z.pos (digits2_pos M) + ez)) in *.
  set (u := 2 ^ (e' + 1074)) in *.
  assert (He' : -1074 <= e') by (unfold e', fexp64; lia).
  assert (Hu : 0 < u) by (apply Z.pow_pos_nonneg; lia).
  destruct (bounded_facts mb eb Bb) as [Rb [Ub Nb]].
  assert (Hval : (q + r) * u <= V mb eb).
  { destruct Hr01 as [-> | ->]; [lia |].
    destruct (Hr1 eq_refl) as [_ Hne].
    destruct (Z_le_gt_dec e' eb) as [Hge | Hlt].
    - (* the bound is a multiple of the unit *)
      assert (Hm : V mb eb = (Z.pos mb * 2 ^ (eb - e')) * u).
      { unfold V, u. rewrite <- Z.mul_assoc, <- Z.pow_add_r by lia.
        do 2 f_equal. lia. }
      rewrite Hm in *. 
      assert (q < Z.pos mb * 2 ^ (eb - e')) by nia.
      nia.
    - exfalso. specialize (Hn ltac:(lia)).
      assert (Hc : V mb eb < 2 ^ 52 * u).
      { unfold V, u.
        assert (P : 0 < 2 ^ (eb + 1074)) by (apply Z.pow_pos_nonneg; lia).
        assert (Mo : 2 * 2 ^ (eb + 1074) <= 2 ^ (e' + 1074)).
        { rewrite <- Z.pow_succ_r by lia. apply Z.pow_le_mono_r; lia. }
        change (2 ^ 53) with (2 * 2 ^ 52) in Ub. nia. }
      nia. }
  rewrite Hres.
  destruct (renorm_cases (q + r) e') as [[_ Hov] | [m [e2 [Hfin HV]]]];
    try lia.
  - pose proof (V_upper mb eb Bb). fold u in Hov. lia.
  - exists m, e2. split; [exact Hfin |]. fold u in HV. lia.
Qed.

(** A double that bounds the exact value from below bounds the rounded
    value too, when the rounded value is finite. *)
Lemma round_above (mb : positive) (eb : Z) :
  bounded prec emax mb eb = true ->
  V mb eb <= Xs ->
  binary_round prec emax false M ez = S754_infinity false
  \/ exists m e, binary_round prec emax false M ez = S754_finite false m e
                 /\ V mb eb <= V m e.
Proof.
  intros Bb Hle.
  destruct (binary_round_spec M ez Hez) as [q [r [Hres [Hr01 [Hq [Hn [Hfl [Hr1 Hr0]]]]]]]].
  set (e' := fexp64 (Z.pos (digits2_pos M) + ez)) in *.
  set (u := 2 ^ (e' + 1074)) in *.
  assert (He' : -1074 <= e') by (unfold e', fexp64; lia).
  assert (Hu : 0 < u) by (apply Z.pow_pos_nonneg; lia).
  destruct (bounded_facts mb eb Bb) as [Rb [Ub Nb]].
  assert (Hval : V mb eb <= q * u).
  { destruct (Z_le_gt_dec e' eb) as [Hge | Hlt].
    - assert (Hm : V mb eb = (Z.pos mb * 2 ^ (eb - e')) * u).
      { unfold V, u. rewrite <- Z.mul_assoc, <- Z.pow_add_r by lia.
        do 2 f_equal. lia. }
      rewrite Hm in *.
      assert (Z.pos mb * 2 ^ (eb - e') < q + 1) by nia.
      nia.
    - specialize (Hn ltac:(lia)).
      assert (Hc : V mb eb < 2 ^ 52 * u).
      { unfold V, u.
        assert (P : 0 < 2 ^ (eb + 1074)) by (apply Z.pow_pos_nonneg; lia).
        assert (Mo : 2 * 2 ^ (eb + 1074) <= 2 ^ (e' + 1074)).
        { rewrite <- Z.pow_succ_r by lia. apply Z.pow_le_mono_r; lia. }
        change (2 ^ 53) with (2 * 2 ^ 52) in Ub. nia. }
      nia. }
  rewrite Hres.
  destruct (renorm_cases (q + r) e') as [[Hinf _] | [m [e2 [Hfin HV]]]];
    try lia.
  - now left.
  - right. exists m, e2. split; [exact Hfin |]. fold u in HV.
    destruct Hr01; nia.
Qed.

End RoundBounds.

Lemma one_is_bounded : bounded prec emax 4503599627370496 (-52) = true.
Proof. reflexivity. Qed.

Lemma V_one : V 4503599627370496 (-52) = 2 ^ 1074.
Proof. reflexivity. Qed.

Section RoundNearOne.
Variables (M : positive) (ez : Z).
Hypothesis Hez : -1074 <= ez.

#[local] Abbreviation Xs := (Z.pos M * 2 ^ (ez + 1074)).

(** Below 1.0 the unit in the last place is 2^-53 at most, and rounding
    moves the value by less than that. *)
Lemma round_error_below_one :
  Xs < 2 ^ 1074 ->
  exists m e, binary_round prec emax false M ez = S754_finite false m e
              /\ V m e <= 2 ^ 1074 /\ V m e < Xs + 2 ^ 1021.
Proof.
  intro Hlt.
  destruct (round_below M ez Hez _ _ one_is_bounded) as [m [e [Hfin Hle]]].
  { rewrite V_one. lia. }
  rewrite V_one in Hle.
  exists m, e. split; [exact Hfin |]. split; [exact Hle |].
  destruct (binary_round_spec M ez Hez) as [q [r [Hres [Hr01 [Hq [Hn [Hfl [Hr1 Hr0]]]]]]]].
  set (e' := fexp64 (Z.pos (digits2_pos M) + ez)) in *.
  set (u := 2 ^ (e' + 1074)) in *.
  assert (He' : -1074 <= e') by (unfold e', fexp64; lia).
  assert (Hu : 0 < u) by (apply Z.pow_pos_nonneg; lia).
  assert (Hsmall : e' <= -53).
  { pose proof (digits2_pos_bounds M) as B.
    set (d := Z.pos (digits2_pos M)) in *.
    destruct (Z_le_gt_dec (d + ez) 0) as [L | G]; [unfold e', fexp64; lia |].
    exfalso.
    assert (P : 0 < 2 ^ (ez + 1074)) by (apply Z.pow_pos_nonneg; lia).
    assert (2 ^ 1074 <= 2 ^ (d - 1) * 2 ^ (ez + 1074)).
    { rewrite <- Z.pow_add_r by lia. apply Z.pow_le_mono_r; lia. }
    nia. }
  assert (Hu' : u <= 2 ^ 1021) by (apply Z.pow_le_mono_r; lia).
  rewrite Hres in Hfin.
  destruct (renorm_cases (q + r) e') as [[Hinf _] | [m' [e2 [Hfin' HV]]]]; try lia.
  - rewrite Hinf in Hfin. discriminate.
  - rewrite Hfin' in Hfin. injection Hfin as <- <-. fold u in HV.
    destruct Hr01 as [-> | ->]; [lia |].
    destruct (Hr1 eq_refl) as [_ Hne]. lia.
Qed.

(** A value less than half a unit in the last place above 1.0 rounds to
    1.0 at most. *)
Lemma round_just_above_one :
  Xs < 2 ^ 1074 + 2 ^ 1021 ->
  exists m e, binary_round prec emax false M ez = S754_finite false m e
              /\ V m e <= 2 ^ 1074.
Proof.
  intro Hlt.
  destruct (Z_le_gt_dec Xs (2 ^ 1074)) as [Hle | Hgt].
  - destruct (round_below M ez Hez _ _ one_is_bounded) as [m [e [Hfin Hv]]].
    { rewrite V_one. exact Hle. }
    rewrite V_one in Hv. now exists m, e.
  - destruct (binary_round_spec M ez Hez) as [q [r [Hres [Hr01 [Hq [Hn [Hfl [Hr1 Hr0]]]]]]]].
    set (e' := fexp64 (Z.pos (digits2_pos M) + ez)) in *.
      set (u := 2 ^ (e' + 1074)) in *.
    assert (He' : e' = -52).
    { pose proof (digits2_pos_bounds M) as B.
      set (d := Z.pos (digits2_pos M)) in *.
      assert (Hdp : 0 < d) by (unfold d; lia).
      assert (P : 0 < 2 ^ (ez + 1074)) by (apply Z.pow_pos_nonneg; lia).
      assert (Hd : d + ez = 1).
      { assert (K : d + ez + 1074 = 1075).
        { apply (pow2_digits_unique Xs); try lia.
          replace (d + ez + 1074 - 1) with ((d - 1) + (ez + 1074)) by lia.
            replace (d + ez + 1074) with (d + (ez + 1074)) by lia.
            rewrite (Z.pow_add_r 2 (d - 1) (ez + 1074)),
              (Z.pow_add_r 2 d (ez + 1074)) by lia.
            split; [apply Z.mul_le_mono_nonneg_r; lia
                   | apply Z.mul_lt_mono_pos_r; lia].
        }
        lia. }
      unfold e', fexp64. rewrite Hd. lia. }
    assert (Hu : u = 2 * 2 ^ 1021).
    { unfold u. rewrite He'. replace (-52 + 1074) with (Z.succ 1021) by lia.
      now rewrite Z.pow_succ_r by lia. }
    assert (K1 : 2 ^ 1074 = 2 ^ 53 * 2 ^ 1021).
    { rewrite <- Z.pow_add_r by lia. reflexivity. }
    assert (P : 0 < 2 ^ 1021) by (apply Z.pow_pos_nonneg; lia).
    rewrite K1 in Hgt, Hlt. clearbody u. subst u. clear K1.
    remember (2 ^ 1021) as h eqn:Eh. clear Eh.
    assert (Eq : q = 2 ^ 52) by nia.
    assert (Er : r = 0).
    { destruct Hr01 as [-> | ->]; [reflexivity |].
      destruct (Hr1 eq_refl) as [Hh _]. nia. }
    subst q r. rewrite Hres, He'.
    exists 4503599627370496%positive, (-52). split; [reflexivity |].
    rewrite V_one. lia.
Qed.

End RoundNearOne.

Lemma shl_align_value (mx : positive) (ex ez : Z) :
  ez <= ex -> -1074 <= ez ->
  Z.pos (fst (shl_align mx ex ez)) * 2 ^ (ez + 1074) = V mx ex.
Proof.
  intros Hle Hez. unfold shl_align, V.
  destruct (ez - ex) as [| p | p] eqn:E; try lia.
  - cbn [fst]. replace ex with ez by lia. reflexivity.
  - cbn [fst]. rewrite iter_xO. rewrite <- Z.mul_assoc, <- Z.pow_add_r by lia.
    do 2 f_equal. lia.
Qed.

Lemma SFadd_finite (mx my : positive) (ex ey : Z) :
  bounded prec emax mx ex = true -> bounded prec emax my ey = true ->
  exists M ez,
    SFadd prec emax (S754_finite false mx ex) (S754_finite false my ey)
    = binary_round prec emax false M ez
    /\ -1074 <= ez
    /\ Z.pos M * 2 ^ (ez + 1074) = V mx ex + V my ey.
Proof.
  intros Bx By.
  destruct (bounded_facts mx ex Bx) as [Rx _].
  destruct (bounded_facts my ey By) as [Ry _].
  exists (fst (shl_align mx ex (Z.min ex ey)) + fst (shl_align my ey (Z.min ex ey)))%positive,
    (Z.min ex ey).
  split; [reflexivity |]. split; [lia |].
  rewrite Pos2Z.inj_add, Z.mul_add_distr_r.
  rewrite !shl_align_value by lia. reflexivity.
Qed.

Lemma SFsub_finite (mx my : positive) (ex ey : Z) :
  bounded prec emax mx ex = true -> bounded prec emax my ey = true ->
  V my ey <= V mx ex ->
  (V my ey = V mx ex
   /\ SFsub prec emax (S754_finite false mx ex) (S754_finite false my ey)
      = S754_zero false)
  \/ exists M ez,
       SFsub prec emax (S754_finite false mx ex) (S754_finite false my ey)
       = binary_round prec emax false M ez
       /\ -1074 <= ez
       /\ Z.pos M * 2 ^ (ez + 1074) = V mx ex - V my ey.
Proof.
  intros Bx By Hle.
  destruct (bounded_facts mx ex Bx) as [Rx _].
  destruct (bounded_facts my ey By) as [Ry _].
  pose proof (shl_align_value mx ex (Z.min ex ey) ltac:(lia) ltac:(lia)) as Hx.
  pose proof (shl_align_value my ey (Z.min ex ey) ltac:(lia) ltac:(lia)) as Hy.
  assert (P : 0 < 2 ^ (Z.min ex ey + 1074)) by (apply Z.pow_pos_nonneg; lia).
  cbn [SFsub cond_Zopp].
  set (a := fst (shl_align mx ex (Z.min ex ey))) in *.
  set (b := fst (shl_align my ey (Z.min ex ey))) in *.
  destruct (Z.pos a - Z.pos b) as [| M | M] eqn:E.
  - left. split; [| reflexivity]. assert (Z.pos a = Z.pos b) by lia. nia.
  - right. exists M, (Z.min ex ey). split; [reflexivity |]. split; [lia |].
    rewrite <- E. rewrite Z.mul_sub_distr_r. lia.
  - exfalso. assert (Z.pos a < Z.pos b) by lia. nia.
Qed.

Lemma Prim2SF_one : Prim2SF 1 = S754_finite false 4503599627370496 (-52).
Proof. reflexivity. Qed.

Lemma Prim2SF_zero : Prim2SF 0 = S754_zero false.
Proof. reflexivity. Qed.

Lemma valid_finite (x : float) (s : bool) (m : positive) (e : Z) :
  Prim2SF x = S754_finite s m e -> bounded prec emax m e = true.
Proof.
  intro H. pose proof (Prim2SF_valid x) as Hv. rewrite H in Hv. exact Hv.
Qed.

Lemma unit_interval_of (x : float) :
  PrimFloat.leb 0 x = true -> PrimFloat.leb x 1 = true ->
  unit_interval (Prim2SF x).
Proof.
  rewrite !leb_spec, Prim2SF_one, Prim2SF_zero. unfold SFleb.
  destruct (Prim2SF x) as [s | s | | s m e] eqn:E; cbn [SFcompare].
  - intros _ _. left. now exists s.
  - destruct s; discriminate.
  - discriminate.
  - destruct s; [discriminate |]. intros _ H1.
    pose proof (valid_finite x _ _ _ E) as B.
    right. exists m, e. split; [reflexivity |]. split; [exact B |].
    change (match SFcompare (S754_finite false m e)
                    (S754_finite false 4503599627370496 (-52)) with
            | Some Eq | Some Lt => true
            | _ => false
            end = true) in H1.
    rewrite (SFcompare_V m _ e _ B one_is_bounded), V_one in H1.
    destruct (Z.compare_spec (V m e) (2 ^ 1074)); lia || discriminate.
Qed.

Lemma leb_of_V (x y : float) (m1 m2 : positive) (e1 e2 : Z) :
  Prim2SF x = S754_finite false m1 e1 -> Prim2SF y = S754_finite false m2 e2 ->
  V m1 e1 <= V m2 e2 -> PrimFloat.leb x y = true.
Proof.
  intros Hx Hy Hle. rewrite leb_spec, Hx, Hy. unfold SFleb.
  rewrite (SFcompare_V _ _ _ _ (valid_finite x _ _ _ Hx) (valid_finite y _ _ _ Hy)).
  destruct (Z.compare_spec (V m1 e1) (V m2 e2)); reflexivity || lia.
Qed.

Lemma V_of_ltb_false (x y : float) (m1 m2 : positive) (e1 e2 : Z) :
  Prim2SF x = S754_finite false m1 e1 -> Prim2SF y = S754_finite false m2 e2 ->
  PrimFloat.ltb x y = false -> V m2 e2 <= V m1 e1.
Proof.
  intros Hx Hy. rewrite ltb_spec, Hx, Hy. unfold SFltb.
  rewrite (SFcompare_V _ _ _ _ (valid_finite x _ _ _ Hx) (valid_finite y _ _ _ Hy)).
  destruct (Z.compare_spec (V m1 e1) (V m2 e2)); discriminate || lia.
Qed.

Lemma leb_zero_one (x : float) (s : bool) :
  Prim2SF x = S754_zero s -> in_unit x = true.
Proof.
  intro H. unfold in_unit. rewrite !leb_spec, H, Prim2SF_one, Prim2SF_zero.
  reflexivity.
Qed.

Lemma leb_zero_finite (x : float) (m : positive) (e : Z) :
  Prim2SF x = S754_finite false m e -> PrimFloat.leb 0 x = true.
Proof.
  intro H. rewrite leb_spec, H, Prim2SF_zero. reflexivity.
Qed.

(** The clamp: for edge between 0.0 and 1.0, [1.0 - edge] is between 0.0
    and 1.0 and adding edge to it gives 1.0 at most. *)
Lemma clamp_in_unit (e : float) :
  in_unit e = true ->
  in_unit (1 - e) = true /\ PrimFloat.leb ((1 - e) + e) 1 = true.
Proof.
  intro He. pose proof He as He'. unfold in_unit in He'.
  apply andb_true_iff in He'. destruct He' as [He0 He1].
  destruct (unit_interval_of e He0 He1) as [[s Hz] | [m [ee [Hf [B Hv]]]]].
  - (* edge is a zero *)
    assert (E1 : (1 - e)%float = 1%float).
    { apply Prim2SF_inj. rewrite sub_spec, Hz, Prim2SF_one. reflexivity. }
    rewrite E1. split; [reflexivity |].
    assert (E2 : (1 + e)%float = 1%float).
    { apply Prim2SF_inj. rewrite add_spec, Hz, Prim2SF_one. reflexivity. }
    rewrite E2. reflexivity.
  - pose proof (sub_spec 1 e) as Hs. rewrite Prim2SF_one, Hf in Hs.
    unfold SF64sub in Hs.
    destruct (SFsub_finite _ _ _ _ one_is_bounded B) as [[Heq Hsub] | [M [ez [Hsub [Hez HM]]]]].
    { rewrite V_one. exact Hv. }
    + (* edge is 1.0 *)
      rewrite Hsub in Hs.
      assert (E1 : (1 - e)%float = 0%float).
      { apply Prim2SF_inj. rewrite Hs, Prim2SF_zero. reflexivity. }
      rewrite E1. split; [reflexivity |].
      assert (E2 : (0 + e)%float = e).
      { apply Prim2SF_inj. rewrite add_spec, Prim2SF_zero, Hf. reflexivity. }
      rewrite E2. exact He1.
    + rewrite Hsub in Hs. rewrite V_one in HM.
      assert (Hlt : Z.pos M * 2 ^ (ez + 1074) < 2 ^ 1074).
      { destruct (bounded_facts m ee B) as [R _]. pose proof (V_pos m ee ltac:(lia)). lia. }
      destruct (round_error_below_one M ez Hez Hlt) as [m' [e' [Hfin [Hle Herr]]]].
      rewrite Hfin in Hs.
      split.
      * unfold in_unit. rewrite (leb_zero_finite _ _ _ Hs).
        rewrite (leb_of_V _ _ _ _ _ _ Hs Prim2SF_one) by (rewrite V_one; exact Hle).
        reflexivity.
      * pose proof (add_spec (1 - e) e) as Ha. rewrite Hs, Hf in Ha.
        unfold SF64add in Ha.
        destruct (SFadd_finite _ _ _ _ (valid_finite _ _ _ _ Hs) B)
          as [M2 [ez2 [Hadd [Hez2 HM2]]]].
        rewrite Hadd in Ha.
        destruct (round_just_above_one M2 ez2 Hez2) as [m2 [e2 [Hfin2 Hle2]]].
        { rewrite HM2. lia. }
        rewrite Hfin2 in Ha.
        apply (leb_of_V _ _ _ _ _ _ Ha Prim2SF_one). rewrite V_one. exact Hle2.
Qed.

Lemma ltb_one_infinity (x : float) :
  Prim2SF x = S754_infinity false -> PrimFloat.ltb 1 x = true.
Proof.
  intro H. rewrite ltb_spec, H, Prim2SF_one. reflexivity.
Qed.

(** Without the clamp: for agg not below 0.0 and edge between 0.0 and 1.0,
    a sum that is not above 1.0 is 1.0 at most, and so is agg. *)
Lemma sum_within_unit (a e : float) :
  PrimFloat.leb 0 a = true -> in_unit e = true ->
  PrimFloat.ltb 1 (a + e) = false ->
  PrimFloat.leb a 1 = true /\ PrimFloat.leb (a + e) 1 = true.
Proof.
  intros Ha He Hs. pose proof He as He'. unfold in_unit in He'.
  apply andb_true_iff in He'. destruct He' as [He0 He1].
  pose proof (add_spec a e) as Hadd. unfold SF64add in Hadd.
  pose proof Ha as Ha'. rewrite leb_spec, Prim2SF_zero in Ha'. unfold SFleb in Ha'.
  destruct (unit_interval_of e He0 He1) as [[se Hz] | [me [ee [Hf [Be Hv]]]]];
    destruct (Prim2SF a) as [sa | sa | | sa ma ea] eqn:EA;
    cbn [SFcompare] in Ha'; try discriminate;
    try (destruct sa; [discriminate |]).
  - (* zero + zero *)
    rewrite Hz in Hadd.
    assert (Hr : exists s, Prim2SF (a + e) = S754_zero s).
    { rewrite Hadd. destruct sa, se; cbn; eauto. }
    destruct Hr as [s Hr].
    pose proof (leb_zero_one _ _ EA) as U1. pose proof (leb_zero_one _ _ Hr) as U2.
    unfold in_unit in U1, U2. apply andb_true_iff in U1, U2. tauto.
  - (* infinity + zero *)
    rewrite Hz in Hadd. cbn in Hadd.
    rewrite (ltb_one_infinity _ Hadd) in Hs. discriminate.
  - (* finite + zero *)
    rewrite Hz in Hadd. cbn in Hadd.
    assert (E : (a + e)%float = a) by (apply Prim2SF_inj; congruence).
    rewrite E in *.
    pose proof (V_of_ltb_false _ _ _ _ _ _ Prim2SF_one EA Hs) as Hle.
    split; apply (leb_of_V _ _ _ _ _ _ EA Prim2SF_one Hle).
  - (* zero + finite *)
    rewrite Hf in Hadd. cbn in Hadd.
    assert (E : (a + e)%float = e) by (apply Prim2SF_inj; congruence).
    rewrite E.
    pose proof (leb_zero_one _ _ EA) as U1.
    unfold in_unit in U1. apply andb_true_iff in U1. tauto.
  - (* infinity + finite *)
    rewrite Hf in Hadd. cbn in Hadd.
    rewrite (ltb_one_infinity _ Hadd) in Hs. discriminate.
  - (* finite + finite *)
    pose proof (valid_finite a _ _ _ EA) as Ba.
    rewrite Hf in Hadd.
    destruct (SFadd_finite _ _ _ _ Ba Be) as [M [ez [Hround [Hez HM]]]].
    rewrite Hround in Hadd.
    destruct (round_above M ez Hez ma ea Ba) as [Hinf | [m [e2 [Hfin Hge]]]].
    { rewrite HM. destruct (bounded_facts me ee Be) as [R _].
      pose proof (V_pos me ee ltac:(lia)). lia. }
    + rewrite Hinf in Hadd. rewrite (ltb_one_infinity _ Hadd) in Hs. discriminate.
    + rewrite Hfin in Hadd.
      pose proof (V_of_ltb_false _ _ _ _ _ _ Prim2SF_one Hadd Hs) as Hle.
      split.
      * apply (leb_of_V _ _ _ _ _ _ EA Prim2SF_one). lia.
      * apply (leb_of_V _ _ _ _ _ _ Hadd Prim2SF_one Hle).
Qed.

End Rounding.

(** ** ETTrafficMatrix: what the constructor accepts *)

Section Construction.
Variables use_hw solver may_split_flows k plen xid : Z.
Import FloatOrder.

(** [ETTrafficMatrix(use_hw, solver, may_split_flows, k, d, e, a, plen, xid)]
    and the object it returns when it stores [a'] as [agg]. *)
#[local] Abbreviation new d e a :=
  (ETTrafficMatrix.init use_hw solver may_split_flows k d e a plen xid).
#[local] Abbreviation object d e a' :=
  (OK (ETTrafficMatrix.mk xid (bool_ use_hw) solver (bool_ may_split_flows) k
         d e a' plen)).

Lemma range_check_passes (d e a : float) :
  in_unit d = true -> in_unit e = true -> PrimFloat.leb 0 a = true ->
  new d e a
  = if ETTrafficMatrix.gtb (a + e)%float 1 then
      if ETTrafficMatrix.gtb (a + e)%float 1.01
      then Raise (Exception_ ETTrafficMatrix.sum_msg)
      else object d e (1 - e)%float
    else object d e a.
Proof.
  intros Hd He Ha. unfold ETTrafficMatrix.init.
  destruct (in_unit_passes d Hd) as [-> ->].
  destruct (in_unit_passes e He) as [-> ->].
  rewrite (leb_not_ltb 0 a Ha). reflexivity.
Qed.

Lemma range_check_raises (d e a : float) :
  outside_unit d = true \/ outside_unit e = true \/ PrimFloat.ltb a 0 = true ->
  new d e a = Raise (Exception_ ETTrafficMatrix.range_msg).
Proof.
  unfold ETTrafficMatrix.init, outside_unit, ETTrafficMatrix.gtb.
  intros [H | [H | H]].
  - apply orb_true_iff in H. destruct H as [-> | ->];
      rewrite ?orb_true_r; reflexivity.
  - apply orb_true_iff in H. destruct H as [-> | ->];
      rewrite ?orb_true_r; reflexivity.
  - rewrite H. rewrite ?orb_true_r. reflexivity.
Qed.

(** The sum decides alone once it is above the tolerance: whatever the
    range check says, the constructor raises. *)
Lemma sum_above_tolerance_raises (d e a : float) :
  ETTrafficMatrix.gtb (a + e)%float 1 = true ->
  ETTrafficMatrix.gtb (a + e)%float 1.01 = true ->
  raises (new d e a).
Proof.
  intros H1 H2. unfold ETTrafficMatrix.init. rewrite H1, H2.
  destruct (_ || _); eexists; reflexivity.
Qed.

Lemma within_unit_sum (d e a : float) :
  in_unit d = true -> in_unit e = true -> in_unit a = true ->
  PrimFloat.leb (a + e) 1 = true ->
  new d e a = object d e a.
Proof.
  intros Hd He Ha Hs.
  assert (Ha0 : PrimFloat.leb 0 a = true).
  { unfold in_unit in Ha. apply andb_true_iff in Ha. tauto. }
  rewrite (range_check_passes d e a Hd He Ha0).
  unfold ETTrafficMatrix.gtb. now rewrite (leb_not_ltb _ _ Hs).
Qed.

(** C3: the constructor succeeds, with the fields as given, when demand,
    edge and agg are in the closed interval from 0.0 to 1.0 and agg + edge
    is at most 1.0, in particular with demand, edge or agg at exactly 0.0 or
    1.0 and with agg + edge = 1.0; it succeeds with agg replaced by
    1.0 - edge when agg + edge = 1.005; it raises when agg + edge = 1.02,
    and when demand or edge is below 0.0 or above 1.0 or agg is below
    0.0. *)
Theorem construction_cases :
  (forall b e a : float,
      b = 0%float \/ b = 1%float ->
      in_unit e = true -> in_unit a = true -> PrimFloat.leb (a + e) 1 = true ->
      new b e a = object b e a)
  /\ (forall b d a : float,
         b = 0%float \/ b = 1%float ->
         in_unit d = true -> in_unit a = true -> PrimFloat.leb (a + b) 1 = true ->
         new d b a = object d b a)
  /\ (forall b d e : float,
         b = 0%float \/ b = 1%float ->
         in_unit d = true -> in_unit e = true -> PrimFloat.leb (b + e) 1 = true ->
         new d e b = object d e b)
  /\ (forall d e a : float,
         in_unit d = true -> in_unit e = true -> in_unit a = true ->
         (a + e)%float = 1%float ->
         new d e a = object d e a)
  /\ (forall d e a : float,
         in_unit d = true -> in_unit e = true -> in_unit a = true ->
         (a + e)%float = 1.005%float ->
         new d e a = object d e (1 - e)%float)
  /\ (forall d e a : float,
         (a + e)%float = 1.02%float -> raises (new d e a))
  /\ (forall d e a : float,
         outside_unit d = true \/ outside_unit e = true \/ PrimFloat.ltb a 0 = true ->
         raises (new d e a)).
Proof.
  assert (Hb : forall b : float, b = 0%float \/ b = 1%float -> in_unit b = true)
    by (intros b [-> | ->]; reflexivity).
  repeat split.
  - intros b e a H He Ha Hs. apply within_unit_sum; auto.
  - intros b d a H Hd Ha Hs. apply within_unit_sum; auto.
  - intros b d e H Hd He Hs. apply within_unit_sum; auto.
  - intros d e a Hd He Ha Hs. apply within_unit_sum; auto.
    rewrite Hs. reflexivity.
  - intros d e a Hd He Ha Hs.
    assert (Ha0 : PrimFloat.leb 0 a = true).
    { unfold in_unit in Ha. apply andb_true_iff in Ha. tauto. }
    rewrite (range_check_passes d e a Hd He Ha0), Hs. reflexivity.
  - intros d e a Hs. apply sum_above_tolerance_raises; rewrite Hs; reflexivity.
  - intros d e a H. rewrite (range_check_raises d e a H). eexists; reflexivity.
Qed.

End Construction.

Lemma construction_cases_witness :
  let new := ETTrafficMatrix.init 1 3 0 4 in
  let object := ETTrafficMatrix.mk 7 true 3 false 4 in
  (in_unit 0.5 = true /\ in_unit 0 = true /\ in_unit 0.505 = true)
  /\ (PrimFloat.leb (0.5 + 0.5) 1 = true /\ PrimFloat.leb (0 + 1) 1 = true
      /\ PrimFloat.leb (1 + 0) 1 = true)
  /\ ((0.505 + 0.5)%float = 1.005%float /\ (0.52 + 0.5)%float = 1.02%float
      /\ outside_unit 1.5 = true)
  /\ new 1%float 0.5%float 0.5%float 0 7 = OK (object 1%float 0.5%float 0.5%float 0)
  /\ new 0.5%float 1%float 0%float 0 7 = OK (object 0.5%float 1%float 0%float 0)
  /\ new 0.5%float 0%float 1%float 0 7 = OK (object 0.5%float 0%float 1%float 0)
  /\ new 0.5%float 0.5%float 0.5%float 0 7 = OK (object 0.5%float 0.5%float 0.5%float 0)
  /\ new 0.5%float 0.5%float 0.505%float 0 7
     = OK (object 0.5%float 0.5%float (1 - 0.5)%float 0)
  /\ raises (new 0.5%float 0.5%float 0.52%float 0 7)
  /\ raises (new 1.5%float 0.5%float 0.5%float 0 7).
Proof.
  cbv zeta.
  destruct (construction_cases 1 3 0 4 0 7)
    as [Hdemand [Hedge [Hagg [Hone [Hclamp [Hover Hrange]]]]]].
  assert (U5 : in_unit 0.5 = true) by reflexivity.
  assert (U0 : in_unit 0 = true) by reflexivity.
  assert (U505 : in_unit 0.505 = true) by reflexivity.
  assert (S1 : PrimFloat.leb (0.5 + 0.5) 1 = true) by reflexivity.
  assert (S2 : PrimFloat.leb (0 + 1) 1 = true) by reflexivity.
  assert (S3 : PrimFloat.leb (1 + 0) 1 = true) by reflexivity.
  assert (E5 : (0.505 + 0.5)%float = 1.005%float) by reflexivity.
  assert (E2 : (0.52 + 0.5)%float = 1.02%float) by reflexivity.
  assert (O : outside_unit 1.5 = true) by reflexivity.
  split; [repeat split; assumption |].
  split; [repeat split; assumption |].
  split; [repeat split; assumption |].
  split; [exact (Hdemand 1%float 0.5%float 0.5%float (or_intror eq_refl) U5 U5 S1) |].
  split; [exact (Hedge 1%float 0.5%float 0%float (or_intror eq_refl) U5 U0 S2) |].
  split; [exact (Hagg 1%float 0.5%float 0%float (or_intror eq_refl) U5 U0 S3) |].
  split; [exact (Hone 0.5%float 0.5%float 0.5%float U5 U5 U5 eq_refl) |].
  split; [exact (Hclamp 0.5%float 0.5%float 0.505%float U5 U5 U505 E5) |].
  split; [exact (Hover 0.5%float 0.5%float 0.52%float E2) |].
  exact (Hrange 1.5%float 0.5%float 0.5%float (or_introl O)).
Defined.

(** ** ETTrafficMatrix: what a constructed message satisfies *)

Section Invariant.
Import FloatOrder.

(** For demand, edge and agg that are numbers, the range check does its
    work: a constructed message has demand and edge in the closed interval
    from 0.0 to 1.0, and its agg is either the one given, not below 0.0 and
    with a sum of at most 1.0, or 1.0 - edge. *)
Lemma numbers_are_checked (use_hw solver may_split_flows k plen xid : Z)
    (d e a : float) (m : ETTrafficMatrix.t) :
  PrimFloat.eqb d d = true -> PrimFloat.eqb e e = true -> PrimFloat.eqb a a = true ->
  ETTrafficMatrix.init use_hw solver may_split_flows k d e a plen xid = OK m ->
  in_unit (ETTrafficMatrix.demand m) = true
  /\ in_unit (ETTrafficMatrix.edge m) = true
  /\ ((ETTrafficMatrix.agg m = a /\ PrimFloat.leb 0 a = true
       /\ ETTrafficMatrix.gtb (a + e)%float 1 = false)
      \/ ETTrafficMatrix.agg m = (1 - e)%float).
Proof.
  intros Nd Ne Na. unfold ETTrafficMatrix.init, ETTrafficMatrix.gtb.
  assert (N0 : PrimFloat.eqb 0 0 = true) by reflexivity.
  assert (N1 : PrimFloat.eqb 1 1 = true) by reflexivity.
  destruct (PrimFloat.ltb d 0) eqn:Hd0; [discriminate |].
  destruct (PrimFloat.ltb 1 d) eqn:Hd1; [discriminate |].
  destruct (PrimFloat.ltb e 0) eqn:He0; [discriminate |].
  destruct (PrimFloat.ltb 1 e) eqn:He1; [discriminate |].
  destruct (PrimFloat.ltb a 0) eqn:Ha0; [discriminate |].
  cbn [orb].
  assert (Ud : in_unit d = true).
  { unfold in_unit. rewrite (not_ltb_leb d 0 Nd N0 Hd0), (not_ltb_leb 1 d N1 Nd Hd1).
    reflexivity. }
  assert (Ue : in_unit e = true).
  { unfold in_unit. rewrite (not_ltb_leb e 0 Ne N0 He0), (not_ltb_leb 1 e N1 Ne He1).
    reflexivity. }
  destruct (PrimFloat.ltb 1 (a + e)) eqn:Hs.
  - destruct (PrimFloat.ltb 1.01 (a + e)); [discriminate |].
    intro H. injection H as <-. cbn. repeat split; auto.
  - intro H. injection H as <-. cbn. repeat split; auto.
    left. repeat split. apply (not_ltb_leb a 0 Na N0 Ha0).
Qed.

(** For demand, edge and agg that are numbers the claimed invariant holds
    in full: a constructed message has demand, edge and agg in the closed
    interval from 0.0 to 1.0 and agg + edge at most 1.0, and its agg is the
    one given or, when the clamp fires, exactly 1.0 - edge. *)
Lemma numbers_satisfy_invariant (use_hw solver may_split_flows k plen xid : Z)
    (d e a : float) (m : ETTrafficMatrix.t) :
  PrimFloat.eqb d d = true -> PrimFloat.eqb e e = true -> PrimFloat.eqb a a = true ->
  ETTrafficMatrix.init use_hw solver may_split_flows k d e a plen xid = OK m ->
  in_unit (ETTrafficMatrix.demand m) = true
  /\ in_unit (ETTrafficMatrix.edge m) = true
  /\ in_unit (ETTrafficMatrix.agg m) = true
  /\ PrimFloat.leb (ETTrafficMatrix.agg m + ETTrafficMatrix.edge m) 1 = true
  /\ (ETTrafficMatrix.agg m = a \/ ETTrafficMatrix.agg m = (1 - e)%float).
Proof.
  intros Nd Ne Na H.
  assert (Em : ETTrafficMatrix.edge m = e).
  { revert H. unfold ETTrafficMatrix.init.
    repeat match goal with
           | |- context [if ?c then _ else _] => destruct c
           end; intro H; try discriminate; injection H as <-; reflexivity. }
  destruct (numbers_are_checked _ _ _ _ _ _ d e a m Nd Ne Na H)
    as [Ud [Ue [[Ha [Ha0 Hs]] | Hc]]].
  - rewrite Em in *. rewrite Ha.
    destruct (Rounding.sum_within_unit a e Ha0 Ue Hs) as [Ha1 Hsum].
    repeat split; auto. unfold in_unit. now rewrite Ha0, Ha1.
  - rewrite Em in *. rewrite Hc.
    destruct (Rounding.clamp_in_unit e Ue) as [Uc Hsum].
    repeat split; auto.
Qed.

End Invariant.

(** C10 fails on a demand, edge or agg that is not a number: every
    comparison with a NaN is false, so the range check and the sum check let
    it through.  The constructor returns a message whose demand is NaN, and
    one whose agg is NaN; neither is in the closed interval from 0.0 to 1.0.
    Such a value can come off the wire: the four bytes 7f c0 00 00 unpack to
    a NaN, and [unpack] returns the message that carries it. *)
Theorem nan_passes_the_range_check :
  ETTrafficMatrix.init 1 3 0 4 nan 0.5 0.25 0 7
    = OK (ETTrafficMatrix.mk 7 true 3 false 4 nan 0.5 0.25 0)
  /\ ETTrafficMatrix.init 1 3 0 4 0.5 0.5 nan 0 7
    = OK (ETTrafficMatrix.mk 7 true 3 false 4 0.5 0.5 nan 0)
  /\ in_unit nan = false
  /\ ETTrafficMatrix.unpack
       ([x00; x00; x00; x07] ++ [x01; x03; x00] ++ [x00; x00; x00; x04]
        ++ [x7f; xc0; x00; x00] ++ [x3f; x00; x00; x00] ++ [x3e; x80; x00; x00]
        ++ [x00; x00; x00; x00])
    = OK (ETTrafficMatrix.mk 7 true 3 false 4 nan 0.5 0.25 0).
Proof.
  repeat split; vm_compute; reflexivity.
Qed.

(** ** More on the [struct] codec: decoding then encoding *)

Module StructMore.
Import Struct StructFacts.

Lemma pack_uint_cases (n : nat) (v : Z) :
  (0 <= v < 256 ^ Z.of_nat n /\ pack_uint n v = OK (be_bytes n v))
  \/ (~ 0 <= v < 256 ^ Z.of_nat n /\ pack_uint n v = Raise struct_error).
Proof.
  unfold pack_uint.
  destruct (Z.leb_spec 0 v); destruct (Z.ltb_spec v (256 ^ Z.of_nat n)); cbn [andb];
    (left; split; [lia | reflexivity]) || (right; split; [lia | reflexivity]).
Qed.

Lemma pack_uint_inv (n : nat) (v : Z) (s : bytes) :
  pack_uint n v = OK s -> 0 <= v < 256 ^ Z.of_nat n /\ s = be_bytes n v.
Proof.
  destruct (pack_uint_cases n v) as [[H ->] | [H ->]]; intro E;
    [split; [exact H | congruence] | discriminate].
Qed.

Lemma fold_split (s : bytes) (acc : Z) :
  fold_left (fun a b => a * 256 + Z_of_byte b) s acc
  = acc * 256 ^ Z.of_nat (List.length s) + be_int s.
Proof.
  unfold be_int. revert acc. induction s as [| b t IH]; intro acc.
  - simpl. lia.
  - cbn [fold_left List.length]. rewrite IH, (IH (0 * 256 + Z_of_byte b)).
    rewrite Nat2Z.inj_succ, Z.pow_succ_r by lia. ring.
Qed.

Lemma be_int_cons (b : byte) (t : bytes) :
  be_int (b :: t) = Z_of_byte b * 256 ^ Z.of_nat (List.length t) + be_int t.
Proof.
  unfold be_int at 1. cbn [fold_left]. rewrite fold_split. ring.
Qed.

(** An [n]-byte string decodes to a value of [n] bytes. *)
Lemma be_int_range (s : bytes) :
  0 <= be_int s < 256 ^ Z.of_nat (List.length s).
Proof.
  induction s as [| b t IH].
  - cbn. lia.
  - rewrite be_int_cons. cbn [List.length].
    rewrite Nat2Z.inj_succ, Z.pow_succ_r by lia.
    pose proof (Z_of_byte_range b).
    assert (0 < 256 ^ Z.of_nat (List.length t)) by (apply Z.pow_pos_nonneg; lia).
    nia.
Qed.

Lemma byte_of_Z_add (z k : Z) : byte_of_Z (z + k * 256) = byte_of_Z z.
Proof.
  unfold byte_of_Z. now rewrite Z.mod_add by lia.
Qed.

Lemma be_bytes_mod (n : nat) (v k : Z) :
  be_bytes n (v + k * 256 ^ Z.of_nat n) = be_bytes n v.
Proof.
  revert k. induction n as [| n IH]; intro k; [reflexivity |].
  cbn [be_bytes].
  assert (Hp : 0 < 256 ^ Z.of_nat n) by (apply Z.pow_pos_nonneg; lia).
  rewrite Nat2Z.inj_succ, Z.pow_succ_r by lia.
  replace (v + k * (256 * 256 ^ Z.of_nat n))
    with (v + (k * 256) * 256 ^ Z.of_nat n) by ring.
  rewrite Z.div_add by lia. rewrite byte_of_Z_add. f_equal. apply IH.
Qed.

(** Encoding what was decoded gives the bytes back. *)
Lemma be_bytes_be_int (s : bytes) : be_bytes (List.length s) (be_int s) = s.
Proof.
  induction s as [| b t IH]; [reflexivity |].
  cbn [List.length be_bytes]. rewrite be_int_cons.
  pose proof (be_int_range t) as R.
  assert (Hp : 0 < 256 ^ Z.of_nat (List.length t)) by (apply Z.pow_pos_nonneg; lia).
  f_equal.
  - rewrite Z.add_comm, Z.div_add by lia. rewrite Z.div_small by exact R.
    apply byte_of_Z_of_byte.
  - rewrite Z.add_comm, be_bytes_mod. exact IH.
Qed.

Lemma pack_uint_be_int (n : nat) (s : bytes) :
  List.length s = n -> pack_uint n (be_int s) = OK s.
Proof.
  intros <-. rewrite pack_uint_ok by apply be_int_range.
  now rewrite be_bytes_be_int.
Qed.

Lemma upto_add (a b : nat) (s : bytes) :
  upto (a + b) s = upto a s ++ upto b (from a s).
Proof.
  unfold upto, from. revert s. induction a as [| a IH]; intro s; [reflexivity |].
  destruct s as [| x s]; cbn [Nat.add firstn skipn app].
  - now rewrite firstn_nil.
  - now rewrite IH.
Qed.

Lemma from_from (a b : nat) (s : bytes) : from a (from b s) = from (b + a) s.
Proof.
  unfold from. rewrite skipn_skipn. f_equal. lia.
Qed.

(** A slice that lies inside [s] does not see what is appended to [s]. *)
Lemma slice_app (j k : nat) (s rest : bytes) :
  (j + k <= List.length s)%nat ->
  upto k (from j (s ++ rest)) = upto k (from j s).
Proof.
  intro H. unfold upto, from.
  rewrite skipn_app. replace (j - List.length s)%nat with 0%nat by lia.
  cbn [skipn]. rewrite firstn_app, length_skipn.
  replace (k - (List.length s - j))%nat with 0%nat by lia.
  cbn [firstn]. apply app_nil_r.
Qed.

Lemma upto_app_inside (k : nat) (s rest : bytes) :
  (k <= List.length s)%nat -> upto k (s ++ rest) = upto k s.
Proof.
  intro H. apply (slice_app 0 k s rest). lia.
Qed.

End StructMore.

(** ** Round trips of the integer messages *)

Section IntegerRoundTrips.
Import Struct StructFacts IntFacts StructMore Truncation.

(** X1: an [ETPowerUsage] whose four fields fit 32 bits packs to 16 bytes,
    and unpacking them returns the same message, [watts_max] included. *)
Theorem ETPowerUsage_pack_then_unpack (m : ETPowerUsage.t) :
  u32 (ETPowerUsage.xid m) -> u32 (ETPowerUsage.watts_current m) ->
  u32 (ETPowerUsage.watts_traditional m) -> u32 (ETPowerUsage.watts_max m) ->
  exists s, ETPowerUsage.pack m = OK s
            /\ List.length s = 16%nat
            /\ ETPowerUsage.unpack s = OK m.
Proof.
  intros Hx Hc Ht Hm.
  eexists. split; [exact (RoundTrip.ETPowerUsage_pack m Hx Hc Ht Hm) |].
  split; [rewrite !length_app, !be_bytes_length; reflexivity |].
  rewrite (RoundTrip.ETPowerUsage_unpack _ _ _ _ Hx Hc Ht Hm).
  now destruct m.
Qed.

(** X4: an [ETSwitchFailureChange] whose xid fits 32 bits and whose dpid
    fits 64 bits packs to 13 bytes, and unpacking them returns the same
    message: xid, dpid and the [failed] flag. *)
Theorem ETSwitchFailureChange_pack_then_unpack (m : ETSwitchFailureChange.t) :
  u32 (ETSwitchFailureChange.xid m) -> u64 (ETSwitchFailureChange.dpid m) ->
  exists s, ETSwitchFailureChange.pack m = OK s
            /\ List.length s = 13%nat
            /\ ETSwitchFailureChange.unpack s = OK m.
Proof.
  intros Hx Hd.
  eexists. split; [exact (RoundTrip.ETSwitchFailureChange_pack m Hx Hd) |].
  split; [rewrite !length_app, !be_bytes_length; reflexivity |].
  rewrite (RoundTrip.ETSwitchFailureChange_unpack _ _ _ Hx Hd (u8_flag _)).
  destruct m as [x d f]; cbn. now destruct f.
Qed.

End IntegerRoundTrips.

Lemma ETPowerUsage_pack_then_unpack_witness :
  let m := ETPowerUsage.mk 9 120 300 450 in
  u32 9 /\ u32 120 /\ u32 300 /\ u32 450
  /\ exists s, ETPowerUsage.pack m = OK s
               /\ List.length s = 16%nat
               /\ ETPowerUsage.unpack s = OK m.
Proof.
  assert (H9 : u32 9) by (unfold u32; lia).
  assert (H120 : u32 120) by (unfold u32; lia).
  assert (H300 : u32 300) by (unfold u32; lia).
  assert (H450 : u32 450) by (unfold u32; lia).
  split; [exact H9 | split; [exact H120 | split; [exact H300 | split; [exact H450 |]]]].
  exact (ETPowerUsage_pack_then_unpack (ETPowerUsage.mk 9 120 300 450) H9 H120 H300 H450).
Defined.

Lemma ETSwitchFailureChange_pack_then_unpack_witness :
  let m := ETSwitchFailureChange.mk 9 (2 ^ 63) true in
  u32 9 /\ u64 (2 ^ 63)
  /\ exists s, ETSwitchFailureChange.pack m = OK s
               /\ List.length s = 13%nat
               /\ ETSwitchFailureChange.unpack s = OK m.
Proof.
  assert (H9 : u32 9) by (unfold u32; lia).
  assert (Hd : u64 (2 ^ 63)) by (unfold u64; lia).
  split; [exact H9 | split; [exact Hd |]].
  exact (ETSwitchFailureChange_pack_then_unpack (ETSwitchFailureChange.mk 9 (2 ^ 63) true) H9 Hd).
Defined.

Lemma ETLatency_roundtrip_witness :
  let m := ETLatency.mk 9 1 2 3 in
  u32 9 /\ u32 1 /\ u32 2 /\ u32 3
  /\ exists s, ETLatency.pack m = OK s /\ ETLatency.unpack s = OK m.
Proof.
  assert (H9 : u32 9) by (unfold u32; lia).
  assert (H1 : u32 1) by (unfold u32; lia).
  assert (H2 : u32 2) by (unfold u32; lia).
  assert (H3 : u32 3) by (unfold u32; lia).
  split; [exact H9 | split; [exact H1 | split; [exact H2 | split; [exact H3 |]]]].
  exact (RoundTrip.ETLatency_roundtrip (ETLatency.mk 9 1 2 3) H9 H1 H2 H3).
Defined.

Lemma ETSwitchesRequest_roundtrip_witness :
  let m := ETSwitchesRequest.mk 9 4 in
  u32 9 /\ u32 4
  /\ exists s, ETSwitchesRequest.pack m = OK s /\ ETSwitchesRequest.unpack s = OK m.
Proof.
  assert (H9 : u32 9) by (unfold u32; lia).
  assert (H4 : u32 4) by (unfold u32; lia).
  split; [exact H9 | split; [exact H4 |]].
  exact (RoundTrip.ETSwitchesRequest_roundtrip (ETSwitchesRequest.mk 9 4) H9 H4).
Defined.

(** ** When [pack] returns *)

Section PackReturns.
Context {L : LinkClass}.
Import Struct StructFacts StructMore Truncation.

Lemma pack_u8_cases (v : Z) :
  (u8 v /\ pack_uint 1 v = OK (be_bytes 1 v))
  \/ (~ u8 v /\ pack_uint 1 v = Raise struct_error).
Proof. exact (pack_uint_cases 1 v). Qed.

Lemma pack_u32_cases (v : Z) :
  (u32 v /\ pack_uint 4 v = OK (be_bytes 4 v))
  \/ (~ u32 v /\ pack_uint 4 v = Raise struct_error).
Proof. exact (pack_uint_cases 4 v). Qed.

Lemma pack_u64_cases (v : Z) :
  (u64 v /\ pack_uint 8 v = OK (be_bytes 8 v))
  \/ (~ u64 v /\ pack_uint 8 v = Raise struct_error).
Proof. exact (pack_uint_cases 8 v). Qed.

Lemma pack_flag (b : bool) :
  pack_uint 1 (if b then 1 else 0) = OK (be_bytes 1 (if b then 1 else 0)).
Proof. now destruct b. Qed.

Lemma pack_int_of_bool (b : bool) :
  pack_uint 1 (int_of_bool b) = OK (be_bytes 1 (int_of_bool b)).
Proof. now destruct b. Qed.

Lemma returns_OK {A : Type} (a : A) : returns (OK a).
Proof. now exists a. Qed.

(** Decide every integer field that [pack] writes, one after the other. *)
Ltac decide_fields :=
  rewrite ?pack_flag, ?pack_int_of_bool;
  repeat match goal with
         | |- context [pack_uint 1 ?v] =>
             destruct (pack_u8_cases v) as [[? ->] | [? ->]]; cbn [bind]
         | |- context [pack_uint 4 ?v] =>
             destruct (pack_u32_cases v) as [[? ->] | [? ->]]; cbn [bind]
         | |- context [pack_uint 8 ?v] =>
             destruct (pack_u64_cases v) as [[? ->] | [? ->]]; cbn [bind]
         end.

(** X5: [pack] raises whenever an integer field of the message does not
    fit the wire field it is written to (a [struct.error] from
    [struct.pack]); for the classes whose fields are all integers it returns
    whenever they all fit. *)
Theorem pack_returns_when_fields_fit (m : message) :
  (~ ints_fit m -> raises (pack m))
  /\ (int_only (class_of m) = true -> ints_fit m -> returns (pack m)).
Proof.
  split.
  - intro Hn. destruct m as [m | m | m | m | m | m | m | m | m];
      cbn [pack ints_fit] in *.
    + unfold ETTrafficMatrix.pack, ETTrafficMatrix.pack_body, OFGMessage.pack.
      decide_fields; try apply raises_Raise;
        repeat match goal with
               | |- context [pack_f ?x] =>
                   destruct (pack_f x); cbn [bind]; try apply raises_Raise
               end;
        decide_fields; try apply raises_Raise; tauto.
    + unfold ETLinkUtils.pack, OFGMessage.pack.
      decide_fields; try apply raises_Raise; tauto.
    + unfold ETPowerUsage.pack, OFGMessage.pack.
      decide_fields; try apply raises_Raise; tauto.
    + unfold ETBandwidth.pack, OFGMessage.pack.
      decide_fields; try apply raises_Raise; tauto.
    + unfold ETLatency.pack, OFGMessage.pack.
      decide_fields; try apply raises_Raise; tauto.
    + unfold ETSwitchesRequest.pack, OFGMessage.pack.
      decide_fields; try apply raises_Raise; tauto.
    + unfold ETSwitchFailureChange.pack, OFGMessage.pack.
      decide_fields; try apply raises_Raise; tauto.
    + unfold ETLinkFailureChange.pack, OFGMessage.pack.
      decide_fields; try apply raises_Raise; tauto.
    + unfold ETComputationDone.pack, OFGMessage.pack.
      decide_fields; try apply raises_Raise; tauto.
  - intros Hc Hf. destruct m as [m | m | m | m | m | m | m | m | m];
      cbn [class_of int_only] in Hc; try discriminate; cbn [pack ints_fit] in *.
    + unfold ETPowerUsage.pack, OFGMessage.pack.
      decide_fields; try apply returns_OK; tauto.
    + unfold ETBandwidth.pack, OFGMessage.pack.
      decide_fields; try apply returns_OK; tauto.
    + unfold ETLatency.pack, OFGMessage.pack.
      decide_fields; try apply returns_OK; tauto.
    + unfold ETSwitchesRequest.pack, OFGMessage.pack.
      decide_fields; try apply returns_OK; tauto.
    + unfold ETSwitchFailureChange.pack, OFGMessage.pack.
      decide_fields; try apply returns_OK; tauto.
    + unfold ETComputationDone.pack, OFGMessage.pack.
      decide_fields; try apply returns_OK; tauto.
Qed.

End PackReturns.

Lemma pack_returns_when_fields_fit_witness :
  let bad := @PowerUsage BaseLink.link_class (ETPowerUsage.mk 9 120 300 (2 ^ 32)) in
  let good := @Latency BaseLink.link_class (ETLatency.mk 9 1 2 3) in
  ~ ints_fit bad
  /\ int_only (class_of good) = true
  /\ ints_fit good
  /\ raises (pack bad)
  /\ returns (pack good).
Proof.
  intros bad good.
  assert (Hbad : ~ ints_fit bad) by (cbn; unfold u32; lia).
  assert (Hc : int_only (class_of good) = true) by reflexivity.
  assert (Hgood : ints_fit good) by (cbn; unfold u32; lia).
  split; [exact Hbad | split; [exact Hc | split; [exact Hgood |]]].
  split.
  - exact (proj1 (pack_returns_when_fields_fit bad) Hbad).
  - exact (proj2 (pack_returns_when_fields_fit good) Hc Hgood).
Defined.

(** ** When [unpack] returns, and what it looks at *)

Section UnpackReads.
Context {L : LinkClass}.
Import Struct StructFacts StructMore Truncation.

Lemma not_both {A : Type} (r : result A) : raises r -> returns r -> False.
Proof. intros [e ->] [a H]. discriminate. Qed.

Lemma returns_fmap {A B : Type} (f : A -> B) (r : result A) :
  returns r -> returns (fmap f r).
Proof. intros [a ->]. now exists (f a). Qed.

Lemma returns_fmap_inv {A B : Type} (f : A -> B) (r : result A) :
  returns (fmap f r) -> returns r.
Proof. destruct r as [a | e]; intros [b H]; [now exists a | discriminate]. Qed.

(** Read every field of a body that is long enough. *)
Ltac enough_bytes :=
  repeat (rewrite ?unpack_uint_upto, ?length_from);
  repeat match goal with
         | |- context [Nat.leb ?a ?b] =>
             replace (Nat.leb a b) with true by (symmetry; apply Nat.leb_le; lia);
             cbn [bind]
         end.

(** X6: for the classes whose fields are all integers, [unpack] returns a
    message exactly when the body has at least the bytes of the layout; it
    never rejects a body for the values it holds. *)
Theorem int_only_unpack_returns_iff (c : class) (n : Z) (body : bytes) :
  int_only c = true ->
  fixed_layout c = Some n ->
  (returns (unpack c body) <-> n <= Z.of_nat (List.length body)).
Proof.
  intros Hc Hn.
  destruct c; cbn [int_only] in Hc; try discriminate;
    unfold fixed_layout, OFGMessage.SIZE in Hn;
    match type of Hn with
    | Some ?v = Some _ => assert (E : n = v) by congruence
    end; subst n; cbn [unpack]; split.
  - intro R. apply returns_fmap_inv in R.
    destruct (Z_le_gt_dec (4 + 12) (Z.of_nat (List.length body))); [assumption |].
    exfalso. apply (not_both _ (ETPowerUsage_short body ltac:(lia)) R).
  - intro H. apply returns_fmap. unfold ETPowerUsage.unpack.
    enough_bytes. apply returns_OK.
  - intro R. apply returns_fmap_inv in R.
    destruct (Z_le_gt_dec (4 + 4) (Z.of_nat (List.length body))); [assumption |].
    exfalso. apply (not_both _ (ETBandwidth_short body ltac:(lia)) R).
  - intro H. apply returns_fmap. unfold ETBandwidth.unpack.
    enough_bytes. apply returns_OK.
  - intro R. apply returns_fmap_inv in R.
    destruct (Z_le_gt_dec (4 + 12) (Z.of_nat (List.length body))); [assumption |].
    exfalso. apply (not_both _ (ETLatency_short body ltac:(lia)) R).
  - intro H. apply returns_fmap. unfold ETLatency.unpack.
    enough_bytes. apply returns_OK.
  - intro R. apply returns_fmap_inv in R.
    destruct (Z_le_gt_dec (4 + 4) (Z.of_nat (List.length body))); [assumption |].
    exfalso. apply (not_both _ (ETSwitchesRequest_short body ltac:(lia)) R).
  - intro H. apply returns_fmap. unfold ETSwitchesRequest.unpack.
    enough_bytes. apply returns_OK.
  - intro R. apply returns_fmap_inv in R.
    destruct (Z_le_gt_dec (4 + 8 + 1) (Z.of_nat (List.length body))); [assumption |].
    exfalso. apply (not_both _ (ETSwitchFailureChange_short body ltac:(lia)) R).
  - intro H. apply returns_fmap. unfold ETSwitchFailureChange.unpack.
    enough_bytes. apply returns_OK.
  - intro R. apply returns_fmap_inv in R.
    destruct (Z_le_gt_dec (4 + 4) (Z.of_nat (List.length body))); [assumption |].
    exfalso. apply (not_both _ (ETComputationDone_short body ltac:(lia)) R).
  - intro H. apply returns_fmap. unfold ETComputationDone.unpack.
    enough_bytes. apply returns_OK.
Qed.

End UnpackReads.

Lemma int_only_unpack_returns_iff_witness :
  let body := [x00; x00; x00; x07; x00; x00; x00; x05] in
  int_only ETBandwidth_ = true
  /\ @fixed_layout BaseLink.link_class ETBandwidth_ = Some 8
  /\ (returns (@unpack BaseLink.link_class ETBandwidth_ body)
      <-> 8 <= Z.of_nat (List.length body)).
Proof.
  intro body.
  assert (Hc : int_only ETBandwidth_ = true) by reflexivity.
  assert (Hn : @fixed_layout BaseLink.link_class ETBandwidth_ = Some 8) by reflexivity.
  split; [exact Hc | split; [exact Hn |]].
  exact (@int_only_unpack_returns_iff BaseLink.link_class ETBandwidth_ 8 body Hc Hn).
Defined.

Section TrailingBytes.
Context {L : LinkClass}.
Import Struct StructFacts StructMore Truncation.

(** Bring every slice of [body ++ rest] back to the slice of [body]. *)
Ltac inside :=
  cbv zeta; rewrite ?from_from;
  rewrite ?upto_app_inside by lia;
  rewrite ?slice_app by lia.

(** X7: for a class with a fixed layout, [unpack] looks at the bytes of the
    layout only: whatever follows them in the body changes neither the
    message it returns nor the exception it raises. *)
Theorem fixed_layout_ignores_trailing (c : class) (n : Z) (body rest : bytes) :
  fixed_layout c = Some n ->
  n <= Z.of_nat (List.length body) ->
  unpack c (body ++ rest) = unpack c body.
Proof.
  intros Hn Hlen.
  destruct c; unfold fixed_layout, OFGMessage.SIZE in Hn; try discriminate;
    match type of Hn with
    | Some ?v = Some _ => assert (E : n = v) by congruence
    end; subst n; cbn [unpack]; f_equal.
  - unfold ETTrafficMatrix.unpack. inside. reflexivity.
  - unfold ETPowerUsage.unpack. inside. reflexivity.
  - unfold ETBandwidth.unpack. inside. reflexivity.
  - unfold ETLatency.unpack. inside. reflexivity.
  - unfold ETSwitchesRequest.unpack. inside. reflexivity.
  - unfold ETSwitchFailureChange.unpack. inside. reflexivity.
  - unfold ETLinkFailureChange.unpack. inside. reflexivity.
  - unfold ETComputationDone.unpack. inside. reflexivity.
Qed.

End TrailingBytes.

Lemma fixed_layout_ignores_trailing_witness :
  let body := [x00; x00; x00; x07; x00; x00; x00; x05] in
  let rest := [xff; xff; xff] in
  @fixed_layout BaseLink.link_class ETSwitchesRequest_ = Some 8
  /\ 8 <= Z.of_nat (List.length body)
  /\ @unpack BaseLink.link_class ETSwitchesRequest_ (body ++ rest)
     = @unpack BaseLink.link_class ETSwitchesRequest_ body.
Proof.
  intros body rest.
  assert (Hn : @fixed_layout BaseLink.link_class ETSwitchesRequest_ = Some 8)
    by reflexivity.
  assert (Hl : 8 <= Z.of_nat (List.length body)) by (cbn; lia).
  split; [exact Hn | split; [exact Hl |]].
  exact (@fixed_layout_ignores_trailing BaseLink.link_class ETSwitchesRequest_ 8
           body rest Hn Hl).
Defined.

(** ** Decoding then encoding *)

Section UnpackThenPack.
Import Struct StructFacts StructMore Truncation.

Lemma OK_inj {A : Type} (a b : A) : OK a = OK b -> a = b.
Proof. congruence. Qed.

Lemma field_length (k : nat) (s : bytes) :
  (k <= List.length s)%nat -> List.length (upto k s) = k.
Proof. intro H. rewrite length_upto. lia. Qed.

Ltac read_fields H :=
  repeat (rewrite ?unpack_uint_upto, ?length_from in H);
  repeat match type of H with
         | context [Nat.leb ?a ?b] =>
             replace (Nat.leb a b) with true in H
               by (symmetry; apply Nat.leb_le; lia);
             cbn [bind] in H
         end.

(** X8: what [unpack] read, [pack] writes back: when the [unpack] of
    [ETPowerUsage], [ETLatency] or [ETSwitchesRequest] returns a message,
    packing that message succeeds and gives the bytes of the layout at the
    front of the body, unchanged. *)
Theorem unpack_then_pack (body : bytes) :
  (forall m, ETPowerUsage.unpack body = OK m ->
             ETPowerUsage.pack m = OK (upto 16 body))
  /\ (forall m, ETLatency.unpack body = OK m ->
                ETLatency.pack m = OK (upto 16 body))
  /\ (forall m, ETSwitchesRequest.unpack body = OK m ->
                ETSwitchesRequest.pack m = OK (upto 8 body)).
Proof.
  split; [| split]; intros m H.
  - destruct (Nat.lt_ge_cases (List.length body) 16) as [Hs | Hl].
    { destruct (ETPowerUsage_short body Hs) as [e He]. congruence. }
    unfold ETPowerUsage.unpack in H. read_fields H.
    apply OK_inj in H. subst m.
    unfold ETPowerUsage.pack, ETPowerUsage.init, OFGMessage.pack.
    cbn [ETPowerUsage.xid ETPowerUsage.watts_current
         ETPowerUsage.watts_traditional ETPowerUsage.watts_max].
    rewrite !pack_uint_be_int by (apply field_length; rewrite ?length_from; lia).
    cbn [bind].
    change 16%nat with (4 + (4 + (4 + 4)))%nat. rewrite !upto_add. reflexivity.
  - destruct (Nat.lt_ge_cases (List.length body) 16) as [Hs | Hl].
    { destruct (ETLatency_short body Hs) as [e He]. congruence. }
    unfold ETLatency.unpack in H. read_fields H.
    apply OK_inj in H. subst m.
    unfold ETLatency.pack, ETLatency.init, OFGMessage.pack.
    cbn [ETLatency.xid ETLatency.latency_ms_edge ETLatency.latency_ms_agg
         ETLatency.latency_ms_core].
    rewrite !pack_uint_be_int by (apply field_length; rewrite ?length_from; lia).
    cbn [bind].
    change 16%nat with (4 + (4 + (4 + 4)))%nat. rewrite !upto_add. reflexivity.
  - destruct (Nat.lt_ge_cases (List.length body) 8) as [Hs | Hl].
    { destruct (ETSwitchesRequest_short body Hs) as [e He]. congruence. }
    unfold ETSwitchesRequest.unpack in H. read_fields H.
    apply OK_inj in H. subst m.
    unfold ETSwitchesRequest.pack, ETSwitchesRequest.init, OFGMessage.pack.
    cbn [ETSwitchesRequest.xid ETSwitchesRequest.k].
    rewrite !pack_uint_be_int by (apply field_length; rewrite ?length_from; lia).
    cbn [bind].
    change 8%nat with (4 + 4)%nat. rewrite !upto_add. reflexivity.
Qed.

(** X9: [ETSwitchFailureChange] keeps xid and dpid and normalises the
    [failed] byte: a body of 12 bytes, a [failed] byte and anything after
    it unpacks to a message, and packing that message gives the 12 bytes
    followed by 01 when the [failed] byte was 1 and by 00 otherwise. *)
Theorem failed_byte_is_normalised (p rest : bytes) (b : byte) :
  List.length p = 12%nat ->
  exists m, ETSwitchFailureChange.unpack (p ++ b :: rest) = OK m
            /\ ETSwitchFailureChange.pack m
               = OK (p ++ [if Z_of_byte b =? 1 then x01 else x00]).
Proof.
  intro Hp.
  assert (U4 : upto 4 (p ++ b :: rest) = upto 4 p)
    by (apply upto_app_inside; lia).
  assert (U8 : upto 8 (from 4 (p ++ b :: rest)) = from 4 p).
  { rewrite slice_app by lia. apply upto_all. rewrite length_from. lia. }
  assert (U1 : upto 1 (from 8 (from 4 (p ++ b :: rest))) = [b]).
  { rewrite from_from. replace (4 + 8)%nat with (List.length p) by lia.
    unfold from. rewrite skipn_app, Nat.sub_diag, skipn_all. reflexivity. }
  eexists. split.
  - unfold ETSwitchFailureChange.unpack. rewrite U4, U8, U1.
    rewrite (unpack_uint_exact 4) by (apply field_length; lia).
    rewrite (unpack_uint_exact 8) by (rewrite length_from; lia).
    rewrite (unpack_uint_exact 1) by reflexivity.
    cbn [bind]. reflexivity.
  - unfold ETSwitchFailureChange.pack, ETSwitchFailureChange.init, OFGMessage.pack.
    cbn [ETSwitchFailureChange.xid ETSwitchFailureChange.dpid
         ETSwitchFailureChange.failed].
    rewrite (pack_uint_be_int 4) by (apply field_length; lia).
    rewrite (pack_uint_be_int 8) by (rewrite length_from; lia).
    cbn [bind]. change (be_int [b]) with (Z_of_byte b).
    assert (Ef : pack_uint 1 (if if Z_of_byte b =? 1 then true else false then 1 else 0)
                 = OK [if Z_of_byte b =? 1 then x01 else x00])
      by (destruct (Z_of_byte b =? 1); reflexivity).
    rewrite Ef. cbn [bind].
    rewrite <- (firstn_skipn 4 p) at 3. unfold upto, from.
    now rewrite <- app_assoc.
Qed.

End UnpackThenPack.

Lemma unpack_then_pack_witness :
  let body := [x00; x00; x00; x07; x00; x00; x00; x05; xff] in
  let m := ETSwitchesRequest.mk 7 5 in
  ETSwitchesRequest.unpack body = OK m
  /\ ETSwitchesRequest.pack m = OK (upto 8 body).
Proof.
  intros body m.
  assert (H : ETSwitchesRequest.unpack body = OK m) by reflexivity.
  split; [exact H |].
  exact (proj2 (proj2 (unpack_then_pack body)) m H).
Defined.

Lemma failed_byte_is_normalised_witness :
  let p := [x00; x00; x00; x07; x00; x00; x00; x00; x00; x00; x00; x2a] in
  List.length p = 12%nat
  /\ exists m, ETSwitchFailureChange.unpack (p ++ x02 :: []) = OK m
               /\ ETSwitchFailureChange.pack m
                  = OK (p ++ [if Struct.Z_of_byte x02 =? 1 then x01 else x00]).
Proof.
  intro p.
  assert (Hp : List.length p = 12%nat) by reflexivity.
  split; [exact Hp |].
  exact (failed_byte_is_normalised p [] x02 Hp).
Defined.

(** ** The messages that carry a link *)

Section LinkMessages.
Context {L : LinkClass}.
Import Struct StructFacts IntFacts StructMore Truncation.

(** X10: over a base layer whose [Link.pack] writes [Link.SIZE] bytes and
    whose [Link.unpack] reads them back, an [ETLinkFailureChange] whose xid
    fits 32 bits and whose link packs is written as [4 + Link.SIZE + 1]
    bytes, and unpacking them returns the same message. *)
Theorem ETLinkFailureChange_pack_then_unpack (m : ETLinkFailureChange.t) :
  Link_pack_has_SIZE -> Link_unpack_inverts_pack ->
  u32 (ETLinkFailureChange.xid m) ->
  returns (Link_pack (ETLinkFailureChange.link m)) ->
  exists s, ETLinkFailureChange.pack m = OK s
            /\ List.length s = (4 + Link_SIZE + 1)%nat
            /\ ETLinkFailureChange.unpack s = OK m.
Proof.
  intros Hsize Hinv Hx [lb Hlb].
  pose proof (Hsize _ _ Hlb) as Hlen.
  exists (be_bytes 4 (ETLinkFailureChange.xid m) ++ lb
          ++ be_bytes 1 (if ETLinkFailureChange.failed m then 1 else 0)).
  split.
  - unfold ETLinkFailureChange.pack, OFGMessage.pack.
    rewrite (pack_u32 _ Hx), Hlb, (pack_u8 _ (u8_flag _)). reflexivity.
  - split.
    + rewrite !length_app, !be_bytes_length, Hlen. lia.
    + unfold ETLinkFailureChange.unpack. autorewrite with fields.
      rewrite (unpack_u32 _ Hx). cbn [bind].
      rewrite (upto_app Link_SIZE lb) by exact Hlen.
      rewrite (from_app Link_SIZE lb) by exact Hlen.
      pose proof (Hinv _ lb [] Hlb) as Hu. rewrite app_nil_r in Hu. rewrite Hu.
      cbn [bind]. autorewrite with fields.
      rewrite (unpack_u8 _ (u8_flag _)). cbn [bind].
      destruct m as [x l f]; cbn. now destruct f.
Qed.

Lemma item_pack_size (u : ETLinkUtils.item) (s : bytes) :
  Link_pack_has_SIZE -> is_ETLinkUtil u ->
  ETLinkUtils.item_pack u = OK s ->
  exists lb fb, s = lb ++ fb /\ Link_pack (link_of u) = OK lb
                /\ List.length lb = Link_SIZE /\ List.length fb = 4%nat.
Proof.
  intros Hsize Hu. destruct u as [l | u]; [contradiction |].
  cbn [ETLinkUtils.item_pack link_of]. unfold ETLinkUtil.pack.
  destruct (Link_pack (ETLinkUtil.link u)) as [lb |] eqn:El; [| discriminate].
  destruct (pack_f (ETLinkUtil.util u)) as [fb |] eqn:Ef; [| discriminate].
  cbn [bind]. intro H. apply OK_inj in H. subst s.
  exists lb, fb. repeat split.
  - exact (Hsize _ _ El).
  - exact (pack_f_length _ _ Ef).
Qed.

Lemma join_packed_size (us : list ETLinkUtils.item) :
  Link_pack_has_SIZE -> Forall is_ETLinkUtil us ->
  forall body, ETLinkUtils.join_packed us = OK body ->
               List.length body = (List.length us * ETLinkUtil.SIZE)%nat.
Proof.
  intros Hsize Hall. induction Hall as [| u us Hu Hus IH]; intros body H.
  - apply OK_inj in H. now subst body.
  - cbn [ETLinkUtils.join_packed] in H.
    destruct (ETLinkUtils.item_pack u) as [b |] eqn:Eb; [| discriminate].
    destruct (ETLinkUtils.join_packed us) as [r |] eqn:Er; [| discriminate].
    cbn [bind] in H. apply OK_inj in H. subst body.
    destruct (item_pack_size u b Hsize Hu Eb) as [lb [fb [-> [_ [Hl Hf]]]]].
    rewrite !length_app, (IH r eq_refl), Hl, Hf.
    unfold ETLinkUtil.SIZE. cbn [List.length]. lia.
Qed.

(** X11: over a base layer whose [Link.pack] writes [Link.SIZE] bytes, the
    bytes [ETLinkUtils.pack] writes for a list of [ETLinkUtil] items are the
    4 bytes of the xid and [ETLinkUtil.SIZE] bytes for each item. *)
Theorem ETLinkUtils_packed_size (m : ETLinkUtils.t) (s : bytes) :
  Link_pack_has_SIZE ->
  Forall is_ETLinkUtil (ETLinkUtils.utils m) ->
  ETLinkUtils.pack m = OK s ->
  List.length s
  = (4 + List.length (ETLinkUtils.utils m) * ETLinkUtil.SIZE)%nat.
Proof.
  intros Hsize Hall. unfold ETLinkUtils.pack, OFGMessage.pack.
  destruct (pack_uint 4 (ETLinkUtils.xid m)) as [h |] eqn:Eh; [| discriminate].
  destruct (ETLinkUtils.join_packed (ETLinkUtils.utils m)) as [body |] eqn:Eb;
    [| discriminate].
  cbn [bind]. intro H. apply OK_inj in H. subst s.
  rewrite length_app, (pack_uint_length _ _ _ Eh),
    (join_packed_size _ Hsize Hall body Eb).
  reflexivity.
Qed.

Lemma unpack_loop_packed (us : list ETLinkUtils.item) :
  Link_pack_has_SIZE -> Link_unpack_inverts_pack -> Forall is_ETLinkUtil us ->
  forall body acc,
    ETLinkUtils.join_packed us = OK body ->
    ETLinkUtils.unpack_loop (List.length us) body acc
    = OK (acc ++ map (fun u => ETLinkUtils.a_Link (link_of u)) us).
Proof.
  intros Hsize Hinv Hall. induction Hall as [| u us Hu Hus IH]; intros body acc H.
  - cbn. now rewrite app_nil_r.
  - cbn [ETLinkUtils.join_packed] in H.
    destruct (ETLinkUtils.item_pack u) as [b |] eqn:Eb; [| discriminate].
    destruct (ETLinkUtils.join_packed us) as [r |] eqn:Er; [| discriminate].
    cbn [bind] in H. apply OK_inj in H. subst body.
    destruct (item_pack_size u b Hsize Hu Eb) as [lb [fb [-> [Hlb [Hl Hf]]]]].
    cbn [List.length ETLinkUtils.unpack_loop].
    assert (Hrec : List.length (lb ++ fb) = ETLinkUtil.SIZE)
      by (rewrite length_app, Hl, Hf; reflexivity).
    rewrite (upto_app ETLinkUtil.SIZE (lb ++ fb) r Hrec).
    rewrite (from_app ETLinkUtil.SIZE (lb ++ fb) r Hrec).
    rewrite (Hinv _ lb fb Hlb). cbn [bind].
    rewrite (IH r _ eq_refl). cbn [map]. now rewrite <- app_assoc.
Qed.

(** X12: over such a base layer, whose [Link.unpack] reads back a packed
    link whatever follows it, unpacking the bytes [ETLinkUtils.pack] wrote
    for a list of [ETLinkUtil] items returns a message with the same xid and
    as many items, the i-th one about the link of the i-th item packed. *)
Theorem ETLinkUtils_links_survive (m : ETLinkUtils.t) (s : bytes) :
  Link_pack_has_SIZE -> Link_unpack_inverts_pack ->
  Forall is_ETLinkUtil (ETLinkUtils.utils m) ->
  ETLinkUtils.pack m = OK s ->
  exists m', ETLinkUtils.unpack s = OK m'
             /\ ETLinkUtils.xid m' = ETLinkUtils.xid m
             /\ map link_of (ETLinkUtils.utils m')
                = map link_of (ETLinkUtils.utils m).
Proof.
  intros Hsize Hinv Hall. unfold ETLinkUtils.pack, OFGMessage.pack.
  destruct (pack_uint_cases 4 (ETLinkUtils.xid m)) as [[Hx ->] | [_ ->]];
    [| discriminate].
  change (u32 (ETLinkUtils.xid m)) in Hx. cbn [bind].
  destruct (ETLinkUtils.join_packed (ETLinkUtils.utils m)) as [body |] eqn:Eb;
    [| discriminate].
  cbn [bind]. intro H. apply OK_inj in H. subst s.
  unfold ETLinkUtils.unpack. autorewrite with fields.
  rewrite (unpack_u32 _ Hx). cbn [bind].
  rewrite (join_packed_size _ Hsize Hall body Eb).
  rewrite Nat.div_mul by (unfold ETLinkUtil.SIZE; lia).
  rewrite (unpack_loop_packed _ Hsize Hinv Hall body [] Eb). cbn [bind app].
  eexists. split; [reflexivity |]. split; [reflexivity |].
  cbn [ETLinkUtils.init ETLinkUtils.utils]. rewrite map_map. reflexivity.
Qed.

End LinkMessages.

(** The base layer the examples run on keeps the two promises. *)
Module BaseLinkFacts.
Import Struct StructFacts IntFacts StructMore Truncation.

Lemma pack_has_SIZE : @Link_pack_has_SIZE BaseLink.link_class.
Proof.
  intros l s. cbn. unfold BaseLink.pack, BaseLink.Node_pack.
  repeat match goal with
         | |- context [pack_uint ?n ?v] =>
             let E := fresh "E" in
             destruct (pack_uint n v) eqn:E; cbn [bind]; [| discriminate];
             apply pack_uint_length in E
         end.
  intro H. apply OK_inj in H. subst s. rewrite !length_app.
  repeat match goal with
         | E : List.length _ = _ |- _ => rewrite E; clear E
         end.
  reflexivity.
Qed.

Lemma Node_unpack_fields (t i : Z) (rest : bytes) :
  0 <= t < 256 ^ Z.of_nat 2 -> 0 <= i < 256 ^ Z.of_nat 8 ->
  BaseLink.Node_unpack (upto BaseLink.Node_SIZE (be_bytes 2 t ++ be_bytes 8 i ++ rest))
  = OK (BaseLink.mkNode t i)
  /\ from BaseLink.Node_SIZE (be_bytes 2 t ++ be_bytes 8 i ++ rest) = rest.
Proof.
  intros Ht Hi.
  assert (Hlen : List.length (be_bytes 2 t ++ be_bytes 8 i) = BaseLink.Node_SIZE)
    by (rewrite length_app, !be_bytes_length; reflexivity).
  rewrite !app_assoc.
  rewrite (upto_app _ _ rest Hlen), (from_app _ _ rest Hlen).
  split; [| reflexivity].
  unfold BaseLink.Node_unpack. autorewrite with fields.
  rewrite (unpack_uint_be_bytes 2 t Ht). cbn [bind].
  rewrite (unpack_uint_be_bytes 8 i Hi). reflexivity.
Qed.

Lemma unpack_inverts_pack : @Link_unpack_inverts_pack BaseLink.link_class.
Proof.
  intros l s rest. cbn. unfold BaseLink.pack, BaseLink.Node_pack.
  destruct l as [lt [snt sid] sp [dnt did] dp].
  cbn [BaseLink.link_type BaseLink.src_node BaseLink.src_port BaseLink.dst_node
       BaseLink.dst_port BaseLink.node_type BaseLink.id].
  repeat match goal with
         | |- context [pack_uint ?n ?v] =>
             let R := fresh "R" in
             destruct (pack_uint_cases n v) as [[R ->] | [_ ->]];
             cbn [bind]; [| discriminate]
         end.
  intro H. apply OK_inj in H. subst s.
  rewrite <- !app_assoc.
  unfold BaseLink.unpack. autorewrite with fields.
  rewrite (unpack_uint_be_bytes 2 lt) by assumption. cbn [bind].
  destruct (Node_unpack_fields snt sid
              (be_bytes 2 sp ++ be_bytes 2 dnt ++ be_bytes 8 did ++ be_bytes 2 dp ++ rest))
    as [-> ->]; try assumption.
  cbn [bind]. autorewrite with fields.
  rewrite (unpack_uint_be_bytes 2 sp) by assumption. cbn [bind].
  destruct (Node_unpack_fields dnt did (be_bytes 2 dp ++ rest)) as [-> ->];
    try assumption.
  cbn [bind]. autorewrite with fields.
  rewrite (unpack_uint_be_bytes 2 dp) by assumption. reflexivity.
Qed.

End BaseLinkFacts.

Lemma ETLinkFailureChange_pack_then_unpack_witness :
  let l := BaseLink.mk 1 (BaseLink.mkNode 1 5) 2 (BaseLink.mkNode 1 6) 3 in
  let m := @ETLinkFailureChange.mk BaseLink.link_class 7 l true in
  @Link_pack_has_SIZE BaseLink.link_class
  /\ @Link_unpack_inverts_pack BaseLink.link_class
  /\ u32 (ETLinkFailureChange.xid m)
  /\ returns (Link_pack (ETLinkFailureChange.link m))
  /\ exists s, ETLinkFailureChange.pack m = OK s
               /\ List.length s = (4 + @Link_SIZE BaseLink.link_class + 1)%nat
               /\ ETLinkFailureChange.unpack s = OK m.
Proof.
  intros l m.
  assert (Hx : u32 (ETLinkFailureChange.xid m)) by (cbn; unfold u32; lia).
  assert (Hp : returns (Link_pack (ETLinkFailureChange.link m)))
    by (eexists; reflexivity).
  split; [exact BaseLinkFacts.pack_has_SIZE |].
  split; [exact BaseLinkFacts.unpack_inverts_pack |].
  split; [exact Hx | split; [exact Hp |]].
  exact (@ETLinkFailureChange_pack_then_unpack BaseLink.link_class m
           BaseLinkFacts.pack_has_SIZE BaseLinkFacts.unpack_inverts_pack Hx Hp).
Defined.

Lemma ETLinkUtils_packed_size_witness :
  let l := BaseLink.mk 1 (BaseLink.mkNode 1 5) 2 (BaseLink.mkNode 1 6) 3 in
  let u := @ETLinkUtils.a_ETLinkUtil BaseLink.link_class
             (@ETLinkUtil.mk BaseLink.link_class l 0.5%float) in
  let m := @ETLinkUtils.mk BaseLink.link_class 7 [u; u] in
  let item := [x00; x01] ++ [x00; x01; x00; x00; x00; x00; x00; x00; x00; x05]
              ++ [x00; x02] ++ [x00; x01; x00; x00; x00; x00; x00; x00; x00; x06]
              ++ [x00; x03] ++ [x3f; x00; x00; x00] in
  let s := [x00; x00; x00; x07] ++ item ++ item in
  @Link_pack_has_SIZE BaseLink.link_class
  /\ Forall is_ETLinkUtil (ETLinkUtils.utils m)
  /\ ETLinkUtils.pack m = OK s
  /\ List.length s = (4 + 2 * @ETLinkUtil.SIZE BaseLink.link_class)%nat.
Proof.
  intros l u m item s.
  assert (Hall : Forall is_ETLinkUtil (ETLinkUtils.utils m))
    by (repeat constructor).
  assert (Hp : ETLinkUtils.pack m = OK s) by (vm_compute; reflexivity).
  split; [exact BaseLinkFacts.pack_has_SIZE | split; [exact Hall | split; [exact Hp |]]].
  exact (@ETLinkUtils_packed_size BaseLink.link_class m s
           BaseLinkFacts.pack_has_SIZE Hall Hp).
Defined.

Lemma ETLinkUtils_links_survive_witness :
  let l := BaseLink.mk 1 (BaseLink.mkNode 1 5) 2 (BaseLink.mkNode 1 6) 3 in
  let u := @ETLinkUtils.a_ETLinkUtil BaseLink.link_class
             (@ETLinkUtil.mk BaseLink.link_class l 0.5%float) in
  let m := @ETLinkUtils.mk BaseLink.link_class 7 [u] in
  let item := [x00; x01] ++ [x00; x01; x00; x00; x00; x00; x00; x00; x00; x05]
              ++ [x00; x02] ++ [x00; x01; x00; x00; x00; x00; x00; x00; x00; x06]
              ++ [x00; x03] ++ [x3f; x00; x00; x00] in
  let s := [x00; x00; x00; x07] ++ item in
  @Link_pack_has_SIZE BaseLink.link_class
  /\ @Link_unpack_inverts_pack BaseLink.link_class
  /\ Forall is_ETLinkUtil (ETLinkUtils.utils m)
  /\ ETLinkUtils.pack m = OK s
  /\ exists m', ETLinkUtils.unpack s = OK m'
                /\ ETLinkUtils.xid m' = ETLinkUtils.xid m
                /\ map link_of (ETLinkUtils.utils m')
                   = map link_of (ETLinkUtils.utils m).
Proof.
  intros l u m item s.
  assert (Hall : Forall is_ETLinkUtil (ETLinkUtils.utils m))
    by (repeat constructor).
  assert (Hp : ETLinkUtils.pack m = OK s) by (vm_compute; reflexivity).
  split; [exact BaseLinkFacts.pack_has_SIZE |].
  split; [exact BaseLinkFacts.unpack_inverts_pack |].
  split; [exact Hall | split; [exact Hp |]].
  exact (@ETLinkUtils_links_survive BaseLink.link_class m s
           BaseLinkFacts.pack_has_SIZE BaseLinkFacts.unpack_inverts_pack Hall Hp).
Defined.

(** ** [length] is the size [pack] writes *)

Section LengthIsSize.
Context {L : LinkClass}.
Import Struct StructFacts StructMore Truncation.

(** Name the bytes of every field [pack] wrote, with their sizes. *)
Ltac name_fields :=
  repeat match goal with
         | |- context [pack_uint ?n ?v] =>
             let E := fresh "E" in
             destruct (pack_uint n v) eqn:E; cbn [bind]; [| discriminate];
             apply pack_uint_length in E
         | |- context [pack_f ?x] =>
             let E := fresh "E" in
             destruct (pack_f x) eqn:E; cbn [bind]; [| discriminate];
             apply pack_f_length in E
         end.

Ltac count_bytes s :=
  let H := fresh "H" in
  intro H; apply OK_inj in H; subst s; rewrite !length_app;
  repeat match goal with
         | E : List.length _ = _ |- _ => rewrite E; clear E
         end.

(** X13: for every message that is not an [ETLinkUtils], over a base layer
    whose [Link.pack] writes [Link.SIZE] bytes, [length()] returns the
    number of bytes [pack()] writes. *)
Theorem length_is_packed_size (m : message) (s : bytes) :
  Link_pack_has_SIZE ->
  class_of m <> ETLinkUtils_ ->
  pack m = OK s ->
  length m = OK (Int (Z.of_nat (List.length s))).
Proof.
  intros Hsize Hc.
  destruct m as [m | m | m | m | m | m | m | m | m]; cbn [pack length class_of] in *;
    try congruence.
  - unfold ETTrafficMatrix.pack, ETTrafficMatrix.pack_body, OFGMessage.pack.
    name_fields. count_bytes s. reflexivity.
  - unfold ETPowerUsage.pack, OFGMessage.pack.
    name_fields. count_bytes s. reflexivity.
  - unfold ETBandwidth.pack, OFGMessage.pack.
    name_fields. count_bytes s. reflexivity.
  - unfold ETLatency.pack, OFGMessage.pack.
    name_fields. count_bytes s. reflexivity.
  - unfold ETSwitchesRequest.pack, OFGMessage.pack.
    name_fields. count_bytes s. reflexivity.
  - unfold ETSwitchFailureChange.pack, OFGMessage.pack.
    name_fields. count_bytes s. reflexivity.
  - unfold ETLinkFailureChange.pack, OFGMessage.pack.
    destruct (pack_uint 4 (ETLinkFailureChange.xid m)) as [h |] eqn:Eh;
      cbn [bind]; [| discriminate].
    destruct (Link_pack (ETLinkFailureChange.link m)) as [lb |] eqn:El;
      cbn [bind]; [| discriminate].
    apply Hsize in El. apply pack_uint_length in Eh.
    name_fields. count_bytes s.
    unfold ETLinkFailureChange.length, OFGMessage.SIZE. do 2 f_equal. lia.
  - unfold ETComputationDone.pack, OFGMessage.pack.
    name_fields. count_bytes s. reflexivity.
Qed.

End LengthIsSize.

Lemma length_is_packed_size_witness :
  let m := @TrafficMatrix BaseLink.link_class
             (ETTrafficMatrix.mk 7 true 3 false 4 0.5 0.25 0.5 0) in
  let s := [x00; x00; x00; x07] ++ [x01; x03; x00] ++ [x00; x00; x00; x04]
           ++ [x3f; x00; x00; x00] ++ [x3e; x80; x00; x00] ++ [x3f; x00; x00; x00]
           ++ [x00; x00; x00; x00] in
  @Link_pack_has_SIZE BaseLink.link_class
  /\ class_of m <> ETLinkUtils_
  /\ pack m = OK s
  /\ length m = OK (Int (Z.of_nat (List.length s))).
Proof.
  intros m s.
  assert (Hc : class_of m <> ETLinkUtils_) by discriminate.
  assert (Hp : pack m = OK s) by (vm_compute; reflexivity).
  split; [exact BaseLinkFacts.pack_has_SIZE | split; [exact Hc | split; [exact Hp |]]].
  exact (@length_is_packed_size BaseLink.link_class m s
           BaseLinkFacts.pack_has_SIZE Hc Hp).
Defined.

(** ** ETTrafficMatrix: validation on the way in *)

Module Validation.
Import FloatOrder Rounding Binary64.

Lemma number_of_spec (x : float) :
  Prim2SF x <> S754_nan -> number x = true.
Proof.
  unfold number. rewrite eqb_spec. unfold SFeqb.
  destruct (Prim2SF x) as [s | s | | s m e] eqn:E; intro H.
  - reflexivity.
  - now destruct s.
  - congruence.
  - pose proof (valid_finite x _ _ _ E) as B. cbn [SFcompare].
    rewrite Z.compare_refl.
    assert (Pos.compare_cont Eq m m = Eq) by apply Pos.compare_cont_refl.
    destruct s; rewrite H0; reflexivity.
Qed.

(** A sum that compares above 1.0 is a number, and so are its terms. *)
Lemma terms_of_a_large_sum (a e : float) :
  PrimFloat.ltb 1 (a + e) = true -> number a = true /\ number e = true.
Proof.
  rewrite ltb_spec, add_spec, Prim2SF_one. unfold SFltb, SF64add. intro H.
  split; apply number_of_spec; intro N; rewrite N in H.
  - discriminate H.
  - destruct (Prim2SF a); discriminate H.
Qed.

(** What a message the constructor returned says about its arguments. *)
Lemma init_fields (use_hw solver may_split_flows k plen xid : Z)
    (d e a : float) (m : ETTrafficMatrix.t) :
  ETTrafficMatrix.init use_hw solver may_split_flows k d e a plen xid = OK m ->
  (PrimFloat.ltb d 0 = false /\ PrimFloat.ltb 1 d = false
   /\ PrimFloat.ltb e 0 = false /\ PrimFloat.ltb 1 e = false
   /\ PrimFloat.ltb a 0 = false)
  /\ ((PrimFloat.ltb 1 (a + e) = false
       /\ m = ETTrafficMatrix.mk xid (bool_ use_hw) solver (bool_ may_split_flows)
                k d e a plen)
      \/ (PrimFloat.ltb 1 (a + e) = true /\ PrimFloat.ltb 1.01 (a + e) = false
          /\ m = ETTrafficMatrix.mk xid (bool_ use_hw) solver (bool_ may_split_flows)
                   k d e (1 - e)%float plen)).
Proof.
  unfold ETTrafficMatrix.init, ETTrafficMatrix.gtb.
  destruct (PrimFloat.ltb d 0); [discriminate |].
  destruct (PrimFloat.ltb 1 d); [discriminate |].
  destruct (PrimFloat.ltb e 0); [discriminate |].
  destruct (PrimFloat.ltb 1 e); [discriminate |].
  destruct (PrimFloat.ltb a 0); [discriminate |].
  cbn [orb].
  destruct (PrimFloat.ltb 1 (a + e)).
  - destruct (PrimFloat.ltb 1.01 (a + e)); [discriminate |].
    intro H. split; [tauto |]. right. repeat split. congruence.
  - intro H. split; [tauto |]. left. split; [reflexivity | congruence].
Qed.

Lemma bool_of_bool (b : bool) : bool_ (int_of_bool b) = b.
Proof. now destruct b. Qed.

Lemma in_unit_of_tests (x : float) :
  number x = true -> PrimFloat.ltb x 0 = false -> PrimFloat.ltb 1 x = false ->
  in_unit x = true.
Proof.
  intros N H0 H1. unfold in_unit.
  assert (N0 : PrimFloat.eqb 0 0 = true) by reflexivity.
  assert (N1 : PrimFloat.eqb 1 1 = true) by reflexivity.
  rewrite (not_ltb_leb x 0 N N0 H0), (not_ltb_leb 1 x N1 N H1). reflexivity.
Qed.

(** X14: the constructor is idempotent: a message it returned passes the
    validation again and comes out unchanged, the clamped [agg] included.
    This is what lets [unpack], which runs the constructor on the fields it
    read, return the message that was packed. *)
Theorem construction_is_idempotent (use_hw solver may_split_flows k plen xid : Z)
    (d e a : float) (m : ETTrafficMatrix.t) :
  ETTrafficMatrix.init use_hw solver may_split_flows k d e a plen xid = OK m ->
  reconstruct m = OK m.
Proof.
  intro H. destruct (init_fields _ _ _ _ _ _ _ _ _ _ H)
    as [[Hd0 [Hd1 [He0 [He1 Ha0]]]] [[Hs ->] | [Hs [Hs' ->]]]];
    unfold reconstruct, ETTrafficMatrix.init, ETTrafficMatrix.gtb;
    cbn [ETTrafficMatrix.xid ETTrafficMatrix.use_hw ETTrafficMatrix.solver
         ETTrafficMatrix.may_split_flows ETTrafficMatrix.k ETTrafficMatrix.demand
         ETTrafficMatrix.edge ETTrafficMatrix.agg ETTrafficMatrix.plen];
    rewrite !bool_of_bool, Hd0, Hd1, He0, He1.
  - rewrite Ha0, Hs. reflexivity.
  - destruct (terms_of_a_large_sum a e Hs) as [_ Ne].
    pose proof (in_unit_of_tests e Ne He0 He1) as Ue.
    destruct (clamp_in_unit e Ue) as [Uc Hsum].
    unfold in_unit in Uc. apply andb_true_iff in Uc. destruct Uc as [Uc0 _].
    rewrite (leb_not_ltb _ _ Uc0), (leb_not_ltb _ _ Hsum). reflexivity.
Qed.

End Validation.

Lemma construction_is_idempotent_witness :
  let m := ETTrafficMatrix.mk 7 true 3 false 4 0.5 0.5 (1 - 0.5) 0 in
  ETTrafficMatrix.init 1 3 0 4 0.5 0.5 0.505 0 7 = OK m
  /\ reconstruct m = OK m.
Proof.
  intro m.
  assert (H : ETTrafficMatrix.init 1 3 0 4 0.5 0.5 0.505 0 7 = OK m) by reflexivity.
  split; [exact H |].
  exact (Validation.construction_is_idempotent 1 3 0 4 0 7 0.5 0.5 0.505 m H).
Defined.

Section ValidatedMessages.
Import Validation.

Lemma unpack_is_constructed (body : bytes) (m : ETTrafficMatrix.t) :
  ETTrafficMatrix.unpack body = OK m ->
  exists use_hw solver may_split_flows k d e a plen xid,
    ETTrafficMatrix.init use_hw solver may_split_flows k d e a plen xid = OK m.
Proof.
  unfold ETTrafficMatrix.unpack.
  destruct (Struct.unpack_uint 4 (upto 4 body)) as [xid |]; [| discriminate].
  cbn [bind].
  destruct (ETTrafficMatrix.unpack_body (upto 23 (from 4 body)))
    as [[[[[[[[t0 t1] t2] t3] t4] t5] t6] t7] |]; [| discriminate].
  cbn [bind]. intro H. now exists t0, t1, t2, t3, t4, t5, t6, t7, xid.
Qed.

Lemma constructed_in_range (use_hw solver may_split_flows k plen xid : Z)
    (d e a : float) (m : ETTrafficMatrix.t) :
  ETTrafficMatrix.init use_hw solver may_split_flows k d e a plen xid = OK m ->
  number (ETTrafficMatrix.demand m) = true ->
  number (ETTrafficMatrix.edge m) = true ->
  number (ETTrafficMatrix.agg m) = true ->
  in_unit (ETTrafficMatrix.demand m) = true
  /\ in_unit (ETTrafficMatrix.edge m) = true
  /\ in_unit (ETTrafficMatrix.agg m) = true
  /\ PrimFloat.leb (ETTrafficMatrix.agg m + ETTrafficMatrix.edge m) 1 = true.
Proof.
  intros H Nd Ne Na.
  assert (N : number d = true /\ number e = true /\ number a = true).
  { destruct (init_fields _ _ _ _ _ _ _ _ _ _ H) as [_ [[_ E] | [Hs [_ E]]]];
      subst m; cbn in Nd, Ne, Na.
    - tauto.
    - destruct (terms_of_a_large_sum a e Hs). tauto. }
  destruct N as [Nd' [Ne' Na']].
  destruct (numbers_satisfy_invariant _ _ _ _ _ _ d e a m Nd' Ne' Na' H)
    as [U1 [U2 [U3 [U4 _]]]].
  repeat split; assumption.
Qed.

(** X15: validation holds for numbers: a message the constructor returns,
    and so a message [unpack] returns, whose demand, edge and agg are
    numbers (not NaN) has all three between 0.0 and 1.0 and agg + edge at
    most 1.0, under IEEE double arithmetic. *)
Theorem validated_numbers_are_in_range (m : ETTrafficMatrix.t) :
  number (ETTrafficMatrix.demand m) = true ->
  number (ETTrafficMatrix.edge m) = true ->
  number (ETTrafficMatrix.agg m) = true ->
  ((exists use_hw solver may_split_flows k d e a plen xid,
       ETTrafficMatrix.init use_hw solver may_split_flows k d e a plen xid = OK m)
   \/ (exists body, ETTrafficMatrix.unpack body = OK m)) ->
  in_unit (ETTrafficMatrix.demand m) = true
  /\ in_unit (ETTrafficMatrix.edge m) = true
  /\ in_unit (ETTrafficMatrix.agg m) = true
  /\ PrimFloat.leb (ETTrafficMatrix.agg m + ETTrafficMatrix.edge m) 1 = true.
Proof.
  intros Nd Ne Na [H | [body H]].
  - destruct H as [u [s [f [k [d [e [a [p [x H]]]]]]]]].
    exact (constructed_in_range _ _ _ _ _ _ _ _ _ m H Nd Ne Na).
  - destruct (unpack_is_constructed body m H)
      as [u [s [f [k [d [e [a [p [x H']]]]]]]]].
    exact (constructed_in_range _ _ _ _ _ _ _ _ _ m H' Nd Ne Na).
Qed.

End ValidatedMessages.

Lemma validated_numbers_are_in_range_witness :
  let m := ETTrafficMatrix.mk 7 true 3 false 4 0.5 0.5 (1 - 0.5) 0 in
  number (ETTrafficMatrix.demand m) = true
  /\ number (ETTrafficMatrix.edge m) = true
  /\ number (ETTrafficMatrix.agg m) = true
  /\ ETTrafficMatrix.init 1 3 0 4 0.5 0.5 0.505 0 7 = OK m
  /\ in_unit (ETTrafficMatrix.demand m) = true
  /\ in_unit (ETTrafficMatrix.edge m) = true
  /\ in_unit (ETTrafficMatrix.agg m) = true
  /\ PrimFloat.leb (ETTrafficMatrix.agg m + ETTrafficMatrix.edge m) 1 = true.
Proof.
  intro m.
  assert (Nd : number (ETTrafficMatrix.demand m) = true) by reflexivity.
  assert (Ne : number (ETTrafficMatrix.edge m) = true) by reflexivity.
  assert (Na : number (ETTrafficMatrix.agg m) = true) by reflexivity.
  assert (H : ETTrafficMatrix.init 1 3 0 4 0.5 0.5 0.505 0 7 = OK m) by reflexivity.
  split; [exact Nd | split; [exact Ne | split; [exact Na | split; [exact H |]]]].
  apply (validated_numbers_are_in_range m Nd Ne Na).
  left. now exists 1, 3, 0, 4, 0.5%float, 0.5%float, 0.505%float, 0, 7.
Defined.

(** ** ETTrafficMatrix on the wire *)

Section TrafficMatrixWire.
Import Struct StructFacts IntFacts StructMore Truncation Validation.

(** Take apart a list whose length is known. *)
Ltac explode l H :=
  repeat (destruct l as [| ? l]; cbn [List.length] in H; try discriminate H);
  clear H.

(** The fields of the layout ['> 3B I 3f I'], read where they were
    written. *)
Lemma layout_fields (b0 b1 b2 b3 b4 b5 b6 b7 : bytes) :
  List.length b0 = 1%nat -> List.length b1 = 1%nat -> List.length b2 = 1%nat ->
  List.length b3 = 4%nat -> List.length b4 = 4%nat -> List.length b5 = 4%nat ->
  List.length b6 = 4%nat -> List.length b7 = 4%nat ->
  let s := b0 ++ b1 ++ b2 ++ b3 ++ b4 ++ b5 ++ b6 ++ b7 in
  List.length s = 23%nat
  /\ ETTrafficMatrix.field 0 1 s = b0 /\ ETTrafficMatrix.field 1 1 s = b1
  /\ ETTrafficMatrix.field 2 1 s = b2 /\ ETTrafficMatrix.field 3 4 s = b3
  /\ ETTrafficMatrix.field 7 4 s = b4 /\ ETTrafficMatrix.field 11 4 s = b5
  /\ ETTrafficMatrix.field 15 4 s = b6 /\ ETTrafficMatrix.field 19 4 s = b7.
Proof.
  intros H0 H1 H2 H3 H4 H5 H6 H7.
  explode b0 H0. explode b1 H1. explode b2 H2. explode b3 H3.
  explode b4 H4. explode b5 H5. explode b6 H6. explode b7 H7.
  cbv zeta. repeat split; reflexivity.
Qed.

(** X16: an [ETTrafficMatrix] that passes its own validation unchanged,
    whose integer fields fit their wire fields and whose demand, edge and
    agg are binary32 values, packs to 27 bytes, and unpacking them returns
    the same message. *)
Theorem ETTrafficMatrix_pack_then_unpack (m : ETTrafficMatrix.t) :
  u32 (ETTrafficMatrix.xid m) -> u8 (ETTrafficMatrix.solver m) ->
  u32 (ETTrafficMatrix.k m) -> u32 (ETTrafficMatrix.plen m) ->
  single_exact (ETTrafficMatrix.demand m) ->
  single_exact (ETTrafficMatrix.edge m) ->
  single_exact (ETTrafficMatrix.agg m) ->
  reconstruct m = OK m ->
  exists s, ETTrafficMatrix.pack m = OK s
            /\ List.length s = 27%nat
            /\ ETTrafficMatrix.unpack s = OK m.
Proof.
  intros Hx Hs Hk Hp [sd [Pd Ud]] [se [Pe Ue]] [sa [Pa Ua]] Hm.
  assert (Hu : u8 (int_of_bool (ETTrafficMatrix.use_hw m)))
    by (destruct (ETTrafficMatrix.use_hw m); cbn; unfold u8; lia).
  assert (Hf : u8 (int_of_bool (ETTrafficMatrix.may_split_flows m)))
    by (destruct (ETTrafficMatrix.may_split_flows m); cbn; unfold u8; lia).
  destruct (layout_fields
              (be_bytes 1 (int_of_bool (ETTrafficMatrix.use_hw m)))
              (be_bytes 1 (ETTrafficMatrix.solver m))
              (be_bytes 1 (int_of_bool (ETTrafficMatrix.may_split_flows m)))
              (be_bytes 4 (ETTrafficMatrix.k m)) sd se sa
              (be_bytes 4 (ETTrafficMatrix.plen m)))
    as [Hlen [F0 [F1 [F2 [F3 [F4 [F5 [F6 F7]]]]]]]];
    try apply be_bytes_length; try (eapply pack_f_length; eassumption).
  set (body := be_bytes 1 (int_of_bool (ETTrafficMatrix.use_hw m))
               ++ be_bytes 1 (ETTrafficMatrix.solver m)
               ++ be_bytes 1 (int_of_bool (ETTrafficMatrix.may_split_flows m))
               ++ be_bytes 4 (ETTrafficMatrix.k m) ++ sd ++ se ++ sa
               ++ be_bytes 4 (ETTrafficMatrix.plen m)) in *.
  exists (be_bytes 4 (ETTrafficMatrix.xid m) ++ body).
  split; [| split].
  - unfold ETTrafficMatrix.pack, ETTrafficMatrix.pack_body, OFGMessage.pack.
    rewrite (pack_u32 _ Hx), (pack_u8 _ Hu), (pack_u8 _ Hs), (pack_u8 _ Hf),
      (pack_u32 _ Hk), Pd, Pe, Pa, (pack_u32 _ Hp).
    reflexivity.
  - rewrite length_app, be_bytes_length, Hlen. reflexivity.
  - unfold ETTrafficMatrix.unpack. autorewrite with fields.
    rewrite (unpack_u32 _ Hx). cbn [bind].
    rewrite (upto_all 23 body Hlen).
    unfold ETTrafficMatrix.unpack_body. rewrite Hlen, Nat.eqb_refl.
    rewrite F0, F1, F2, F3, F4, F5, F6, F7, Ud, Ue, Ua. cbn [bind].
    rewrite !be_int_be_bytes by assumption.
    exact Hm.
Qed.

Lemma Z_of_byte_zero (b : byte) : Z_of_byte b = 0 <-> b = x00.
Proof.
  split; [| now intros ->].
  intro H. rewrite <- (byte_of_Z_of_byte b), H. reflexivity.
Qed.

(** X17: the flags of an [ETTrafficMatrix] are read with [bool()]: when
    [unpack] returns a message, [use_hw] and [may_split_flows] are true
    exactly when their byte is not zero, and [solver] is the value of its
    byte. *)
Theorem flags_are_true_when_nonzero (p rest : bytes) (h sv f : byte)
    (m : ETTrafficMatrix.t) :
  List.length p = 4%nat ->
  ETTrafficMatrix.unpack (p ++ h :: sv :: f :: rest) = OK m ->
  (ETTrafficMatrix.use_hw m = true <-> h <> x00)
  /\ ETTrafficMatrix.solver m = Z_of_byte sv
  /\ (ETTrafficMatrix.may_split_flows m = true <-> f <> x00).
Proof.
  intros Hp. unfold ETTrafficMatrix.unpack.
  rewrite (upto_app 4 p) by exact Hp. rewrite (from_app 4 p) by exact Hp.
  rewrite (unpack_uint_exact 4 p Hp). cbn [bind].
  unfold ETTrafficMatrix.unpack_body.
  destruct (Nat.eqb (List.length (upto 23 (h :: sv :: f :: rest))) 23); [| discriminate].
  destruct (unpack_f _) as [t4 |]; [| discriminate].
  destruct (unpack_f _) as [t5 |]; [| discriminate].
  destruct (unpack_f _) as [t6 |]; [| discriminate].
  cbn [bind].
  change (be_int (ETTrafficMatrix.field 0 1 (upto 23 (h :: sv :: f :: rest))))
    with (Z_of_byte h).
  change (be_int (ETTrafficMatrix.field 1 1 (upto 23 (h :: sv :: f :: rest))))
    with (Z_of_byte sv).
  change (be_int (ETTrafficMatrix.field 2 1 (upto 23 (h :: sv :: f :: rest))))
    with (Z_of_byte f).
  intro H.
  assert (E : ETTrafficMatrix.use_hw m = bool_ (Z_of_byte h)
              /\ ETTrafficMatrix.solver m = Z_of_byte sv
              /\ ETTrafficMatrix.may_split_flows m = bool_ (Z_of_byte f)).
  { destruct (init_fields _ _ _ _ _ _ _ _ _ _ H) as [_ [[_ ->] | [_ [_ ->]]]];
      repeat split. }
  destruct E as [-> [-> ->]]. unfold bool_.
  split; [| split; [reflexivity |]].
  - rewrite negb_true_iff, Z.eqb_neq, Z_of_byte_zero. reflexivity.
  - rewrite negb_true_iff, Z.eqb_neq, Z_of_byte_zero. reflexivity.
Qed.

End TrafficMatrixWire.

Lemma ETTrafficMatrix_pack_then_unpack_witness :
  let m := ETTrafficMatrix.mk 7 true 3 false 4 0.5 0.25 0.5 0 in
  u32 (ETTrafficMatrix.xid m) /\ u8 (ETTrafficMatrix.solver m)
  /\ u32 (ETTrafficMatrix.k m) /\ u32 (ETTrafficMatrix.plen m)
  /\ single_exact (ETTrafficMatrix.demand m)
  /\ single_exact (ETTrafficMatrix.edge m)
  /\ single_exact (ETTrafficMatrix.agg m)
  /\ reconstruct m = OK m
  /\ exists s, ETTrafficMatrix.pack m = OK s
               /\ List.length s = 27%nat
               /\ ETTrafficMatrix.unpack s = OK m.
Proof.
  intro m.
  assert (Hx : u32 (ETTrafficMatrix.xid m)) by (cbn; unfold u32; lia).
  assert (Hs : u8 (ETTrafficMatrix.solver m)) by (cbn; unfold u8; lia).
  assert (Hk : u32 (ETTrafficMatrix.k m)) by (cbn; unfold u32; lia).
  assert (Hp : u32 (ETTrafficMatrix.plen m)) by (cbn; unfold u32; lia).
  assert (Sd : single_exact (ETTrafficMatrix.demand m))
    by (exists [x3f; x00; x00; x00]; split; vm_compute; reflexivity).
  assert (Se : single_exact (ETTrafficMatrix.edge m))
    by (exists [x3e; x80; x00; x00]; split; vm_compute; reflexivity).
  assert (Sa : single_exact (ETTrafficMatrix.agg m))
    by (exists [x3f; x00; x00; x00]; split; vm_compute; reflexivity).
  assert (Hm : reconstruct m = OK m) by reflexivity.
  split; [exact Hx | split; [exact Hs | split; [exact Hk | split; [exact Hp |]]]].
  split; [exact Sd | split; [exact Se | split; [exact Sa | split; [exact Hm |]]]].
  exact (ETTrafficMatrix_pack_then_unpack m Hx Hs Hk Hp Sd Se Sa Hm).
Defined.

Lemma flags_are_true_when_nonzero_witness :
  let p := [x00; x00; x00; x07] in
  let rest := [x00; x00; x00; x04] ++ [x3f; x00; x00; x00] ++ [x3e; x80; x00; x00]
              ++ [x3f; x00; x00; x00] ++ [x00; x00; x00; x00] in
  let m := ETTrafficMatrix.mk 7 true 3 false 4 0.5 0.25 0.5 0 in
  List.length p = 4%nat
  /\ ETTrafficMatrix.unpack (p ++ x02 :: x03 :: x00 :: rest) = OK m
  /\ (ETTrafficMatrix.use_hw m = true <-> x02 <> x00)
  /\ ETTrafficMatrix.solver m = Struct.Z_of_byte x03
  /\ (ETTrafficMatrix.may_split_flows m = true <-> x00 <> x00).
Proof.
  intros p rest m.
  assert (Hp : List.length p = 4%nat) by reflexivity.
  assert (H : ETTrafficMatrix.unpack (p ++ x02 :: x03 :: x00 :: rest) = OK m)
    by (vm_compute; reflexivity).
  split; [exact Hp | split; [exact H |]].
  exact (flags_are_true_when_nonzero p rest x02 x03 x00 m Hp H).
Defined.

(** ** The type codes *)



(** ** ETLinkUtils: one item per record *)

Section RecordByRecord.
Context {L : LinkClass}.
Import Struct StructFacts StructMore Truncation.

Lemma unpack_loop_items (n : nat) :
  forall (body : bytes) (acc us : list ETLinkUtils.item),
    ETLinkUtils.unpack_loop n body acc = OK us ->
    exists new,
      us = acc ++ new /\ List.length new = n
      /\ forall (i : nat) (u : ETLinkUtils.item),
           nth_error new i = Some u ->
           u = ETLinkUtils.a_Link (link_of u)
           /\ Link_unpack (upto ETLinkUtil.SIZE (from (i * ETLinkUtil.SIZE) body))
              = OK (link_of u).
Proof.
  induction n as [| n IH]; intros body acc us H.
  - apply OK_inj in H. subst us. exists []. rewrite app_nil_r.
    split; [reflexivity |]. split; [reflexivity |].
    intros i u Hi. destruct i; discriminate Hi.
  - cbn [ETLinkUtils.unpack_loop] in H.
    destruct (Link_unpack (upto ETLinkUtil.SIZE body)) as [l |] eqn:El;
      [| discriminate].
    cbn [bind] in H. destruct (IH _ _ _ H) as [new [-> [Hn Hall]]].
    exists (ETLinkUtils.a_Link l :: new). rewrite <- app_assoc.
    split; [reflexivity |]. split; [cbn; now rewrite Hn |].
    intros j u Hj. destruct j as [| j].
    + cbn in Hj. assert (ETLinkUtils.a_Link l = u) by congruence.
      subst u. split; [reflexivity |]. exact El.
    + cbn [nth_error] in Hj. destruct (Hall j u Hj) as [Hu Hl].
      split; [exact Hu |]. rewrite from_from in Hl.
      replace (S j * ETLinkUtil.SIZE)%nat with (ETLinkUtil.SIZE + j * ETLinkUtil.SIZE)%nat
        by (rewrite Nat.mul_succ_l; lia).
      exact Hl.
Qed.

(** X19: [ETLinkUtils.unpack] decodes record by record and all or nothing:
    a body shorter than the xid raises a [struct.error], and when a message
    is returned its i-th item is the plain link that [Link.unpack] returned
    for the i-th record of [ETLinkUtil.SIZE] bytes after the xid, so
    [Link.unpack] succeeded on every whole record. *)
Theorem ETLinkUtils_unpack_by_record (body : bytes) :
  ((List.length body < 4)%nat -> ETLinkUtils.unpack body = Raise struct_error)
  /\ forall m, ETLinkUtils.unpack body = OK m ->
       List.length (ETLinkUtils.utils m)
       = ((List.length body - 4) / ETLinkUtil.SIZE)%nat
       /\ forall (i : nat) (u : ETLinkUtils.item),
            nth_error (ETLinkUtils.utils m) i = Some u ->
            u = ETLinkUtils.a_Link (link_of u)
            /\ Link_unpack
                 (upto ETLinkUtil.SIZE (from (4 + i * ETLinkUtil.SIZE) body))
               = OK (link_of u).
Proof.
  split.
  - intro H. unfold ETLinkUtils.unpack. rewrite unpack_uint_upto.
    destruct (Nat.leb_spec 4 (List.length body)); [lia | reflexivity].
  - intros m H. unfold ETLinkUtils.unpack in H.
    destruct (unpack_uint 4 (upto 4 body)) as [xid |]; [| discriminate].
    cbn [bind] in H. rewrite length_from in H.
    destruct (ETLinkUtils.unpack_loop _ _ _) as [us |] eqn:El; [| discriminate].
    cbn [bind] in H. apply OK_inj in H. subst m.
    destruct (unpack_loop_items _ _ _ _ El) as [new [-> [Hn Hall]]].
    cbn [ETLinkUtils.init ETLinkUtils.utils app].
    split; [exact Hn |].
    intros i u Hi. destruct (Hall i u Hi) as [Hu Hl].
    split; [exact Hu |]. rewrite from_from in Hl. exact Hl.
Qed.

End RecordByRecord.

Lemma ETLinkUtils_unpack_by_record_witness :
  let l := BaseLink.mk 1 (BaseLink.mkNode 1 5) 2 (BaseLink.mkNode 1 6) 3 in
  let u := @ETLinkUtils.a_Link BaseLink.link_class l in
  let m := @ETLinkUtils.mk BaseLink.link_class 7 [u] in
  let body := [x00; x00; x00; x07]
              ++ [x00; x01] ++ [x00; x01; x00; x00; x00; x00; x00; x00; x00; x05]
              ++ [x00; x02] ++ [x00; x01; x00; x00; x00; x00; x00; x00; x00; x06]
              ++ [x00; x03] ++ [x3f; x00; x00; x00] in
  ((List.length [x00; x07] < 4)%nat
   /\ @ETLinkUtils.unpack BaseLink.link_class [x00; x07] = Raise struct_error)
  /\ @ETLinkUtils.unpack BaseLink.link_class body = OK m
  /\ nth_error (ETLinkUtils.utils m) 0 = Some u
  /\ List.length (ETLinkUtils.utils m)
     = ((List.length body - 4) / @ETLinkUtil.SIZE BaseLink.link_class)%nat
  /\ u = @ETLinkUtils.a_Link BaseLink.link_class (@link_of BaseLink.link_class u)
  /\ @Link_unpack BaseLink.link_class
       (upto (@ETLinkUtil.SIZE BaseLink.link_class)
          (from (4 + 0 * @ETLinkUtil.SIZE BaseLink.link_class) body))
     = OK (@link_of BaseLink.link_class u).
Proof.
  intros l u m body.
  assert (Hs : (List.length [x00; x07] < 4)%nat) by (cbn; lia).
  assert (Hm : @ETLinkUtils.unpack BaseLink.link_class body = OK m)
    by reflexivity.
  assert (Hu : nth_error (ETLinkUtils.utils m) 0 = Some u) by reflexivity.
  split.
  - split; [exact Hs |].
    exact (proj1 (@ETLinkUtils_unpack_by_record BaseLink.link_class [x00; x07]) Hs).
  - split; [exact Hm | split; [exact Hu |]].
    destruct (proj2 (@ETLinkUtils_unpack_by_record BaseLink.link_class body) m Hm)
      as [Hn Hall].
    split; [exact Hn |].
    exact (Hall 0%nat u Hu).
Defined.
